(** * trojanzoo: the model wrapper of [trojanzoo/models/model.py]

    A shallow embedding of the raw network's classifier construction
    ([_Model.define_classifier]) and of the [Model] wrapper: construction,
    inference utilities, checkpoint I/O, top-k accuracy and the
    train / validate loop.

    Conventions.
    - Python [int]s are [Z]; [str(i)] is stdpp's [pretty].
    - Python [float]s and tensor entries are rationals ([Q] for
      accuracies, canonical [Qc] for tensor entries), with their order and
      equality. The network and the loss are parameters of the
      development, and so is the one product of single precision whose
      rounding shows in a result, [correct_k * (100.0 / batch_size)] in
      [accuracy]: nothing is assumed of its rounding.
    - The network is called through [forward] in evaluation mode and
      through [forward_train] in training mode, where its dropout layers
      draw from the random generator.
    - A [dict] keyed by strings is a [gmap string _].
    - Code that raises is a computation in the monad [M]: it returns either a
      value or the exception, together with the state reached so far.
    - What is printed, and the device a tensor is on, are not modelled. *)

From Stdlib Require Import ZArith QArith Qcanon Ascii String.
From stdpp Require Import gmap strings pretty list fin_maps sorting.

Close Scope Q_scope.
Close Scope Qc_scope.
Local Open Scope string_scope.
Local Open Scope list_scope.
Local Open Scope Z_scope.

(** Python's [range(n)] for an [int] [n]: empty when [n <= 0]. *)
Definition range (n : Z) : list Z := Z.of_nat <$> seq 0 (Z.to_nat n).

(** Python's [str] on an [int]. *)
Definition str (i : Z) : string := pretty i.

(* ===================================================================== *)
(** * Python: exceptions, mutable state, sequences *)
(* ===================================================================== *)

Module Py.

(** The exceptions the embedded code and its libraries raise, with their
    message. *)
Inductive exn : Type :=
| TypeError (msg : string)
| ValueError (msg : string)
| IndexError (msg : string)
| AttributeError (msg : string)
| ZeroDivisionError (msg : string)
| FileNotFoundError (msg : string)
| FileExistsError (msg : string)
| IsADirectoryError (msg : string)
| NotADirectoryError (msg : string)
| UnpicklingError (msg : string)
| NotImplementedError (msg : string)
| RuntimeError (msg : string).

(** A computation over a mutable state [S]: it ends with a value or with a
    raised exception, and in both cases with the state it has reached. *)
Definition M (S A : Type) : Type := S → (exn + A) * S.

Definition ret {S A} (a : A) : M S A := λ s, (inr a, s).

Definition raise {S A} (e : exn) : M S A := λ s, (inl e, s).

Definition bind {S A B} (m : M S A) (k : A → M S B) : M S B :=
  λ s, match m s with
       | (inr a, s') => k a s'
       | (inl e, s') => (inl e, s')
       end.

Definition get {S} : M S S := λ s, (inr s, s).

Definition modify {S} (f : S → S) : M S unit := λ s, (inr tt, f s).

(** A pure computation that may raise. *)
Definition lift {S A} (r : exn + A) : M S A := λ s, (r, s).

(** [try: m except Exception as e: h e]. *)
Definition try_except {S A} (m : M S A) (h : exn → M S A) : M S A :=
  λ s, match m s with
       | (inr a, s') => (inr a, s')
       | (inl e, s') => h e s'
       end.

Declare Scope py_scope.
Delimit Scope py_scope with py.

Notation "x <- m ;; k" := (bind m (λ x, k))
  (at level 100, m at next level, right associativity) : py_scope.
Notation "m ;; k" := (bind m (λ _, k))
  (at level 100, right associativity) : py_scope.

Local Open Scope py_scope.

(** [for x in l: body x]. *)
Fixpoint for_ {S A} (l : list A) (body : A → M S unit) : M S unit :=
  match l with
  | [] => ret tt
  | x :: l' => body x ;; for_ l' body
  end.

(** [if c: m]. *)
Definition when {S} (c : bool) (m : M S unit) : M S unit :=
  if c then m else ret tt.

(** The slice [l[:k]]: a negative [k] counts from the end. *)
Definition slice_to {A} (k : Z) (l : list A) : list A :=
  if bool_decide (0 ≤ k) then take (Z.to_nat k) l
  else take (Z.to_nat (Z.of_nat (length l) + k)) l.

(** [max] of a non-empty sequence of [int]s. *)
Definition max_of (l : list Z) : exn + Z :=
  match l with
  | [] => inl (ValueError "max() arg is an empty sequence")
  | x :: l' => inr (foldr Z.max x l')
  end.

End Py.

(* ===================================================================== *)
(** * The raw network: [class _Model(nn.Module)] *)
(* ===================================================================== *)

Module RawNetwork.

(** The [torch.nn] layers the classifier is built from. *)
Inductive layer : Type :=
| Linear (in_features out_features : Z)
| ReLU
| Dropout.

(** [collections.OrderedDict(seq)]: keys keep the position of their first
    insertion, a later pair with the same key replaces the value. *)
Fixpoint od_set {A} (k : string) (v : A) (d : list (string * A)) : list (string * A) :=
  match d with
  | [] => [(k, v)]
  | (k', v') :: d' => if decide (k = k') then (k, v) :: d' else (k', v') :: od_set k v d'
  end.

Definition OrderedDict {A} (seq : list (string * A)) : list (string * A) :=
  fold_left (λ d kv, od_set kv.1 kv.2 d) seq [].

(** What [define_classifier] returns: [nn.Identity()] or
    [nn.Sequential(OrderedDict(seq))]. *)
Inductive module : Type :=
| Identity
| Sequential (children : list (string * layer)).

(** The attributes [_Model.__init__] stores from its arguments;
    [num_classes] is [None] when it is left at its default. *)
Record _Model : Type := {
  conv_depth : Z;
  conv_dim : Z;
  fc_depth : Z;
  fc_dim : Z;
  num_classes : option Z
}.

(** [nn.Linear(in_features, out_features)]: the weight is allocated with
    [torch.empty((out_features, in_features))], which raises for a size
    that is [None] or negative. *)
Definition nn_Linear (in_features : Z) (out_features : option Z) : Py.exn + layer :=
  match out_features with
  | None => inl (Py.TypeError "empty() received an invalid combination of arguments")
  | Some o =>
      if bool_decide (in_features < 0 ∨ o < 0)
      then inl (Py.RuntimeError "Trying to create tensor with negative dimension")
      else inr (Linear in_features o)
  end.

(** The three layers appended by one iteration [i] of the loop at lines
    84-88. *)
Definition hidden_block (self : _Model) (i : Z) : Py.exn + list (string * layer) :=
  match nn_Linear (fc_dim self) (Some (fc_dim self)) with
  | inl e => inl e
  | inr fc =>
      inr [ ("fc" +:+ str (i + 2), fc);
            ("relu" +:+ str (i + 2), ReLU);
            ("dropout" +:+ str (i + 2), Dropout) ]
  end.

(** [for i in l: seq.extend(block i)], up to the first iteration that
    raises. *)
Fixpoint extend_each {A} (block : Z → Py.exn + list A) (l : list Z) : Py.exn + list A :=
  match l with
  | [] => inr []
  | i :: l' =>
      match block i with
      | inl e => inl e
      | inr b =>
          match extend_each block l' with
          | inl e => inl e
          | inr bs => inr (b ++ bs)
          end
      end
  end.

(** [_Model.define_classifier] (lines 65-91). The four keyword arguments
    default to [None]; the source rebinds them to the attributes but then
    reads the attributes themselves, which the embedding keeps. The
    layers are built in the order of the source, so that the first
    [nn.Linear] that raises ends the construction. *)
Definition define_classifier (self : _Model)
    (num_classes_arg conv_dim_arg fc_depth_arg fc_dim_arg : option Z) : Py.exn + module :=
  let fc_depth_arg := default (fc_depth self) fc_depth_arg in
  if bool_decide (fc_depth self ≤ 0) then inr Identity
  else
    let conv_dim_arg := default (conv_dim self) conv_dim_arg in
    let fc_dim_arg := default (fc_dim self) fc_dim_arg in
    let num_classes_arg :=
      match num_classes_arg with Some n => Some n | None => num_classes self end in
    if bool_decide (fc_depth self = 1) then
      match nn_Linear (conv_dim self) (num_classes self) with
      | inl e => inl e
      | inr fc => inr (Sequential (OrderedDict [ ("fc", fc) ]))
      end
    else
      match nn_Linear (conv_dim self) (Some (fc_dim self)) with
      | inl e => inl e
      | inr fc1 =>
          match extend_each (hidden_block self) (range (fc_depth self - 2)) with
          | inl e => inl e
          | inr hidden =>
              match nn_Linear (fc_dim self) (num_classes self) with
              | inl e => inl e
              | inr fc_last =>
                  inr (Sequential (OrderedDict
                         ([ ("fc1", fc1); ("relu1", ReLU); ("dropout1", Dropout) ]
                          ++ hidden
                          ++ [ ("fc" +:+ str (fc_depth self), fc_last) ])))
              end
          end
      end.

(** The layers of a module, in order, without their names. *)
Definition layers (m : module) : list layer :=
  match m with
  | Identity => []
  | Sequential ch => ch.*2
  end.

Definition is_linear (l : layer) : bool :=
  match l with Linear _ _ => true | _ => false end.

(** Shapes of the parameters of a layer, as [named_parameters] lists them. *)
Definition layer_parameters (l : layer) : list (string * list Z) :=
  match l with
  | Linear i o => [ ("weight", [o; i]); ("bias", [o]) ]
  | ReLU | Dropout => []
  end.

Definition named_parameter_shapes (m : module) : list (string * list Z) :=
  match m with
  | Identity => []
  | Sequential ch =>
      '(name, l) ← ch;
      (λ p : string * list Z, (name +:+ "." +:+ p.1, p.2)) <$> layer_parameters l
  end.

Section Forward.
(** The numeric action of a layer on a tensor is left open. *)
Context {T : Type} (apply_layer : layer → T → T).

(** [module.forward]: [nn.Identity] returns its input, [nn.Sequential]
    feeds it through the children in order. *)
Definition forward (m : module) (x : T) : T :=
  match m with
  | Identity => x
  | Sequential ch => fold_left (λ acc kl, apply_layer kl.2 acc) ch x
  end.
End Forward.

(** ** The construction policy as the specification words it

    [fc_depth] linear layers; the first reads [conv_dim], the last writes
    the [n] that [num_classes] is, every other width is [fc_dim]; ReLU and
    dropout follow every linear layer but the last. *)
Definition policy_linear (self : _Model) (n : Z) (i : Z) : layer :=
  Linear (if bool_decide (i = 1) then conv_dim self else fc_dim self)
         (if bool_decide (i = fc_depth self) then n else fc_dim self).

Definition policy_layers (self : _Model) (n : Z) : list layer :=
  (i ← range (fc_depth self - 1); [policy_linear self n (i + 1); ReLU; Dropout])
  ++ [policy_linear self n (fc_depth self)].

(** ** Auxiliary definitions for the proofs *)

(** The names the layers get: a prefix and a decimal index. *)
Inductive kind : Type := KFc | KRelu | KDropout.

Definition kind_prefix (k : kind) : string :=
  match k with KFc => "fc" | KRelu => "relu" | KDropout => "dropout" end.

Definition layer_name (p : kind * Z) : string := kind_prefix p.1 +:+ str p.2.

(** The keys of the sequence built for [fc_depth > 1]. *)
Definition deep_keys (d : Z) : list (kind * Z) :=
  [ (KFc, 1); (KRelu, 1); (KDropout, 1) ]
  ++ (i ← range (d - 2); [ (KFc, i + 2); (KRelu, i + 2); (KDropout, i + 2) ])
  ++ [ (KFc, d) ].

(** The sequence of lines 81-90, before it goes through [OrderedDict],
    for widths [nn.Linear] accepts. *)
Definition deep_seq (self : _Model) (n : Z) : list (string * layer) :=
  [ ("fc1", Linear (conv_dim self) (fc_dim self));
    ("relu1", ReLU);
    ("dropout1", Dropout) ]
  ++ mbind (λ i, [ ("fc" +:+ str (i + 2), Linear (fc_dim self) (fc_dim self));
                   ("relu" +:+ str (i + 2), ReLU);
                   ("dropout" +:+ str (i + 2), Dropout) ])
           (range (fc_depth self - 2))
  ++ [ ("fc" +:+ str (fc_depth self), Linear (fc_dim self) n) ].

(** The widths [nn.Linear] is called with are all there and none is
    negative: [fc_dim] is used for a depth above 1 only. *)
Definition valid_widths (self : _Model) (n : Z) : Prop :=
  num_classes self = Some n ∧ 0 ≤ conv_dim self ∧ 0 ≤ n ∧
  (1 < fc_depth self → 0 ≤ fc_dim self).

End RawNetwork.

(* ===================================================================== *)
(** * torch: tensors, modules, serialisation *)
(* ===================================================================== *)

Module Torch.
Import Py.

(** A tensor by its shape and its entries in row-major order. Devices,
    dtypes and strides are not modelled. *)
Record Tensor : Type := mkTensor {
  shape : list nat;
  entries : list Qc
}.

Global Instance Tensor_eq_dec : EqDecision Tensor.
Proof. solve_decision. Defined.

(** A two-dimensional tensor by its rows; [dim1] is the length of every
    row, kept apart so that a batch of no rows still has a width. *)
Record Tensor2 (A : Type) : Type := mkTensor2 {
  dim1 : nat;
  rows : list (list A)
}.
Arguments mkTensor2 {A} _ _.
Arguments dim1 {A} _.
Arguments rows {A} _.

Definition dim0 {A} (t : Tensor2 A) : nat := length (rows t).

(** [t.t()]: entry [(i, j)] of the result is entry [(j, i)] of [t]. *)
Definition transpose {A} `{Inhabited A} (t : Tensor2 A) : Tensor2 A :=
  {| dim1 := dim0 t;
     rows := (λ i, (λ r : list A, r !!! i) <$> rows t) <$> seq 0 (dim1 t) |}.

(** ** Sorting a row of scores *)

Global Instance Qc_inhabited : Inhabited Qc := populate (Q2Qc 0).

Definition Qc_ltb (x y : Qc) : bool := negb (Qle_bool (this y) (this x)).

(** Insertion of an index into a list of indices kept in descending order
    of score. It is used on indices smaller than those of the list, and
    puts the new index before the indices of equal score. *)
Fixpoint insert_desc (row : list Qc) (i : nat) (sorted : list nat) : list nat :=
  match sorted with
  | [] => [i]
  | j :: sorted' =>
      if Qc_ltb (row !!! i) (row !!! j) then j :: insert_desc row i sorted'
      else i :: sorted
  end.

(** [row.argsort(descending=True)]: the indices of [row], highest score
    first. [torch] leaves the order of equal scores open; here they come
    in the order of their indices, and no statement about a class that is
    returned rests on that order. *)
Definition argsort_desc (row : list Qc) : list nat :=
  foldr (insert_desc row) [] (seq 0 (length row)).

(** The scan of [argmax]: [best] is the index of the first maximal entry
    seen so far, [i] the index of the head of [rest]. *)
Fixpoint argmax_scan (row : list Qc) (best i : nat) (rest : list Qc) : nat :=
  match rest with
  | [] => best
  | x :: rest' =>
      argmax_scan row (if Qc_ltb (row !!! best) x then i else best) (S i) rest'
  end.

(** [row.argmax()]: the index of the first maximal entry of a non-empty
    row. *)
Definition argmax (row : list Qc) : nat := argmax_scan row 0 1 (tail row).

(** [t.argsort(dim=-1, descending=True)]. *)
Definition tensor_argsort_desc (t : Tensor2 Qc) : Tensor2 Z :=
  {| dim1 := dim1 t; rows := (λ r, Z.of_nat <$> argsort_desc r) <$> rows t |}.

(** [t.topk(k, 1, True, True)[1]]: per row, the indices of the [k] largest
    entries, sorted, equal scores as [argsort_desc] has them. It raises
    when [k] is not within the row width. *)
Definition tensor_topk (k : Z) (t : Tensor2 Qc) : exn + Tensor2 Z :=
  if bool_decide (0 ≤ k ≤ Z.of_nat (dim1 t)) then
    inr {| dim1 := Z.to_nat k;
           rows := (λ r, Z.of_nat <$> take (Z.to_nat k) (argsort_desc r)) <$> rows t |}
  else inl (RuntimeError "selected index k out of range").

(** [label.view(1, -1).expand_as(pred)] for a [pred] of [n] columns: the
    labels as one row, repeated when there is a single label. *)
Definition expand_labels (label : list Z) (n : nat) : exn + list Z :=
  if bool_decide (length label = n) then inr label
  else match label with
       | [l] => inr (replicate n l)
       | _ => inl (RuntimeError "The expanded size of the tensor must match the existing size")
       end.

(** [pred.eq(labels)], [labels] being the row every row of [pred] is
    compared with. *)
Definition tensor_eq_row (pred : Tensor2 Z) (labels : list Z) : Tensor2 bool :=
  {| dim1 := dim1 pred;
     rows := (λ r, zip_with (λ p l, bool_decide (p = l)) r labels) <$> rows pred |}.

(** [rows.view(-1).float().sum()]: how many entries are [True]. *)
Definition count_true (rs : list (list bool)) : Z :=
  Z.of_nat (length (filter (λ b, b = true) (concat rs))).

End Torch.

(* ===================================================================== *)
(** * The wrapper: [class Model] *)
(* ===================================================================== *)

Module Wrapper.
Import Py Torch.
Local Open Scope py_scope.

(** ** Data *)

(** What the wrapper reads of a dataset object. *)
Record Dataset : Type := {
  data_type : string;
  dataset_name : string;
  dataset_num_classes : Z;
  dataset_loss_weights : option Tensor
}.

(** The [dataset] argument: [None], a dataset object, or (wrongly) a
    string. *)
Inductive dataset_arg : Type :=
| DatasetNone
| DatasetStr (s : string)
| DatasetObj (d : Dataset).

(** Python's truth value of the [dataset] argument. *)
Definition dataset_truthy (d : dataset_arg) : bool :=
  match d with
  | DatasetNone => false
  | DatasetStr s => negb (bool_decide (s = ""))
  | DatasetObj _ => true
  end.

(** The [loss_weights] argument: a tensor, [None], or a string such as the
    default ['dataset']. *)
Inductive loss_weights_arg : Type :=
| LossWeightsStr (s : string)
| LossWeightsNone
| LossWeightsTensor (t : Tensor).

(** The global [env] as far as the wrapper reads it. *)
Record Env : Type := {
  data_dir : string;
  num_gpus : Z
}.

(** A parameter of the network: its value, whether gradients are tracked
    for it, and its accumulated gradient. *)
Record Param : Type := mkParam {
  data : Tensor;
  requires_grad : bool;
  grad : option Tensor
}.

(** The network object [self._model] at run time: its named parameters and
    its mode ([training = false] is evaluation mode). *)
Record Net : Type := mkNet {
  parameters : gmap string Param;
  training : bool
}.

(** The attributes of a [Model] object. [criterion] holds the class weights
    captured by the closure of [define_criterion]; [model] is [None] when
    [self.model] is [self._model] itself and otherwise the mode flag of the
    [nn.DataParallel] module that wraps it. *)
Record Model : Type := mkModel {
  name : string;
  dataset : dataset_arg;
  suffix : string;
  pretrain : bool;
  official : bool;
  randomized_smooth : bool;
  rs_sigma : Qc;
  rs_n : Z;
  sgm : bool;
  sgm_gamma : Qc;
  param_list : gmap string (list string);
  num_classes : option Z;
  loss_weights : loss_weights_arg;
  folder_path : option string;
  criterion : option Tensor;
  _model : Net;
  model : option bool;
  batch_size : option Z
}.

(** Files and directories, by normalised path (see [path_key]). *)
Inductive file_content : Type :=
| StateDictFile (state_dict : gmap string Tensor)
| OtherFile.

Record FileSystem : Type := mkFileSystem {
  files : gmap (bool * list string) file_content;
  dirs : gset (bool * list string)
}.

(** The state the methods run in: the object, the file system and the
    position in the stream of random draws. *)
Record State : Type := mkState {
  self : Model;
  fs : FileSystem;
  rng : nat
}.

Definition set_self (f : Model → Model) (s : State) : State :=
  {| self := f (self s); fs := fs s; rng := rng s |}.

Definition set_fs (f : FileSystem → FileSystem) (s : State) : State :=
  {| self := self s; fs := f (fs s); rng := rng s |}.

Definition set_rng (f : nat → nat) (s : State) : State :=
  {| self := self s; fs := fs s; rng := f (rng s) |}.

Definition set_net (f : Net → Net) (m : Model) : Model :=
  {| name := name m; dataset := dataset m; suffix := suffix m;
     pretrain := pretrain m; official := official m;
     randomized_smooth := randomized_smooth m; rs_sigma := rs_sigma m;
     rs_n := rs_n m; sgm := sgm m; sgm_gamma := sgm_gamma m;
     param_list := param_list m; num_classes := num_classes m;
     loss_weights := loss_weights m; folder_path := folder_path m;
     criterion := criterion m; _model := f (_model m); model := model m;
     batch_size := batch_size m |}.

Definition set_model (f : option bool → option bool) (m : Model) : Model :=
  {| name := name m; dataset := dataset m; suffix := suffix m;
     pretrain := pretrain m; official := official m;
     randomized_smooth := randomized_smooth m; rs_sigma := rs_sigma m;
     rs_n := rs_n m; sgm := sgm m; sgm_gamma := sgm_gamma m;
     param_list := param_list m; num_classes := num_classes m;
     loss_weights := loss_weights m; folder_path := folder_path m;
     criterion := criterion m; _model := _model m; model := f (model m);
     batch_size := batch_size m |}.

Definition set_batch_size (b : option Z) (m : Model) : Model :=
  {| name := name m; dataset := dataset m; suffix := suffix m;
     pretrain := pretrain m; official := official m;
     randomized_smooth := randomized_smooth m; rs_sigma := rs_sigma m;
     rs_n := rs_n m; sgm := sgm m; sgm_gamma := sgm_gamma m;
     param_list := param_list m; num_classes := num_classes m;
     loss_weights := loss_weights m; folder_path := folder_path m;
     criterion := criterion m; _model := _model m; model := model m;
     batch_size := b |}.

Definition set_parameters (f : gmap string Param → gmap string Param) (n : Net) : Net :=
  {| parameters := f (parameters n); training := training n |}.

Definition set_training (b : bool) (n : Net) : Net :=
  {| parameters := parameters n; training := b |}.

(** ** Inference *)

(** [torch.stack(l).mean(dim=0)] on two-dimensional tensors: the
    entry-wise mean. An empty list and tensors of different sizes raise. *)
Definition tensor2_add (a b : Tensor2 Qc) : Tensor2 Qc :=
  {| dim1 := dim1 a; rows := zip_with (zip_with Qcplus) (rows a) (rows b) |}.

Definition tensor2_div (a : Tensor2 Qc) (n : Qc) : Tensor2 Qc :=
  {| dim1 := dim1 a; rows := (λ r : list Qc, (λ x, Qcdiv x n) <$> r) <$> rows a |}.

Definition same_size (a b : Tensor2 Qc) : bool :=
  bool_decide (dim1 a = dim1 b ∧ length <$> rows a = length <$> rows b).

Definition stack_mean (l : list (Tensor2 Qc)) : exn + Tensor2 Qc :=
  match l with
  | [] => inl (RuntimeError "stack expects a non-empty TensorList")
  | t :: ts =>
      if forallb (same_size t) ts then
        inr (tensor2_div (foldl tensor2_add t ts) (Q2Qc (inject_Z (Z.of_nat (length l)))))
      else inl (RuntimeError "stack expects each tensor to be equal size")
  end.

(** [n] runs of [m] in a row, their results in order: the loop
    [for _ in range(n): _list.append(m)]. *)
Fixpoint collect {S A} (n : nat) (m : M S A) : M S (list A) :=
  match n with
  | O => ret []
  | S n' => x <- m ;; xs <- collect n' m ;; ret (x :: xs)
  end.

Section Methods.

(** The global [env]. *)
Context (env : Env).

(** The forward pass of the network in evaluation mode, a function of
    its parameters and the input: the network is deterministic then. *)
Context (forward : Net → Tensor → exn + Tensor2 Qc).

(** The forward pass in training mode, where a layer such as
    [nn.Dropout] draws from the random generator: it is given the position
    in the stream of draws too, and returns the position it has reached. *)
Context (forward_train : Net → Tensor → nat → (exn + Tensor2 Qc) * nat).

(** The stream of standard normal draws behind [torch.normal]. *)
Context (randn : nat → Qc).

(** [nn.CrossEntropyLoss(weight)(output, label)]. *)
Context (cross_entropy : option Tensor → Tensor2 Qc → list Z → exn + Q).

(** [float(correct_k.mul_(100.0 / batch_size))] for a count [correct_k]
    and a [batch_size] other than 0: the product of the count and the
    quotient as single-precision arithmetic rounds it. The rounding is
    left open. *)
Context (percent : Z → Z → Q).

(** Modelled from the spec: [add_noise] of [trojanzoo.utils], which is not
    among the sources; the specification has [get_logits] draw
    "Gaussian-noise-perturbed copies of the input (std=rs_sigma)". Every
    entry gets its own draw, scaled by [std]. *)
Definition add_noise (_input : Tensor) (std : Qc) : M State Tensor :=
  s <- get ;;
  let n := length (entries _input) in
  let noise := (λ i, Qcmult std (randn (rng s + i)%nat)) <$> seq 0 n in
  modify (set_rng (λ r, (r + n)%nat)) ;;
  ret {| shape := shape _input; entries := zip_with Qcplus (entries _input) noise |}.

(** [self.model(_input)]: the forward pass, through the data-parallel
    module when there is one, in the mode the network is in. *)
Definition call_model (_input : Tensor) : M State (Tensor2 Qc) :=
  s <- get ;;
  if training (_model (self s)) then
    let run := forward_train (_model (self s)) _input (rng s) in
    modify (set_rng (λ _, run.2)) ;;
    lift run.1
  else lift (forward (_model (self s)) _input).

(** [Model.get_logits] (lines 179-195). *)
Definition get_logits (_input : Tensor)
    (randomized_smooth_arg : option bool) (rs_sigma_arg : option Qc) (rs_n_arg : option Z)
  : M State (Tensor2 Qc) :=
  s <- get ;;
  let randomized_smooth := default (randomized_smooth (self s)) randomized_smooth_arg in
  if randomized_smooth then
    let rs_sigma := default (rs_sigma (self s)) rs_sigma_arg in
    let rs_n := default (rs_n (self s)) rs_n_arg in
    _list <- collect (Z.to_nat rs_n)
               (_input_noise <- add_noise _input rs_sigma ;; call_model _input_noise) ;;
    lift (stack_mean _list)
  else call_model _input.

(** [Model.__call__] (lines 541-545); autocasting does not change the
    embedding. *)
Definition call (_input : Tensor) (amp : bool) : M State (Tensor2 Qc) :=
  if amp then get_logits _input None None None else get_logits _input None None None.

(** [Model.get_class] (lines 206-207), on the rows of the logits. *)
Definition get_class (_input : Tensor) : M State (list Z) :=
  out <- get_logits _input None None None ;;
  if bool_decide (dim1 out = 0%nat) then
    raise (IndexError "argmax(): Expected reduction dim to have non-zero size")
  else ret ((λ r, Z.of_nat (argmax r)) <$> rows out).

(** [Model.define_criterion] (lines 250-259): the class weights the
    closure captures. *)
Definition define_criterion (loss_weights : loss_weights_arg) : option Tensor :=
  match loss_weights with
  | LossWeightsStr _ => None
  | LossWeightsNone => None
  | LossWeightsTensor t => Some t
  end.

(** The closure [loss_fn] that [define_criterion] returns, stored as
    [self.criterion]: it reads [self.loss_weights] when it is called. *)
Definition loss_fn (_output : Tensor2 Qc) (_label : list Z) : M State Q :=
  s <- get ;;
  _output <- match loss_weights (self s) with
             | LossWeightsNone => ret _output
             | LossWeightsTensor _ => ret _output
             | LossWeightsStr _ => raise (AttributeError "'str' object has no attribute 'device'")
             end ;;
  lift (cross_entropy (criterion (self s)) _output _label).

(** [Model.loss] (lines 209-211). *)
Definition loss (_input : Tensor) (_label : list Z) (amp : bool) : M State Q :=
  _output <- call _input amp ;;
  loss_fn _output _label.

(** [t.view(-1)] on the first rows [rs] of the table [correct], which has
    [n] columns. The table takes its layout from the transposed [pred], so
    that its rows do not lie one after the other in memory: two rows or
    more of two entries or more cannot be viewed as one dimension. *)
Definition view_flat {A} (n : nat) (rs : list (list A)) : exn + list A :=
  if bool_decide (2 ≤ length rs ∧ 2 ≤ n)%nat then
    inl (RuntimeError "view size is not compatible with input tensor's size and stride")
  else inr (concat rs).

(** [Model.accuracy] (lines 459-477). *)
Fixpoint accuracy_res (num_classes batch_size : Z) (correct : Tensor2 bool) (topk : list Z)
  : M State (list Q) :=
  match topk with
  | [] => ret []
  | k :: topk' =>
      r <- (if bool_decide (k > num_classes) then ret (100 # 1)%Q
            else
              flat <- lift (view_flat (dim1 correct) (slice_to k (rows correct))) ;;
              let correct_k := Z.of_nat (length (filter (λ b, b = true) flat)) in
              if bool_decide (batch_size = 0)
              then raise (ZeroDivisionError "float division by zero")
              else ret (percent correct_k batch_size)) ;;
      res <- accuracy_res num_classes batch_size correct topk' ;;
      ret (r :: res)
  end.

Definition accuracy (_output : Tensor2 Qc) (_label : list Z) (topk : list Z) : M State (list Q) :=
  s <- get ;;
  m <- lift (max_of topk) ;;
  num_classes <- match num_classes (self s) with
                 | Some n => ret n
                 | None => raise (TypeError
                     "'<' not supported between instances of 'NoneType' and 'int'")
                 end ;;
  let maxk := Z.min m num_classes in
  let batch_size := Z.of_nat (length _label) in
  pred <- lift (tensor_topk maxk _output) ;;
  let pred := transpose pred in
  labels <- lift (expand_labels _label (dim1 pred)) ;;
  let correct := tensor_eq_row pred labels in
  accuracy_res num_classes batch_size correct topk.

(** [target.mode(dim=0)[0]]: the value that occurs most often, the
    smallest one among equals. *)
Definition occurrences (x : Z) (l : list Z) : nat := length (filter (λ y, y = x) l).

Definition tensor_mode (l : list Z) : exn + Z :=
  match l with
  | [] => inl (IndexError "mode(): Expected reduction dim 0 to have non-zero size")
  | x :: l' =>
      inr (foldl (λ best y,
                    if bool_decide ((occurrences best l < occurrences y l)%nat
                                    ∨ (occurrences best l = occurrences y l ∧ y < best))
                    then y else best) x l')
  end.

(** Modelled from the spec: [repeat_to_batch] of [trojanzoo.utils], which
    is not among the sources; the specification has the single target
    "broadcast to all examples". *)
Definition repeat_to_batch (x : Z) (batch_size : nat) : list Z := replicate batch_size x.

(** The input as [generate_target] passes it on: a single example of three
    dimensions becomes a batch of one. *)
Definition unsqueeze_example (_input : Tensor) : Tensor :=
  if bool_decide (length (shape _input) = 3%nat)
  then {| shape := 1%nat :: shape _input; entries := entries _input |}
  else _input.

(** The column [out[:, idx]]. *)
Definition tensor_column (out : Tensor2 Z) (idx : Z) : exn + list Z :=
  let j := if bool_decide (0 ≤ idx) then idx else Z.of_nat (dim1 out) + idx in
  if bool_decide (0 ≤ j < Z.of_nat (dim1 out)) then
    inr ((λ r : list Z, r !!! Z.to_nat j) <$> rows out)
  else inl (IndexError "index is out of bounds for dimension 1").

(** [Model.generate_target] (lines 612-622). *)
Definition generate_target (_input : Tensor) (idx : Z) (same : bool) : M State (list Z) :=
  let _input := unsqueeze_example _input in
  size0 <- match shape _input with
           | n :: _ => ret n
           | [] => raise (IndexError "Dimension specified as 0 but tensor has no dimensions")
           end ;;
  modify (set_self (set_batch_size (Some (Z.of_nat size0)))) ;;
  _output <- get_logits _input None None None ;;
  target <- lift (tensor_column (tensor_argsort_desc _output) idx) ;;
  if same then
    mode <- lift (tensor_mode target) ;;
    ret (repeat_to_batch mode size0)
  else ret target.

(** ** Paths and the file system ([os], [os.path], [torch.save],
    [torch.load]) *)

Definition slash : Ascii.ascii := "/"%char.

(** The components of a path between its separators, empty components and
    ["."] left out. *)
Fixpoint split_path (cs : list Ascii.ascii) (cur : list Ascii.ascii) : list string :=
  let close (cur : list Ascii.ascii) (rest : list string) :=
    let c := String.string_of_list_ascii (reverse cur) in
    if bool_decide (c = "" ∨ c = ".") then rest else c :: rest in
  match cs with
  | [] => close cur []
  | a :: cs' =>
      if bool_decide (a = slash) then close cur (split_path cs' [])
      else split_path cs' (a :: cur)
  end.

(** The key a path has in the file system: whether it is absolute, and its
    components. Two spellings of one path (["a//b/"], ["a/./b"]) have one
    key; [".."] and links are not resolved. *)
Definition path_key (p : string) : bool * list string :=
  let cs := String.list_ascii_of_string p in
  (bool_decide (head cs = Some slash), split_path cs []).

Fixpoint drop_while {A} (f : A → bool) (l : list A) : list A :=
  match l with
  | [] => []
  | x :: l' => if f x then drop_while f l' else l
  end.

(** [os.path.dirname]: the path up to its last separator, without the
    trailing separators unless it consists of separators only. *)
Definition dirname (p : string) : string :=
  let rev_head :=
    drop_while (λ a, negb (bool_decide (a = slash))) (reverse (String.list_ascii_of_string p)) in
  let stripped := drop_while (λ a, bool_decide (a = slash)) rev_head in
  String.string_of_list_ascii (reverse (match stripped with [] => rev_head | _ => stripped end)).

Definition is_dir (fsys : FileSystem) (k : bool * list string) : bool :=
  bool_decide (k.2 = [] ∨ k ∈ dirs fsys).

Definition is_file (fsys : FileSystem) (k : bool * list string) : bool :=
  bool_decide (is_Some (files fsys !! k)).

(** [os.path.exists]. *)
Definition path_exists (fsys : FileSystem) (p : string) : bool :=
  negb (bool_decide (p = "")) && (is_dir fsys (path_key p) || is_file fsys (path_key p)).

(** The keys of the directories above a path, and of the path itself. *)
Definition ancestors (k : bool * list string) : list (bool * list string) :=
  (λ n, (k.1, take n k.2)) <$> seq 1 (length k.2).

(** [os.makedirs(p)]: creates [p] and the directories above it that are
    missing. *)
Definition makedirs (p : string) : M State unit :=
  s <- get ;;
  let k := path_key p in
  if bool_decide (p = "") then
    raise (FileNotFoundError "[Errno 2] No such file or directory: ''")
  else if is_dir (fs s) k || is_file (fs s) k then
    raise (FileExistsError ("[Errno 17] File exists: " +:+ p))
  else if bool_decide (Exists (λ a, is_file (fs s) a = true) (ancestors k)) then
    raise (NotADirectoryError ("[Errno 20] Not a directory: " +:+ p))
  else
    modify (set_fs (λ f, {| files := files f;
                            dirs := dirs f ∪ list_to_set (ancestors k) |})).

(** [torch.save(obj, p)]: writes the file [p] in a directory that
    exists. *)
Definition torch_save (obj : gmap string Tensor) (p : string) : M State unit :=
  s <- get ;;
  let k := path_key p in
  if bool_decide (p = "") then
    raise (FileNotFoundError "[Errno 2] No such file or directory: ''")
  else if is_dir (fs s) k then
    raise (IsADirectoryError ("[Errno 21] Is a directory: " +:+ p))
  else if negb (is_dir (fs s) (k.1, removelast k.2)) then
    raise (FileNotFoundError ("[Errno 2] No such file or directory: " +:+ p))
  else
    modify (set_fs (λ f, {| files := <[k := StateDictFile obj]> (files f);
                            dirs := dirs f |})).

(** [torch.load(p)]: the state dictionary a file holds. *)
Definition torch_load (p : string) : M State (gmap string Tensor) :=
  s <- get ;;
  match files (fs s) !! path_key p with
  | Some (StateDictFile obj) => ret obj
  | Some OtherFile => raise (UnpicklingError "invalid load key")
  | None =>
      if is_dir (fs s) (path_key p)
      then raise (IsADirectoryError ("[Errno 21] Is a directory: " +:+ p))
      else raise (FileNotFoundError ("[Errno 2] No such file or directory: " +:+ p))
  end.

(** ** State dictionaries *)

(** [s] without its prefix [pre], when it has it. *)
Fixpoint strip_prefix (pre s : string) : option string :=
  match pre with
  | EmptyString => Some s
  | String a pre' =>
      match s with
      | String b s' => if decide (a = b) then strip_prefix pre' s' else None
      | EmptyString => None
      end
  end.

(** [module.state_dict()] for the submodule whose parameters have the
    names starting with [pre] (the whole network for [pre = ""]): the
    values of its parameters under their names within the submodule. *)
Definition state_dict (pre : string) (net : Net) : gmap string Tensor :=
  list_to_map (omap (λ kp : string * Param, (λ k', (k', data kp.2)) <$> strip_prefix pre kp.1)
                    (map_to_list (parameters net))).

(** [param.copy_(t)]. *)
Definition copy_ (t : Tensor) (p : Param) : Param :=
  {| data := t; requires_grad := requires_grad p; grad := grad p |}.

(** The copying part of [module.load_state_dict(sd)]: every parameter of
    the submodule for which [sd] has a tensor of its shape takes that
    value. *)
Definition load_params (pre : string) (sd : gmap string Tensor) (ps : gmap string Param)
  : gmap string Param :=
  map_imap (λ k p,
    Some (match strip_prefix pre k ≫= (sd !!.) with
          | Some t => if decide (shape t = shape (data p)) then copy_ t p else p
          | None => p
          end)) ps.

(** The check of a strict [load_state_dict]: every parameter of the
    submodule has a tensor of its shape in [sd], and [sd] has no other
    key. *)
Definition param_ok (pre : string) (sd : gmap string Tensor) (k : string) (p : Param) : bool :=
  match strip_prefix pre k with
  | Some k' => match sd !! k' with
               | Some t => bool_decide (shape t = shape (data p))
               | None => false
               end
  | None => true
  end.

Definition strict_ok (pre : string) (sd : gmap string Tensor) (ps : gmap string Param) : bool :=
  bool_decide
    (map_Forall (λ k p, param_ok pre sd k p = true) ps
     ∧ map_Forall (λ k' (_ : Tensor), is_Some (ps !! (pre +:+ k'))) sd).

(** [module.load_state_dict(sd)] with [strict=True]: it copies what
    matches and then raises if anything did not. *)
Definition load_state_dict (pre : string) (sd : gmap string Tensor) : M State unit :=
  s <- get ;;
  let ps := parameters (_model (self s)) in
  modify (set_self (set_net (set_parameters (load_params pre sd)))) ;;
  if strict_ok pre sd ps then ret tt
  else raise (RuntimeError "Error(s) in loading state_dict").

(** ** Loading and saving the model *)

(** [Model.load_official_weights] (lines 315-316). *)
Definition load_official_weights : M State unit :=
  s <- get ;;
  raise (NotImplementedError (name (self s) +:+ " has no official weights.")).

(** The path both [load] and [save] derive when no [file_path] is given
    (lines 272-276 and 299-303): [folder_path + self.name + suffix +
    '.pth'], with the attributes standing in for the arguments left at
    [None]. It gives the folder back too. *)
Definition default_file_path (folder_path_arg suffix_arg : option string)
  : M State (string * string) :=
  s <- get ;;
  let folder_path :=
    match folder_path_arg with Some f => Some f | None => folder_path (self s) end in
  let suffix := default (suffix (self s)) suffix_arg in
  match folder_path with
  | Some f => ret (f +:+ name (self s) +:+ suffix +:+ ".pth", f)
  | None => raise (TypeError "unsupported operand type(s) for +: 'NoneType' and 'str'")
  end.

(** Lines 279-291 of [Model.load], on the resolved path. *)
Definition load_file (file_path : string) (features : bool) : M State unit :=
  s <- get ;;
  if path_exists (fs s) file_path then
    try_except
      (sd <- torch_load file_path ;;
       load_state_dict (if features then "" else "classifier.") sd)
      (λ e, raise e)
  else raise (FileNotFoundError ("Model file not exist: " +:+ file_path)).

(** [Model.load] (lines 266-293); [map_location] and the messages printed
    are left out. *)
Definition load (file_path folder_path suffix : option string) (features : bool)
  : M State unit :=
  match file_path with
  | None =>
      pf <- default_file_path folder_path suffix ;;
      load_file pf.1 features
  | Some p =>
      if bool_decide (p = "official") then load_official_weights
      else load_file p features
  end.

(** [Model.save] (lines 297-312). *)
Definition save (file_path folder_path suffix : option string) (features : bool)
  : M State unit :=
  pf <- match file_path with
        | None => default_file_path folder_path suffix
        | Some p => ret (p, dirname p)
        end ;;
  let file_path := pf.1 in
  let folder_path := pf.2 in
  s <- get ;;
  when (negb (path_exists (fs s) folder_path)) (makedirs folder_path) ;;
  s <- get ;;
  let _dict := if features then state_dict "" (_model (self s))
               else state_dict "classifier." (_model (self s)) in
  torch_save _dict file_path.

(** ** Modes, gradient flags, construction *)

Definition set_requires_grad (b : bool) (p : Param) : Param :=
  {| data := data p; requires_grad := b; grad := grad p |}.

(** [Model.activate_params] (lines 490-495). The parameters of a group are
    given by their names; [requires_grad_()] on a tensor that is not a
    parameter of the network leaves the network as it is. *)
Definition activate_params (active_param : list (list string)) : M State unit :=
  modify (set_self (set_net (set_parameters (fmap (set_requires_grad false))))) ;;
  for_ active_param (λ param_group,
    for_ param_group (λ param,
      modify (set_self (set_net (set_parameters (alter (set_requires_grad true) param)))))).

(** [Model.train] (lines 553-556): [nn.Module.train] sets the mode of the
    module and of the modules below it. *)
Definition train (mode : bool) : M State unit :=
  modify (set_self (set_net (set_training mode))) ;;
  modify (set_self (set_model (fmap (λ _, mode)))) ;;
  modify (set_self (set_net (set_training mode))).

(** [Model.eval] (lines 558-561). *)
Definition eval : M State unit :=
  modify (set_self (set_net (set_training false))) ;;
  modify (set_self (set_model (fmap (λ _, false)))) ;;
  modify (set_self (set_net (set_training false))).

(** [Model.cuda] (lines 568-571): moving the tensors to a device changes
    nothing that is modelled. *)
Definition cuda : M State unit := ret tt.

(** [Model.zero_grad] (lines 573-574): the gradients are dropped. *)
Definition zero_grad : M State unit :=
  modify (set_self (set_net (set_parameters
    (fmap (λ p, {| data := data p; requires_grad := requires_grad p; grad := None |}))))).

(** The character [s[i]] of a string, [IndexError] beyond its end. *)
Definition char_at (s : string) (i : nat) : M State Ascii.ascii :=
  match String.get i s with
  | Some c => ret c
  | None => raise (IndexError "string index out of range")
  end.

(** [Model.get_parallel] (lines 497-506): [None] when the network itself
    is returned, the mode flag of the new [nn.DataParallel] module
    otherwise. *)
Definition get_parallel : M State (option bool) :=
  s <- get ;;
  if bool_decide (num_gpus env > 1) then
    if dataset_truthy (dataset (self s)) then
      match dataset (self s) with
      | DatasetObj d =>
          if bool_decide (data_type d ≠ "image") then ret None else ret (Some true)
      | _ => raise (AttributeError "'str' object has no attribute 'data_type'")
      end
    else
      c0 <- char_at (name (self s)) 0 ;;
      if bool_decide (c0 = "g"%char) then
        c2 <- char_at (name (self s)) 2 ;;
        if bool_decide (c2 = "n"%char) then ret None else ret (Some true)
      else ret (Some true)
  else ret None.

(** The arguments of [Model.__init__]; [model_class] builds the network
    for a number of classes, the architecture keywords being part of
    it. *)
Record InitArgs : Type := {
  arg_name : string;
  arg_model_class : option Z → exn + Net;
  arg_dataset : dataset_arg;
  arg_num_classes : option Z;
  arg_loss_weights : loss_weights_arg;
  arg_official : bool;
  arg_pretrain : bool;
  arg_randomized_smooth : bool;
  arg_rs_sigma : Qc;
  arg_rs_n : Z;
  arg_sgm : bool;
  arg_sgm_gamma : Qc;
  arg_suffix : string;
  arg_folder_path : option string
}.

(** Lines 144-153: what the dataset supplies for the arguments left
    open. *)
Definition resolve_dataset (a : InitArgs)
  : exn + (option string * option Z * loss_weights_arg) :=
  if dataset_truthy (arg_dataset a) then
    match arg_dataset a with
    | DatasetObj d =>
        inr (Some (default (data_dir env +:+ data_type d +:+ "/" +:+ dataset_name d +:+ "/model/")
                           (arg_folder_path a)),
             Some (default (dataset_num_classes d) (arg_num_classes a)),
             match arg_loss_weights a with
             | LossWeightsStr "dataset" =>
                 match dataset_loss_weights d with
                 | Some t => LossWeightsTensor t
                 | None => LossWeightsNone
                 end
             | w => w
             end)
    | DatasetStr s => inl (TypeError s)
    | DatasetNone => inr (arg_folder_path a, arg_num_classes a, arg_loss_weights a)
    end
  else inr (arg_folder_path a, arg_num_classes a, arg_loss_weights a).

(** [Model.__init__] (lines 119-175), run on a file system and a position
    in the stream of draws: the state with the new object, or the
    exception that ended the construction. *)
Definition __init__ (a : InitArgs) (fs0 : FileSystem) (rng0 : nat) : exn + State :=
  let param_list :=
    {[ "abstract" :=
         ["suffix"; "pretrain"; "official"; "randomized_smooth"; "sgm"]
         ++ (if arg_sgm a then ["sgm_gamma"] else [])
         ++ (if arg_randomized_smooth a then ["rs_sigma"; "rs_n"] else []) ]} in
  match resolve_dataset a with
  | inl e => inl e
  | inr (folder_path, num_classes, loss_weights) =>
      match arg_model_class a num_classes with
      | inl e => inl e
      | inr net =>
          let self0 :=
            {| name := arg_name a; dataset := arg_dataset a; suffix := arg_suffix a;
               pretrain := arg_pretrain a; official := arg_official a;
               randomized_smooth := arg_randomized_smooth a;
               rs_sigma := arg_rs_sigma a; rs_n := arg_rs_n a;
               sgm := arg_sgm a; sgm_gamma := arg_sgm_gamma a;
               param_list := param_list;
               num_classes := num_classes; loss_weights := loss_weights;
               folder_path := folder_path;
               criterion := define_criterion loss_weights;
               _model := net; model := None; batch_size := None |} in
          let rest : M State unit :=
            activate_params [] ;;
            parallel <- get_parallel ;;
            modify (set_self (set_model (λ _, parallel))) ;;
            when (arg_official a) (load (Some "official") None None true) ;;
            when (arg_pretrain a) (load None None None true) ;;
            when (negb (bool_decide (num_gpus env = 0))) cuda ;;
            eval in
          match rest {| self := self0; fs := fs0; rng := rng0 |} with
          | (inr _, s) => inr s
          | (inl e, _) => inl e
          end
      end
  end.

(** ** Training and validation *)

(** Modelled from the spec: [AverageMeter] of [trojanzoo.utils.model],
    which is not among the sources; the specification has it hold a
    "(sum, count) pair per named metric; reset per epoch; average =
    sum/count". The average of an empty meter is 0, as [Q] has it. *)
Record AverageMeter : Type := mkMeter {
  meter_sum : Q;
  meter_count : Z
}.

Definition meter_reset : AverageMeter := {| meter_sum := 0; meter_count := 0 |}.

Definition meter_update (val : Q) (n : Z) (m : AverageMeter) : AverageMeter :=
  {| meter_sum := (meter_sum m + val * inject_Z n)%Q; meter_count := meter_count m + n |}.

Definition meter_avg (m : AverageMeter) : Q := (meter_sum m / inject_Z (meter_count m))%Q.

(** [for x in l: acc = body acc x]. *)
Fixpoint foldM {S A B} (body : B → A → M S B) (l : list A) (acc : B) : M S B :=
  match l with
  | [] => ret acc
  | x :: l' => acc' <- body acc x ;; foldM body l' acc'
  end.

(** What is left open of the collaborators: the batches, the loaders and
    the batch unpacking of a dataset object, the unpacking of a batch that
    is a pair already, the backward pass with the optimizer step (scaled
    when [amp] is set), and the steps of the optimizer's [zero_grad] and of
    the learning-rate schedule. *)
Context (Batch : Type).
Context (dataset_loader : Dataset → string → exn + list Batch).
Context (dataset_get_data : Dataset → Batch → string → M State (Tensor * list Z)).
Context (unpack : Batch → exn + (Tensor * list Z)).
Context (backward_step : bool → Q → M State unit).
Context (optimizer_zero_grad : M State unit).
Context (lr_scheduler_step : M State unit).

(** The callables [_train] and [_validate] take. *)
Definition get_data_fn : Type := Batch → string → M State (Tensor * list Z).
Definition loss_fn_t : Type := Tensor → list Z → bool → M State Q.
Definition validate_fn : Type :=
  option (list Batch) → get_data_fn → loss_fn_t → M State (Q * Q * Q).
Definition save_fn_t : Type :=
  option string → option string → option string → M State unit.

(** [self.dataset.loader[key]]. *)
Definition self_dataset_loader (key : string) : M State (list Batch) :=
  s <- get ;;
  match dataset (self s) with
  | DatasetObj d => lift (dataset_loader d key)
  | DatasetNone => raise (AttributeError "'NoneType' object has no attribute 'loader'")
  | DatasetStr _ => raise (AttributeError "'str' object has no attribute 'loader'")
  end.

(** [Model.get_data] (lines 453-457). *)
Definition get_data (data : Batch) (mode : string) : M State (Tensor * list Z) :=
  s <- get ;;
  if dataset_truthy (dataset (self s)) then
    match dataset (self s) with
    | DatasetObj d => dataset_get_data d data mode
    | _ => raise (AttributeError "'str' object has no attribute 'get_data'")
    end
  else lift (unpack data).

(** [acc1, acc5 = self.accuracy(_output, _label, topk=(1, 5))]. *)
Definition accuracy_1_5 (_output : Tensor2 Qc) (_label : list Z) : M State (Q * Q) :=
  res <- accuracy _output _label [1; 5] ;;
  match res with
  | [acc1; acc5] => ret (acc1, acc5)
  | _ => raise (ValueError "not enough values to unpack")
  end.

(** The three meters of a loop. *)
Record Meters : Type := mkMeters {
  losses : AverageMeter;
  top1 : AverageMeter;
  top5 : AverageMeter
}.

Definition meters_reset : Meters :=
  {| losses := meter_reset; top1 := meter_reset; top5 := meter_reset |}.

Definition meters_update (loss acc1 acc5 : Q) (n : Z) (m : Meters) : Meters :=
  {| losses := meter_update loss n (losses m);
     top1 := meter_update acc1 n (top1 m);
     top5 := meter_update acc5 n (top5 m) |}.

(** [Model._validate] (lines 411-449). *)
Definition _validate (full : bool) (loader : option (list Batch))
    (get_data_arg : option get_data_fn) (loss_fn_arg : option loss_fn_t)
  : M State (Q * Q * Q) :=
  eval ;;
  loader <- match loader with
            | Some l => ret l
            | None => self_dataset_loader (if full then "valid" else "valid2")
            end ;;
  let get_data := default get_data get_data_arg in
  let loss_fn := default loss loss_fn_arg in
  meters <- foldM (λ meters data,
              il <- get_data data "valid" ;;
              loss <- loss_fn il.1 il.2 false ;;
              _output <- get_logits il.1 None None None ;;
              let batch_size := Z.of_nat (length il.2) in
              acc <- accuracy_1_5 _output il.2 ;;
              ret (meters_update loss acc.1 acc.2 batch_size meters))
            loader meters_reset ;;
  ret (meter_avg (losses meters), meter_avg (top1 meters), meter_avg (top5 meters)).

(** The arguments of [Model._train]; [optimizer] is given by the names of
    the parameters in its groups, [lr_scheduler] by whether there is one. *)
Record TrainArgs : Type := {
  epoch : Z;
  optimizer : list (list string);
  lr_scheduler : bool;
  validate_interval : Z;
  save_arg : bool;
  amp : bool;
  loader_train : option (list Batch);
  loader_valid : option (list Batch);
  get_data_arg : option get_data_fn;
  loss_fn_arg : option loss_fn_t;
  validate_func : option validate_fn;
  epoch_func : option (M State unit);
  save_fn : option save_fn_t;
  file_path_arg : option string;
  folder_path_arg : option string;
  suffix_arg : option string
}.

(** What [_train] did, for the statements about it: the validation after
    an epoch with the accuracy it found and the best accuracy before it,
    and the call of [save_fn] after an epoch. The code keeps no such
    record. *)
Inductive Event : Type :=
| Validated (_epoch : Z) (cur_acc best_acc : Q)
| Saved (_epoch : Z).

(** The local variables of [_train] that live across epochs. *)
Record Locals : Type := mkLocals {
  best_acc : Q;
  meters : Meters;
  trace : list Event
}.

(** [cur_acc >= best_acc] on the floats. *)
Definition Q_geb (x y : Q) : bool := Qle_bool y x.

(** The body of the batch loop (lines 358-378). *)
Definition train_batch (a : TrainArgs) (get_data : get_data_fn) (loss_fn : loss_fn_t)
    (meters : Meters) (data : Batch) : M State Meters :=
  il <- get_data data "train" ;;
  loss <- (if amp a then
             loss <- loss_fn il.1 il.2 true ;;
             backward_step true loss ;;
             ret loss
           else
             loss <- loss_fn il.1 il.2 false ;;
             backward_step false loss ;;
             ret loss) ;;
  optimizer_zero_grad ;;
  _output <- get_logits il.1 None None None ;;
  acc <- accuracy_1_5 _output il.2 ;;
  let batch_size := Z.of_nat (length il.2) in
  ret (meters_update loss acc.1 acc.2 batch_size meters).

(** Lines 397-408: the validation after epoch [_epoch] and what follows
    from it. *)
Definition validate_and_save (a : TrainArgs) (get_data : get_data_fn) (loss_fn : loss_fn_t)
    (validate_func : validate_fn) (save_fn : save_fn_t) (_epoch : Z) (loc : Locals)
  : M State Locals :=
  if negb (bool_decide (validate_interval a = 0)) then
    if bool_decide ((_epoch + 1) `mod` validate_interval a = 0 ∨ _epoch = epoch a - 1) then
      r <- validate_func (loader_valid a) get_data loss_fn ;;
      let cur_acc := r.1.2 in
      let loc := {| best_acc := best_acc loc; meters := meters loc;
                    trace := trace loc ++ [Validated _epoch cur_acc (best_acc loc)] |} in
      if Q_geb cur_acc (best_acc loc) then
        let loc := {| best_acc := cur_acc; meters := meters loc; trace := trace loc |} in
        if save_arg a then
          save_fn (file_path_arg a) (folder_path_arg a) (suffix_arg a) ;;
          ret {| best_acc := best_acc loc; meters := meters loc;
                 trace := trace loc ++ [Saved _epoch] |}
        else ret loc
      else ret loc
    else ret loc
  else ret loc.

(** One turn of the loop over the epochs (lines 344-408). *)
Definition train_epoch (a : TrainArgs) (loader : list Batch) (get_data : get_data_fn)
    (loss_fn : loss_fn_t) (validate_func : validate_fn) (save_fn : save_fn_t)
    (loc : Locals) (_epoch : Z) : M State Locals :=
  match epoch_func a with
  | Some f => activate_params [] ;; f ;; activate_params (optimizer a)
  | None => ret tt
  end ;;
  train true ;;
  activate_params (optimizer a) ;;
  optimizer_zero_grad ;;
  meters <- foldM (train_batch a get_data loss_fn) loader meters_reset ;;
  eval ;;
  activate_params [] ;;
  when (lr_scheduler a) lr_scheduler_step ;;
  validate_and_save a get_data loss_fn validate_func save_fn _epoch
    {| best_acc := best_acc loc; meters := meters; trace := trace loc |}.

(** [Model._train] (lines 319-409). It returns nothing; the embedding
    returns the record of what it did. *)
Definition _train (a : TrainArgs) : M State (list Event) :=
  loader_train <- match loader_train a with
                  | Some l => ret l
                  | None => self_dataset_loader "train"
                  end ;;
  let get_data := default get_data (get_data_arg a) in
  let loss_fn := default loss (loss_fn_arg a) in
  let validate_func :=
    default (λ loader gd lf, _validate true loader (Some gd) (Some lf)) (validate_func a) in
  let save_fn := default (λ fp fo su, save fp fo su true) (save_fn a) in
  r <- validate_func (loader_valid a) get_data loss_fn ;;
  let best_acc := r.1.2 in
  loc <- foldM (train_epoch a loader_train get_data loss_fn validate_func save_fn)
               (range (epoch a))
               {| best_acc := best_acc; meters := meters_reset; trace := [] |} ;;
  zero_grad ;;
  ret (trace loc).

End Methods.

(** ** Auxiliary definitions for the proofs *)

(** Row [i] of the transposed ranking: for every example the class ranked
    [i]-th by its scores. *)
Definition rank_row (out : Tensor2 Qc) (i : nat) : list Z :=
  (λ r, (Z.of_nat <$> argsort_desc r) !!! i) <$> rows out.

(** Row [i] of [correct]: whether the class ranked [i]-th is the label. *)
Definition correct_row (out : Tensor2 Qc) (labels : list Z) (i : nat) : list bool :=
  zip_with (λ p l, bool_decide (p = l)) (rank_row out i) labels.

(** The scores of a row are in descending order along a list of indices. *)
Definition desc (row : list Qc) (i j : nat) : Prop := (row !!! j <= row !!! i)%Qc.

(** The highest score of a row is reached by one class only: the two
    highest scores differ. *)
Definition top_scores_differ (row : list Qc) : Prop :=
  ∀ j, (j < length row)%nat → j ≠ argmax row → (row !!! j < row !!! argmax row)%Qc.

(** [t] is a class of the row other than the arg-max whose score is at
    least that of every other class but the arg-max: the class with the
    second-highest score. *)
Definition runner_up (row : list Qc) (t : Z) : Prop :=
  ∃ i, t = Z.of_nat i ∧ (i < length row)%nat ∧ i ≠ argmax row ∧
       ∀ j, (j < length row)%nat → j ≠ argmax row → (row !!! j <= row !!! i)%Qc.

(** What one entry of the result of [accuracy] is, for the table
    [correct] of the call, which has [n] columns. *)
Definition accuracy_entry (percent : Z → Z → Q) (num_classes batch_size : Z) (n : nat)
    (correct : list (list bool)) (k : Z) (r : Q) : Prop :=
  if bool_decide (k > num_classes) then r = (100 # 1)%Q
  else ¬ (2 ≤ length (slice_to k correct) ∧ 2 ≤ n)%nat ∧ batch_size ≠ 0 ∧
       r = percent (count_true (slice_to k correct)) batch_size.

(** The rounding of the product does not turn the order of two counts
    round. *)
Definition monotone_percent (percent : Z → Z → Q) : Prop :=
  ∀ a b n, a ≤ b → 0 < n → (percent a n <= percent b n)%Q.

(** The network of the wrapper [m] is deterministic: a call of it, in the
    mode it is in, draws nothing and gives what the forward pass gives. In
    evaluation mode no layer draws. *)
Definition deterministic (forward : Net → Tensor → exn + Tensor2 Qc)
    (forward_train : Net → Tensor → nat → (exn + Tensor2 Qc) * nat) (m : Model) : Prop :=
  training (_model m) = false ∨
  ∀ x r, forward_train (_model m) x r = (forward (_model m) x, r).

(** A string has a dot in it. *)
Definition has_dot (s : string) : Prop := ∃ n, String.get n s = Some "."%char.

(** The checkpoint path as the specification words it:
    [{folder_path}/{name}{suffix}.pth], the folder joined to the file name
    with a separator. *)
Definition spec_path (folder_path name suffix : string) : string :=
  folder_path +:+ "/" +:+ name +:+ suffix +:+ ".pth".

(** The folder the path is derived from when no [file_path] is given: the
    argument, or else the attribute. *)
Definition effective_folder (folder_path_arg : option string) (m : Model) : option string :=
  match folder_path_arg with Some f => Some f | None => folder_path m end.

(** Two parameter sets of one architecture: the same names, the same
    shapes, any values. *)
Definition same_shapes (ps1 ps2 : gmap string Param) : Prop :=
  ∀ k, (shape ∘ data) <$> ps1 !! k = (shape ∘ data) <$> ps2 !! k.

(** The state after the parameters of the network have been replaced by
    [ps]. *)
Definition perturb (ps : gmap string Param) (st : State) : State :=
  set_self (set_net (set_parameters (λ _, ps))) st.

(** The flags [activate_params] leaves. *)
Definition activate (active_param : list (list string)) (ps : gmap string Param)
  : gmap string Param :=
  foldl (foldl (λ ps k, alter (set_requires_grad true) k ps))
        (set_requires_grad false <$> ps) active_param.

(** Gradients are off and the network is in evaluation mode: no parameter
    of the network has [requires_grad] set, and neither the network nor the
    data-parallel module around it is in training mode. *)
Definition quiescent (m : Model) : Prop :=
  training (_model m) = false ∧ model m ≠ Some true ∧
  map_Forall (λ _ p, requires_grad p = false) (parameters (_model m)).

(** A computation keeps a property of the state, whenever it returns. *)
Definition preserves {A} (I : State → Prop) (m : M State A) : Prop :=
  ∀ s r s', m s = (inr r, s') → I s → I s'.

(** A computation leaves the object as it is, however it ends. *)
Definition keeps_self {A} (m : M State A) : Prop :=
  ∀ s r s', m s = (r, s') → self s' = self s.

(** ** The record of a training run, as the specification words it *)

(** Epoch [_epoch] (counted from 0) of [epoch] is followed by a
    validation: validation is not disabled, and the epoch is a
    [validate_interval]-th one or the last. *)
Definition scheduled (validate_interval epoch _epoch : Z) : Prop :=
  validate_interval ≠ 0 ∧
  ((_epoch + 1) `mod` validate_interval = 0 ∨ _epoch = epoch - 1).

Global Instance scheduled_dec vi ep e : Decision (scheduled vi ep e).
Proof. unfold scheduled. apply _. Defined.

(** The best accuracy after a validation that found [cur]. *)
Definition new_best (cur best : Q) : Q := if Q_geb cur best then cur else best.

(** What a validation point leaves in the record: the validation, and the
    save when the accuracy is at least the best and saving is asked for. *)
Definition point_events (save : bool) (_epoch : Z) (cur best : Q) : list Event :=
  Validated _epoch cur best :: (if Q_geb cur best && save then [Saved _epoch] else []).
Global Arguments point_events : simpl never.


Global Instance Q_eq_dec : EqDecision Q.
Proof. solve_decision. Defined.

Global Instance Event_eq_dec : EqDecision Event.
Proof. solve_decision. Defined.








End Wrapper.

(* ===================================================================== *)
(** * Concrete objects for the examples *)
(* ===================================================================== *)

Module Examples.
Import Py Torch Wrapper.

Definition qc (z : Z) : Qc := Q2Qc (inject_Z z).

(** A wrapper of three classes, as [Model(num_classes=3, loss_weights=None)]
    leaves it, over a network of two parameters. *)
Definition example_net : Net :=
  {| parameters :=
       {[ "classifier.fc.weight" := mkParam (mkTensor [3; 2]%nat (qc <$> [1; 0; 0; 1; 1; 1]))
           false None;
          "classifier.fc.bias" := mkParam (mkTensor [3]%nat (qc <$> [0; 0; 0])) false None ]};
     training := false |}.

Definition example_model : Model :=
  {| name := "model"; dataset := DatasetNone; suffix := "";
     pretrain := false; official := false;
     randomized_smooth := false; rs_sigma := Q2Qc (1 # 100); rs_n := 100;
     sgm := false; sgm_gamma := qc 1;
     param_list := {[ "abstract" := ["suffix"; "pretrain"; "official"; "randomized_smooth"; "sgm"]
         ]};
     num_classes := Some 3; loss_weights := LossWeightsNone;
     folder_path := None; criterion := None;
     _model := example_net; model := None; batch_size := None |}.

Definition empty_fs : FileSystem := {| files := ∅; dirs := ∅ |}.

Definition example_state : State :=
  {| self := example_model; fs := empty_fs; rng := 0 |}.

(** Logits of four examples over three classes, and their labels. *)
Definition example_logits : Tensor2 Qc :=
  {| dim1 := 3;
     rows := [ qc <$> [1; 2; 3]; qc <$> [5; 1; 0]; qc <$> [0; 9; 8]; qc <$> [2; 2; 1] ] |}.

Definition example_labels : list Z := [2; 1; 2; 0].

(** The environment without a GPU, and the constructor called as
    [Model(model_class=...)], every other argument at its default. *)
Definition example_env : Env := {| data_dir := "./data/"; num_gpus := 0 |}.

Definition default_args : InitArgs :=
  {| arg_name := "model"; arg_model_class := λ _, inr example_net;
     arg_dataset := DatasetNone; arg_num_classes := None;
     arg_loss_weights := LossWeightsStr "dataset";
     arg_official := false; arg_pretrain := false;
     arg_randomized_smooth := false; arg_rs_sigma := Q2Qc (1 # 100); arg_rs_n := 100;
     arg_sgm := false; arg_sgm_gamma := qc 1;
     arg_suffix := ""; arg_folder_path := None |}.

(** A network that answers every input with [example_logits], a batch of
    four images, and a stream of draws. *)
Definition example_forward (net : Net) (_input : Tensor) : exn + Tensor2 Qc :=
  inr example_logits.

(** The example network has no layer that draws, and on the batches of
    the examples, of one and of four, single precision gives the product
    [correct_k * (100 / batch_size)] without rounding. *)
Definition example_forward_train (net : Net) (_input : Tensor) (r : nat)
  : (exn + Tensor2 Qc) * nat :=
  (example_forward net _input, r).

Definition example_percent (correct_k batch_size : Z) : Q :=
  (inject_Z correct_k * ((100 # 1) / inject_Z batch_size))%Q.

(** A network whose logits are its input, as one row. *)
Definition echo_forward (net : Net) (_input : Tensor) : exn + Tensor2 Qc :=
  inr {| dim1 := length (entries _input); rows := [entries _input] |}.

Definition example_input : Tensor :=
  {| shape := [4; 1; 1; 2]%nat; entries := qc <$> [1; 0; 0; 1; 1; 1; 0; 0] |}.

Definition example_randn (i : nat) : Qc := Q2Qc (Z.of_nat i # 7).

(** A training run of two epochs on one batch, validated after every
    epoch and saved on request, with collaborators that leave the
    parameters alone: the accuracy stays where it is. *)
Definition example_batch : Tensor * list Z := (example_input, example_labels).

Definition example_train_args : TrainArgs (Tensor * list Z) :=
  {| epoch := 2;
     optimizer := [["classifier.fc.weight"; "classifier.fc.bias"]];
     lr_scheduler := true; validate_interval := 1; save_arg := true; amp := false;
     loader_train := Some [example_batch]; loader_valid := Some [example_batch];
     get_data_arg := None; loss_fn_arg := None; validate_func := None;
     epoch_func := None; save_fn := None;
     file_path_arg := Some "/tmp/ckpt/model.pth"; folder_path_arg := None;
     suffix_arg := None |}.

Definition example_train (a : TrainArgs (Tensor * list Z)) : M State (list Event) :=
  _train example_forward example_forward_train example_randn (λ _ _ _, inr 0%Q)
    example_percent (Tensor * list Z)
    (λ _ _, inr []) (λ _ data _, ret data) inr (λ _ _, ret tt) (ret tt) (ret tt) a.

(** What the example run leaves in the record: top-1 accuracy 50 (as
    [800 # 16]) before the first epoch and after either epoch. *)
Definition example_trace : list Event :=
  [ Validated 0 (800 # 16) (800 # 16); Saved 0;
    Validated 1 (800 # 16) (800 # 16); Saved 1 ].

(** The state after the example model has been saved to
    [/tmp/ckpt/model.pth]. *)
Definition saved_state : State :=
  (save (Some "/tmp/ckpt/model.pth") None None true example_state).2.

(** The example wrapper with gradient tracking on for both parameters,
    and a call of [_train] for no epoch at all. *)
Definition trainable_state : State :=
  set_self (set_net (set_parameters (fmap (set_requires_grad true)))) example_state.

Definition no_epoch_args : TrainArgs (Tensor * list Z) :=
  {| epoch := 0;
     optimizer := [["classifier.fc.weight"; "classifier.fc.bias"]];
     lr_scheduler := true; validate_interval := 1; save_arg := true; amp := false;
     loader_train := Some [example_batch]; loader_valid := Some [example_batch];
     get_data_arg := None; loss_fn_arg := None; validate_func := None;
     epoch_func := None; save_fn := None;
     file_path_arg := Some "/tmp/ckpt/model.pth"; folder_path_arg := None;
     suffix_arg := None |}.

(** A validation function of the caller's that leaves the network in
    training mode, and a call of [_train] for one epoch with it. *)
Definition training_validate : validate_fn (Tensor * list Z) :=
  λ _ _ _, bind (train true) (λ _, ret (0%Q, 0%Q, 0%Q)).

Definition own_validate_args : TrainArgs (Tensor * list Z) :=
  {| epoch := 1;
     optimizer := [["classifier.fc.weight"; "classifier.fc.bias"]];
     lr_scheduler := true; validate_interval := 1; save_arg := false; amp := false;
     loader_train := Some [example_batch]; loader_valid := Some [example_batch];
     get_data_arg := None; loss_fn_arg := None; validate_func := Some training_validate;
     epoch_func := None; save_fn := None;
     file_path_arg := None; folder_path_arg := None; suffix_arg := None |}.

(** Logits of four examples over three classes without equal scores in
    a row: with [example_labels], the first example alone is right. *)
Definition distinct_logits : Tensor2 Qc :=
  {| dim1 := 3;
     rows := [ qc <$> [1; 2; 3]; qc <$> [5; 1; 0]; qc <$> [0; 9; 8]; qc <$> [2; 4; 1] ] |}.



End Examples.

(* ===================================================================== *)
(** * More of the raw network and of the wrapper *)
(* ===================================================================== *)

(** ** The forward pass of the raw network *)

Module RawForward.
Import RawNetwork.

(** [_Model.define_features] (lines 62-63): the base class has no feature
    extractor. *)
Definition define_features (self : _Model) (conv_depth_arg conv_dim_arg : option Z) : module :=
  Identity.

(** A constructed [_Model]: the attributes stored from the arguments and
    the two submodules built from them; [pool] and [flatten] have no
    argument to keep. *)
Record Network : Type := {
  attrs : _Model;
  features : module;
  classifier : module
}.

(** [_Model.__init__] (lines 27-40): no network is built when
    [define_classifier] raises. *)
Definition __init__ (args : _Model) : Py.exn + Network :=
  let features := define_features args None None in
  match define_classifier args None None None None with
  | inl e => inl e
  | inr classifier => inr {| attrs := args; features := features; classifier := classifier |}
  end.

Section Forward.
(** The numeric action of a layer, of the pooling and of the flattening
    are left open. *)
Context {T : Type} (apply_layer : layer → T → T) (pool flatten : T → T).

(** [_Model.get_fm] (lines 53-54). *)
Definition get_fm (self : Network) (x : T) : T :=
  forward apply_layer (features self) x.

(** [_Model.get_final_fm] (lines 56-60). *)
Definition get_final_fm (self : Network) (x : T) : T :=
  let x := get_fm self x in
  let x := pool x in
  let x := flatten x in
  x.

(** [_Model.forward] (lines 44-49). *)
Definition model_forward (self : Network) (x : T) : T :=
  let x := get_final_fm self x in
  let x := forward apply_layer (classifier self) x in
  x.

End Forward.

End RawForward.

(** ** Parameter groups, optimizers, filtering, state dictionaries *)

Module WrapperMore.
Import Py Torch Wrapper.
Local Open Scope py_scope.

(** The names of the parameters below the submodule [pre]. *)
Definition names_below (pre : string) (ps : gmap string Param) : list string :=
  filter (λ k, is_Some (strip_prefix pre k)) (map_to_list ps).*1.

(** [Model.get_params] (lines 479-488): the parameters by their names. *)
Definition get_params (name : string) : M State (list string) :=
  s <- get ;;
  let ps := parameters (_model (self s)) in
  if bool_decide (name = "full") then ret (map_to_list ps).*1
  else if bool_decide (name = "features") then ret (names_below "features." ps)
  else if bool_decide (name ∈ ["classifier"; "partial"]) then ret (names_below "classifier." ps)
  else raise (NotImplementedError name).

(** [Model.cpu] (lines 563-566): as for [cuda], nothing that is modelled
    changes. *)
Definition cpu : M State unit := ret tt.

(** [Model.state_dict] (lines 576-577), with the default arguments. *)
Definition Model_state_dict : M State (gmap string Tensor) :=
  s <- get ;; ret (state_dict "" (_model (self s))).

(** A parameter for which [sd] has a tensor has the shape of that
    tensor. *)
Definition shape_ok (sd : gmap string Tensor) (k : string) (p : Param) : bool :=
  match sd !! k with
  | Some t => bool_decide (shape t = shape (data p))
  | None => true
  end.

(** [Model.load_state_dict] (lines 579-580): with [strict=False] missing
    and unexpected keys are let through, a tensor of another shape is
    not. What is returned, the keys that did not match, is left out. *)
Definition Model_load_state_dict (sd : gmap string Tensor) (strict : bool) : M State unit :=
  if strict then load_state_dict "" sd
  else
    s <- get ;;
    let ps := parameters (_model (self s)) in
    modify (set_self (set_net (set_parameters (load_params "" sd)))) ;;
    if bool_decide (map_Forall (λ k p, shape_ok sd k p = true) ps) then ret tt
    else raise (RuntimeError "Error(s) in loading state_dict").

(** *** [define_optimizer] *)

(** The [parameters] argument: a group name, an iterable of parameters, or
    something that is neither. *)
Inductive parameters_arg : Type :=
| ParametersStr (name : string)
| ParametersIter (params : list string)
| ParametersOther (type_name : string).

(** The [optim_type] argument: [None], the name of an optimizer, or an
    optimizer class. *)
Inductive optim_type_arg : Type :=
| OptimNone
| OptimStr (name : string)
| OptimClass (class : string).

(** The value of a keyword argument of an optimizer. *)
Inductive kwarg : Type :=
| KwFloat (q : Q)
| KwBool (b : bool).

(** An optimizer by what it was built from, and a step-decay schedule. *)
Record Optimizer : Type := mkOptimizer {
  optim_class : string;
  optim_params : list string;
  optim_lr : Q;
  optim_kwargs : gmap string kwarg
}.

Record StepLR : Type := mkStepLR {
  step_size : Z;
  gamma : Q
}.

Section Optimizer.
(** [getattr(torch.optim, name)], as the name of the class found, and the
    constructor of the optimizer classes, which may reject its
    arguments. *)
Context (optim_getattr : string → exn + string).
Context (optim_construct : string → list string → Q → gmap string kwarg → exn + Optimizer).

(** The keyword arguments [define_optimizer] gives SGD when it is given
    none. *)
Definition sgd_defaults : gmap string kwarg :=
  {[ "momentum" := KwFloat (9 # 10); "weight_decay" := KwFloat (2 # 10000);
     "nesterov" := KwBool true ]}.

(** [Model.define_optimizer] (lines 223-246). What [get_params] returns
    is iterable, so that the [TypeError] is for a [parameters] that is
    neither a string nor iterable. *)
Definition define_optimizer (lr : Q) (parameters : parameters_arg)
    (optim_type : optim_type_arg) (lr_scheduler : bool) (step_size : Z)
    (kwargs : gmap string kwarg) : M State (Optimizer * option StepLR) :=
  parameters <- match parameters with
                | ParametersStr name => get_params name
                | ParametersIter ps => ret ps
                | ParametersOther t => raise (TypeError t)
                end ;;
  OptimType <- match optim_type with
               | OptimStr name => lift (optim_getattr name)
               | _ => ret "SGD"
               end ;;
  let kwargs :=
    if bool_decide (kwargs = ∅) then
      if bool_decide (OptimType = "SGD") then sgd_defaults
      else kwargs
    else kwargs in
  optimizer <- lift (optim_construct OptimType parameters lr kwargs) ;;
  let _lr_scheduler :=
    if lr_scheduler then Some {| step_size := step_size; gamma := 1 # 10 |} else None in
  ret (optimizer, _lr_scheduler).

End Optimizer.

(** *** [remove_misclassify] *)

(** [l] cut into [n] pieces of [k] elements. *)
Fixpoint chunks {A} (k : nat) (n : nat) (l : list A) : list (list A) :=
  match n with
  | O => []
  | S n' => take k l :: chunks k n' (drop k l)
  end.

(** The elements of [l] where [mask] is set. *)
Definition select {A} (mask : list bool) (l : list A) : list A :=
  (filter (λ bx, bx.1 = true) (zip mask l)).*2.

(** [a.eq(b)] on one-dimensional tensors: entry by entry, a tensor of one
    entry being compared with every entry of the other. *)
Definition eq_broadcast (a b : list Z) : exn + list bool :=
  if bool_decide (length a = length b) then inr (zip_with (λ x y, bool_decide (x = y)) a b)
  else match a, b with
       | [x], _ => inr ((λ y, bool_decide (x = y)) <$> b)
       | _, [y] => inr ((λ x, bool_decide (x = y)) <$> a)
       | _, _ => inl (RuntimeError "The size of tensor a must match the size of tensor b")
       end.

(** [l[mask]] on a one-dimensional tensor. *)
Definition mask_list {A} (mask : list bool) (l : list A) : exn + list A :=
  if bool_decide (length mask = length l) then inr (select mask l)
  else inl (IndexError "The shape of the mask does not match the shape of the indexed tensor").

(** [t[mask]]: the examples of a batch where [mask] is set. *)
Definition mask_tensor (mask : list bool) (t : Tensor) : exn + Tensor :=
  match shape t with
  | n :: sh =>
      if bool_decide (length mask = n) then
        let kept := select mask (chunks (foldr Nat.mul 1%nat sh) n (entries t)) in
        inr {| shape := length kept :: sh; entries := concat kept |}
      else inl (IndexError "The shape of the mask does not match the shape of the indexed tensor")
  | [] => inl (IndexError "too many indices for tensor of dimension 0")
  end.

Section Filter.
Context (forward : Net → Tensor → exn + Tensor2 Qc).
Context (forward_train : Net → Tensor → nat → (exn + Tensor2 Qc) * nat).
Context (randn : nat → Qc).
Context (Batch : Type).
Context (dataset_get_data : Dataset → Batch → string → M State (Tensor * list Z)).
Context (unpack : Batch → exn + (Tensor * list Z)).

(** [Model.remove_misclassify] (lines 605-610); [mode] stands for the
    keyword arguments handed on to [get_data]. *)
Definition remove_misclassify (data : Batch) (mode : string) : M State (Tensor * list Z) :=
  il <- get_data Batch dataset_get_data unpack data mode ;;
  _classification <- get_class forward forward_train randn il.1 ;;
  repeat_idx <- lift (eq_broadcast _classification il.2) ;;
  _input <- lift (mask_tensor repeat_idx il.1) ;;
  _label <- lift (mask_list repeat_idx il.2) ;;
  ret (_input, _label).

End Filter.

(** ** Auxiliary definitions for the proofs *)

(** A tensor has as many entries as its shape says. *)
Definition well_shaped (t : Tensor) : Prop :=
  length (entries t) = foldr Nat.mul 1%nat (shape t).

(** At how many of the first [m] ranks of a row of scores the class
    [label] stands. *)
Definition hits (row : list Qc) (label : Z) (m : nat) : nat :=
  length (filter (λ i, bool_decide ((Z.of_nat <$> argsort_desc row) !!! i = label) = true)
                 (seq 0 m)).

(** Every parameter of the network is below [features] or below
    [classifier], as in a [_Model], whose pooling and flattening have no
    parameter. *)
Definition two_parts (ps : gmap string Param) : Prop :=
  ∀ k, is_Some (ps !! k) →
       is_Some (strip_prefix "features." k) ∨ is_Some (strip_prefix "classifier." k).

(** The wrapper but for its network. *)
Definition same_attributes (m1 m2 : Model) : Prop :=
  set_net (λ _, _model m2) m1 = m2.

End WrapperMore.

(* ===================================================================== *)
(** * More concrete objects for the examples *)
(* ===================================================================== *)

Module MoreExamples.
Import Py Torch Wrapper WrapperMore Examples.

(** An environment with two GPUs, and a wrapper named ["gn"]. *)
Definition two_gpus : Env := {| data_dir := "./data/"; num_gpus := 2 |}.

Definition short_name_state : State :=
  {| self :=
       {| name := "gn"; dataset := DatasetNone; suffix := "";
          pretrain := false; official := false;
          randomized_smooth := false; rs_sigma := Q2Qc (1 # 100); rs_n := 100;
          sgm := false; sgm_gamma := qc 1;
          param_list := ∅;
          num_classes := Some 3; loss_weights := LossWeightsNone;
          folder_path := None; criterion := None;
          _model := example_net; model := None; batch_size := None |};
     fs := empty_fs; rng := 0 |}.

(** A dataset object, and calls of the constructor: with
    [official=True], with [pretrain=True] and a folder, and with a dataset
    object. *)
Definition example_dataset : Dataset :=
  {| data_type := "image"; dataset_name := "cifar10"; dataset_num_classes := 10;
     dataset_loss_weights := None |}.

Definition init_args (d : dataset_arg) (official pretrain : bool)
    (suffix : string) (folder : option string) : InitArgs :=
  {| arg_name := "model"; arg_model_class := λ _, inr example_net;
     arg_dataset := d; arg_num_classes := None;
     arg_loss_weights := LossWeightsStr "dataset";
     arg_official := official; arg_pretrain := pretrain;
     arg_randomized_smooth := false; arg_rs_sigma := Q2Qc (1 # 100); arg_rs_n := 100;
     arg_sgm := false; arg_sgm_gamma := qc 1;
     arg_suffix := suffix; arg_folder_path := folder |}.

Definition official_args : InitArgs := init_args DatasetNone true true "" None.
Definition pretrain_args : InitArgs :=
  init_args DatasetNone false true "_adv" (Some "/tmp/ckpt/").
Definition dataset_args : InitArgs := init_args (DatasetObj example_dataset) false false "" None.

(** A network with a feature extractor, its classifier saved alone, and
    other values for its parameters. *)
Definition two_part_net : Net :=
  {| parameters :=
       {[ "features.conv.weight" := mkParam (mkTensor [2]%nat (qc <$> [1; 2])) false None;
          "classifier.fc.weight" := mkParam (mkTensor [3; 2]%nat (qc <$> [1; 0; 0; 1; 1; 1]))
              false None;
          "classifier.fc.bias" := mkParam (mkTensor [3]%nat (qc <$> [0; 0; 0])) false None ]};
     training := false |}.

Definition two_part_state : State := set_self (set_net (λ _, two_part_net)) example_state.

Definition classifier_saved_state : State :=
  (save (Some "/tmp/ckpt/classifier.pth") None None false two_part_state).2.

Definition other_params : gmap string Param :=
  {[ "features.conv.weight" := mkParam (mkTensor [2]%nat (qc <$> [7; 7])) true None;
     "classifier.fc.weight" := mkParam (mkTensor [3; 2]%nat (qc <$> [7; 7; 7; 7; 7; 7])) true None;
     "classifier.fc.bias" := mkParam (mkTensor [3]%nat (qc <$> [7; 7; 7])) true None ]}.

(** A single image of three dimensions. *)
Definition single_example : Tensor :=
  {| shape := [1; 1; 2]%nat; entries := qc <$> [1; 0] |}.

(** Calls of [_train]: without a training loader, and with a callback run
    at the start of every epoch. *)
Definition train_args (epoch : Z) (loader_train : option (list (Tensor * list Z)))
    (epoch_func : option (M State unit)) : TrainArgs (Tensor * list Z) :=
  {| epoch := epoch;
     optimizer := [["classifier.fc.weight"; "classifier.fc.bias"]];
     lr_scheduler := true; validate_interval := 1; save_arg := true; amp := false;
     loader_train := loader_train; loader_valid := Some [example_batch];
     get_data_arg := None; loss_fn_arg := None; validate_func := None;
     epoch_func := epoch_func; save_fn := None;
     file_path_arg := Some "/tmp/ckpt/model.pth"; folder_path_arg := None;
     suffix_arg := None |}.

Definition no_loader_args : TrainArgs (Tensor * list Z) := train_args 2 None None.
Definition epoch_func_args : TrainArgs (Tensor * list Z) :=
  train_args 2 (Some [example_batch]) (Some (ret tt)).

(** What a run returned, [d] if it raised. *)
Definition returned {A} (d : A) (run : (exn + A) * State) : A :=
  match run.1 with inr x => x | inl _ => d end.

(** The optimizers of [torch.optim] as far as the examples go, built
    without a check of their arguments. *)
Definition example_getattr (name : string) : exn + string :=
  if bool_decide (name ∈ ["SGD"; "Adam"]) then inr name
  else inl (AttributeError ("module 'torch.optim' has no attribute '" +:+ name +:+ "'")).

Definition example_construct (class : string) (params : list string) (lr : Q)
    (kwargs : gmap string kwarg) : exn + Optimizer :=
  inr {| optim_class := class; optim_params := params; optim_lr := lr;
         optim_kwargs := kwargs |}.

End MoreExamples.

(* ===================================================================== *)
(** * Properties of the raw network *)
(* ===================================================================== *)

Module RawNetworkFacts.
Import RawNetwork.

Lemma range_elem (n i : Z) : i ∈ range n ↔ 0 ≤ i < n.
Proof.
  unfold range. rewrite list_elem_of_fmap. setoid_rewrite elem_of_seq. split.
  - intros (k & -> & Hk). lia.
  - intros Hi. exists (Z.to_nat i). lia.
Qed.

Lemma range_NoDup (n : Z) : NoDup (range n).
Proof. unfold range. apply (NoDup_fmap_2 _), NoDup_seq. Qed.

Lemma range_length (n : Z) : length (range n) = Z.to_nat n.
Proof. unfold range. by rewrite length_fmap, length_seq. Qed.

Lemma od_set_fresh {A} (k : string) (v : A) d :
  k ∉ d.*1 → od_set k v d = d ++ [(k, v)].
Proof.
  induction d as [|[k' v'] d IH]; simpl; [done|].
  rewrite not_elem_of_cons. intros [Hne Hnotin].
  rewrite decide_False by done. by rewrite IH.
Qed.

Lemma OrderedDict_acc {A} (seq acc : list (string * A)) :
  NoDup (acc ++ seq).*1 →
  fold_left (λ d kv, od_set kv.1 kv.2 d) seq acc = acc ++ seq.
Proof.
  revert acc. induction seq as [|[k v] seq IH]; intros acc Hnd; simpl.
  - by rewrite app_nil_r.
  - rewrite od_set_fresh.
    + rewrite IH; rewrite <- app_assoc; done.
    + rewrite fmap_app, fmap_cons in Hnd. apply NoDup_app in Hnd as (_ & Hdisj & _).
      intros Hin. apply (Hdisj k Hin). simpl. left.
Qed.

(** With pairwise distinct keys [OrderedDict] keeps the list as it is. *)
Lemma OrderedDict_NoDup {A} (seq : list (string * A)) :
  NoDup seq.*1 → OrderedDict seq = seq.
Proof. intros Hnd. unfold OrderedDict. by rewrite OrderedDict_acc. Qed.


Global Instance layer_name_inj : Inj (=) (=) layer_name.
Proof.
  intros [k i] [k' i']. unfold layer_name, str.
  destruct k, k'; simpl; intros Heq; simplify_eq; try done;
    by match goal with H : pretty _ = pretty _ |- _ => apply (inj pretty) in H; subst end.
Qed.


Lemma deep_keys_NoDup (d : Z) : 1 < d → NoDup (deep_keys d).
Proof.
  intros Hd. unfold deep_keys.
  apply NoDup_app. split; [|split].
  - repeat (apply NoDup_cons; split; [set_solver|]). apply NoDup_nil_2.
  - intros p Hp. rewrite elem_of_app, list_elem_of_bind, list_elem_of_singleton.
    intros [(i & Hi & Hr%range_elem)| ->]; set_solver by lia.
  - apply NoDup_app. split; [|split].
    + apply NoDup_bind; [| |apply range_NoDup].
      * intros i j p _ _ Hi Hj. set_solver by lia.
      * intros i _. repeat (apply NoDup_cons; split; [set_solver|]). apply NoDup_nil_2.
    + intros p (i & Hi & Hr%range_elem)%list_elem_of_bind. set_solver by lia.
    + apply NoDup_singleton.
Qed.

Lemma fmap_list_bind {A B C} (f : B → C) (g : A → list B) (l : list A) :
  f <$> (l ≫= g) = l ≫= (λ x, f <$> g x).
Proof.
  induction l as [|x l IH]; [done|]. by rewrite !bind_cons, fmap_app, IH.
Qed.

Lemma list_bind_ext_elem {A B} (f g : A → list B) (l : list A) :
  (∀ x, x ∈ l → f x = g x) → l ≫= f = l ≫= g.
Proof.
  induction l as [|x l IH]; intros Hfg; [done|].
  rewrite !bind_cons, Hfg, IH; [done| |left]. intros y Hy. apply Hfg. by right.
Qed.


Lemma deep_seq_keys (self : _Model) (n : Z) :
  (deep_seq self n).*1 = layer_name <$> deep_keys (fc_depth self).
Proof.
  unfold deep_seq, deep_keys. rewrite !fmap_app, !fmap_list_bind. reflexivity.
Qed.

Lemma deep_seq_NoDup (self : _Model) (n : Z) :
  1 < fc_depth self → NoDup (deep_seq self n).*1.
Proof.
  intros Hd. rewrite deep_seq_keys. apply (NoDup_fmap_2 _), deep_keys_NoDup, Hd.
Qed.

Lemma range_succ (n : Z) : 0 ≤ n → range (n + 1) = 0 :: (Z.succ <$> range n).
Proof.
  intros Hn. unfold range. replace (Z.to_nat (n + 1)) with (S (Z.to_nat n)) by lia.
  simpl. f_equal. rewrite <- seq_shift, <- !list_fmap_compose.
  apply list_fmap_ext. intros _ k _. simpl. lia.
Qed.

Lemma deep_seq_layers (self : _Model) (n : Z) :
  1 < fc_depth self → (deep_seq self n).*2 = policy_layers self n.
Proof.
  intros Hd. unfold deep_seq, policy_layers.
  replace (fc_depth self - 1) with ((fc_depth self - 2) + 1) by lia.
  rewrite range_succ by lia. rewrite !fmap_app, fmap_list_bind, bind_cons, list_fmap_bind.
  simpl. unfold policy_linear at 1.
  rewrite bool_decide_true by done. rewrite (bool_decide_false (0 + 1 = _)) by lia.
  do 3 f_equal. f_equal.
  - apply list_bind_ext_elem. intros i Hi%range_elem. unfold policy_linear. simpl.
    rewrite !bool_decide_false by lia. reflexivity.
  - unfold policy_linear. rewrite bool_decide_false by lia.
    by rewrite bool_decide_true.
Qed.

Lemma policy_layers_linear_count (self : _Model) (n : Z) :
  0 < fc_depth self →
  length (filter (λ l, is_linear l = true) (policy_layers self n)) = Z.to_nat (fc_depth self).
Proof.
  intros Hd. unfold policy_layers. rewrite filter_app, length_app.
  assert (Hblocks : ∀ l : list Z,
    length (filter (λ l, is_linear l = true)
      (i ← l; [policy_linear self n (i + 1); ReLU; Dropout])) = length l).
  { induction l as [|i l IH]; [done|]. rewrite bind_cons, filter_app, length_app, IH.
    reflexivity. }
  rewrite Hblocks, range_length. simpl. lia.
Qed.

Lemma nn_Linear_inr (i : Z) (o : option Z) (l : layer) :
  nn_Linear i o = inr l ↔ ∃ n, o = Some n ∧ 0 ≤ i ∧ 0 ≤ n ∧ l = Linear i n.
Proof.
  unfold nn_Linear. destruct o as [n|]; [|naive_solver].
  case_bool_decide; [naive_solver lia|]. split.
  - intros [= <-]. exists n. split; [done|]. split; [lia|]. split; [lia|done].
  - by intros (? & [= <-] & _ & _ & ->).
Qed.

Lemma extend_each_hidden (self : _Model) (l : list Z) :
  0 ≤ fc_dim self →
  extend_each (hidden_block self) l
  = inr (l ≫= λ i, [ ("fc" +:+ str (i + 2), Linear (fc_dim self) (fc_dim self));
                     ("relu" +:+ str (i + 2), ReLU);
                     ("dropout" +:+ str (i + 2), Dropout) ]).
Proof.
  intros Hdim. induction l as [|i l IH]; [done|]. simpl. rewrite IH.
  unfold hidden_block, nn_Linear. by rewrite bool_decide_false by lia.
Qed.

(** For widths [nn.Linear] accepts and a depth above 1 the classifier is
    the sequence of lines 81-90. *)
Lemma define_classifier_deep (self : _Model) (n : Z) nc cd fd fdim :
  1 < fc_depth self → valid_widths self n →
  define_classifier self nc cd fd fdim = inr (Sequential (deep_seq self n)).
Proof.
  intros Hd (Hn & Hcd & Hnn & Hfd). specialize (Hfd Hd). unfold define_classifier.
  rewrite !bool_decide_false by lia.
  unfold nn_Linear at 1. rewrite bool_decide_false by lia.
  rewrite extend_each_hidden by done. rewrite Hn.
  unfold nn_Linear. rewrite bool_decide_false by lia.
  fold (deep_seq self n). by rewrite OrderedDict_NoDup by by apply deep_seq_NoDup.
Qed.

(** A classifier of one layer or more is built for valid widths only. *)
Lemma define_classifier_inr (self : _Model) nc cd fd fdim (m : module) :
  define_classifier self nc cd fd fdim = inr m → 0 < fc_depth self →
  ∃ n, valid_widths self n.
Proof.
  unfold define_classifier, valid_widths. intros Hm Hd.
  rewrite bool_decide_false in Hm by lia.
  case_bool_decide as H1.
  - destruct (nn_Linear (conv_dim self) (num_classes self)) as [e|fc] eqn:Hfc; [done|].
    apply nn_Linear_inr in Hfc as (n & Hn & ? & ? & _). exists n.
    repeat split; [done..|lia].
  - destruct (nn_Linear (conv_dim self) (Some (fc_dim self))) as [e|fc1] eqn:Hfc1; [done|].
    destruct (extend_each _ _) as [e|hidden]; [done|].
    destruct (nn_Linear (fc_dim self) (num_classes self)) as [e|fcl] eqn:Hfcl; [done|].
    apply nn_Linear_inr in Hfc1 as (? & [= <-] & ? & ? & _).
    apply nn_Linear_inr in Hfcl as (n & Hn & ? & ? & _). exists n. done.
Qed.

(** The keyword arguments of [define_classifier] have no effect on what it
    builds. *)
Lemma define_classifier_args_ignored (self : _Model) nc cd fd fdim :
  define_classifier self nc cd fd fdim = define_classifier self None None None None.
Proof. reflexivity. Qed.

(** C1. The classifier [define_classifier] builds follows the
    construction policy, whatever keyword arguments it is called with.
    For [fc_depth <= 0] it is the identity, whose output is its input.
    For [fc_depth = 1] it is the single linear layer [fc] from [conv_dim]
    to [num_classes], with a weight of shape [(num_classes, conv_dim)] and
    a bias of length [num_classes]. For [fc_depth > 1] it is a sequence
    whose layers are exactly the policy's: [fc_depth] linear layers, ReLU
    and dropout after each but the last, [conv_dim] in, [fc_dim] between,
    [num_classes] out. A classifier is built for every configuration with
    [fc_depth <= 0], and otherwise exactly for the widths [nn.Linear]
    accepts -- [num_classes] is given, and neither it nor [conv_dim] nor,
    for a depth above 1, [fc_dim] is negative --: for the others
    [define_classifier] raises and there is no classifier. *)
Theorem define_classifier_policy (self : _Model) (nc cd fd fdim : option Z) :
  let classifier := define_classifier self nc cd fd fdim in
  ((∃ m, classifier = inr m) ↔ fc_depth self ≤ 0 ∨ ∃ n, valid_widths self n)
  ∧ ∀ m, classifier = inr m →
      (fc_depth self ≤ 0 →
         m = Identity ∧
         ∀ (T : Type) (apply_layer : layer → T → T) (x : T), forward apply_layer m x = x)
      ∧ (fc_depth self = 1 →
         ∃ n, num_classes self = Some n ∧
              m = Sequential [("fc", Linear (conv_dim self) n)] ∧
              named_parameter_shapes m =
                [ ("fc.weight", [n; conv_dim self]);
                  ("fc.bias", [n]) ])
      ∧ (1 < fc_depth self →
         ∃ n children,
           num_classes self = Some n ∧
           m = Sequential children ∧
           children.*2 = policy_layers self n ∧
           length (filter (λ l, is_linear l = true) children.*2)
           = Z.to_nat (fc_depth self) ∧
           head children.*2 = Some (Linear (conv_dim self) (fc_dim self)) ∧
           last children.*2 = Some (Linear (fc_dim self) n)).
Proof.
  simpl.
  assert (∀ n, fc_depth self = 1 → valid_widths self n →
            define_classifier self nc cd fd fdim
            = inr (Sequential [("fc", Linear (conv_dim self) n)])) as Hone.
  { intros n Hd (Hn & Hcd & Hnn & _). unfold define_classifier.
    rewrite bool_decide_false by lia. rewrite bool_decide_true by done.
    rewrite Hn. unfold nn_Linear. by rewrite bool_decide_false by lia. }
  assert (fc_depth self ≤ 0 → define_classifier self nc cd fd fdim = inr Identity) as Hzero.
  { intros Hd. unfold define_classifier. by rewrite bool_decide_true. }
  split.
  - split.
    + intros [m Hm]. destruct (decide (fc_depth self ≤ 0)) as [|Hd]; [by left|].
      right. eapply define_classifier_inr; [exact Hm|lia].
    + intros [Hd|[n Hn]]; [eexists; by apply Hzero|].
      destruct (decide (fc_depth self ≤ 0)) as [|Hd]; [eexists; by apply Hzero|].
      destruct (decide (fc_depth self = 1)) as [H1|H1].
      * eexists. by apply Hone.
      * eexists. apply define_classifier_deep; [lia|done].
  - intros m Hm. split; [|split].
    + intros Hd. rewrite Hzero in Hm by done. by injection Hm as <-.
    + intros Hd. destruct (define_classifier_inr _ _ _ _ _ _ Hm) as [n Hn]; [lia|].
      rewrite (Hone n Hd Hn) in Hm. injection Hm as <-.
      exists n. split; [by destruct Hn|]. done.
    + intros Hd. destruct (define_classifier_inr _ _ _ _ _ _ Hm) as [n Hn]; [lia|].
      rewrite (define_classifier_deep self n) in Hm by done. injection Hm as <-.
      exists n, (deep_seq self n).
      split; [by destruct Hn|]. split; [done|].
      split; [by apply deep_seq_layers|].
      split; [rewrite deep_seq_layers by done; apply policy_layers_linear_count; lia|].
      split; [done|].
      unfold deep_seq. by rewrite !fmap_app, !app_assoc, list_fmap_singleton, last_snoc.
Qed.

(** The policy at three concrete depths, and a width that is refused. *)
Lemma define_classifier_policy_witness :
  let cfg d w := {| conv_depth := 0; conv_dim := w; fc_depth := d;
                    fc_dim := 4096; num_classes := Some 10 |} in
  define_classifier (cfg 0 512) None None None None = inr Identity
  ∧ define_classifier (cfg 1 512) None None None None
    = inr (Sequential [("fc", Linear 512 10)])
  ∧ (∃ children,
       define_classifier (cfg 3 512) None None None None = inr (Sequential children) ∧
       children.*2 = [ Linear 512 4096; ReLU; Dropout; Linear 4096 4096; ReLU; Dropout;
                       Linear 4096 10 ])
  ∧ ¬ (∃ m, define_classifier (cfg 1 (-1)) None None None None = inr m).
Proof.
  intros cfg.
  assert (∀ d, valid_widths (cfg d 512) 10) as Hvalid
    by (intros d; repeat split; simpl; lia).
  split; [|split; [|split]].
  - destruct (define_classifier_policy (cfg 0 512) None None None None) as [Hiff Hpol].
    destruct (proj2 Hiff) as [m Hm]; [left; simpl; lia|].
    destruct (Hpol m Hm) as (H & _). destruct H as [-> _]; [simpl; lia|]. exact Hm.
  - destruct (define_classifier_policy (cfg 1 512) None None None None) as [Hiff Hpol].
    destruct (proj2 Hiff) as [m Hm]; [right; by exists 10|].
    destruct (Hpol m Hm) as (_ & H & _).
    destruct H as (n & [= <-] & -> & _); [reflexivity|]. exact Hm.
  - destruct (define_classifier_policy (cfg 3 512) None None None None) as [Hiff Hpol].
    destruct (proj2 Hiff) as [m Hm]; [right; by exists 10|].
    destruct (Hpol m Hm) as (_ & _ & H).
    destruct H as (n & ch & [= <-] & -> & Hl & _); [simpl; lia|].
    exists ch. split; [exact Hm|]. rewrite Hl. reflexivity.
  - destruct (define_classifier_policy (cfg 1 (-1)) None None None None) as [Hiff _].
    intros Hm. apply Hiff in Hm as [Hd|(n & _ & Hcd & _)]; simpl in *; lia.
Defined.

End RawNetworkFacts.
(* ===================================================================== *)
(** * Reasoning about computations *)
(* ===================================================================== *)

Module PyFacts.
Import Py.
Local Open Scope py_scope.

Lemma bind_inr {S A B} (m : M S A) (k : A → M S B) s b s' :
  bind m k s = (inr b, s') ↔ ∃ a s1, m s = (inr a, s1) ∧ k a s1 = (inr b, s').
Proof.
  unfold bind. split.
  - destruct (m s) as [[e|a] s1]; [discriminate|]. eauto.
  - intros (a & s1 & -> & Hk). done.
Qed.

Lemma bind_inl {S A B} (m : M S A) (k : A → M S B) s e s' :
  bind m k s = (inl e, s') ↔
  m s = (inl e, s') ∨ ∃ a s1, m s = (inr a, s1) ∧ k a s1 = (inl e, s').
Proof.
  unfold bind. split.
  - destruct (m s) as [[e1|a] s1]; [left; congruence|]. right. eauto.
  - intros [->|(a & s1 & -> & Hk)]; done.
Qed.

Lemma bind_run {S A B} (m : M S A) (k : A → M S B) s a s1 :
  m s = (inr a, s1) → bind m k s = k a s1.
Proof. unfold bind. by intros ->. Qed.

Lemma bind_raise {S A B} (m : M S A) (k : A → M S B) s e s1 :
  m s = (inl e, s1) → bind m k s = (inl e, s1).
Proof. unfold bind. by intros ->. Qed.

Lemma try_except_run {S A} (m : M S A) (h : exn → M S A) s a s1 :
  m s = (inr a, s1) → try_except m h s = (inr a, s1).
Proof. unfold try_except. by intros ->. Qed.

Lemma lift_inr {S A} (r : exn + A) (s s' : S) a :
  lift r s = (inr a, s') ↔ r = inr a ∧ s' = s.
Proof. unfold lift. naive_solver. Qed.

Lemma ret_inr {S A} (x a : A) (s s' : S) :
  ret x s = (inr a, s') ↔ a = x ∧ s' = s.
Proof. unfold ret. naive_solver. Qed.

Lemma get_inr {S} (s s' a : S) : get s = (inr a, s') ↔ a = s ∧ s' = s.
Proof. unfold get. naive_solver. Qed.

Lemma modify_inr {S} (f : S → S) (s s' : S) u :
  modify f s = (inr u, s') ↔ s' = f s.
Proof. unfold modify. destruct u. naive_solver. Qed.

(** Takes a successful run [H] of a sequence of steps apart, step by
    step. *)
Ltac inv_run H :=
  repeat first
    [ apply bind_inr in H as (? & ? & ? & H)
    | apply ret_inr in H as [? ?]
    | apply lift_inr in H as [? ?]
    | apply get_inr in H as [? ?]
    | apply modify_inr in H ];
  subst.

Lemma slice_to_take {A} (k : Z) (l : list A) :
  ∃ n, slice_to k l = take n l ∧ (0 ≤ k → n = Z.to_nat k).
Proof.
  unfold slice_to. case_bool_decide; eauto.
  eexists. split; [done|lia].
Qed.

Lemma max_of_ge (l : list Z) (m x : Z) : max_of l = inr m → x ∈ l → x ≤ m.
Proof.
  destruct l as [|y l]; [done|]. simpl. intros [= <-].
  revert x. induction l as [|z l IH]; intros x.
  - rewrite list_elem_of_singleton. intros ->. simpl. lia.
  - rewrite !elem_of_cons. simpl. intros [->|[->|Hx]].
    + assert (y ≤ foldr Z.max y l) by (apply IH; left). lia.
    + lia.
    + assert (x ≤ foldr Z.max y l) by (apply IH; by right). lia.
Qed.

End PyFacts.

(* ===================================================================== *)
(** * Top-k accuracy *)
(* ===================================================================== *)

Module AccuracyFacts.
Import Py Torch Wrapper PyFacts.
Local Open Scope py_scope.

Section Accuracy.
Context (percent : Z → Z → Q).

Lemma count_true_take (n : nat) (rs : list (list bool)) :
  count_true (take n rs) ≤ count_true rs.
Proof.
  unfold count_true. rewrite <- (take_drop n rs) at 2.
  rewrite concat_app, filter_app, length_app. lia.
Qed.

Lemma count_true_nonneg (rs : list (list bool)) : 0 ≤ count_true rs.
Proof. unfold count_true. lia. Qed.

(** The rows of [correct] do not depend on how many ranks [topk] keeps:
    they are the first rows of one and the same table. *)
Lemma correct_rows (k : Z) (out : Tensor2 Qc) (pred : Tensor2 Z) (labels : list Z) :
  tensor_topk k out = inr pred →
  dim1 (transpose pred) = dim0 out ∧
  rows (tensor_eq_row (transpose pred) labels)
  = correct_row out labels <$> seq 0 (Z.to_nat k).
Proof.
  unfold tensor_topk. case_bool_decide as Hk; [|done]. intros [= <-].
  split; [unfold transpose, dim0; simpl; by rewrite length_fmap|].
  unfold tensor_eq_row, transpose. simpl. rewrite <- list_fmap_compose.
  apply list_fmap_ext. intros j i [-> Hi]%lookup_seq. simpl.
  unfold correct_row, rank_row. simpl. f_equal.
  rewrite <- list_fmap_compose. apply list_fmap_ext. intros _ r _. simpl.
  by rewrite fmap_take, lookup_total_take_lt.
Qed.

Lemma view_flat_inr {A} (n : nat) (rs : list (list A)) (flat : list A) :
  view_flat n rs = inr flat ↔ ¬ (2 ≤ length rs ∧ 2 ≤ n)%nat ∧ flat = concat rs.
Proof. unfold view_flat. case_bool_decide; naive_solver. Qed.

Lemma accuracy_res_inr nc b correct topk st res st' :
  accuracy_res percent nc b correct topk st = (inr res, st') →
  st' = st ∧ Forall2 (accuracy_entry percent nc b (dim1 correct) (rows correct)) topk res.
Proof.
  revert st res st'. induction topk as [|k topk IH]; intros st res st' Hrun; simpl in Hrun.
  - inv_run Hrun. split; [done|constructor].
  - apply bind_inr in Hrun as (r & s1 & Hk & Hrun).
    apply bind_inr in Hrun as (res' & s2 & Hrest & Hrun).
    apply IH in Hrest as [-> Hall]. inv_run Hrun.
    assert (s1 = st ∧ accuracy_entry percent nc b (dim1 correct) (rows correct) k r)
      as [-> Hr].
    { unfold accuracy_entry. case_bool_decide; [by inv_run Hk|].
      apply bind_inr in Hk as (flat & s3 & [Hflat ->]%lift_inr & Hk).
      apply view_flat_inr in Hflat as [Hview ->].
      case_bool_decide; [done|]. by inv_run Hk. }
    split; [done|]. by constructor.
Qed.

(** A successful run of [accuracy], taken apart. *)
Lemma accuracy_inr out lab topk st res st' :
  accuracy percent out lab topk st = (inr res, st') →
  ∃ m nc labels,
    st' = st ∧ max_of topk = inr m ∧ num_classes (self st) = Some nc ∧
    expand_labels lab (dim0 out) = inr labels ∧
    0 ≤ Z.min m nc ≤ Z.of_nat (dim1 out) ∧
    Forall2 (accuracy_entry percent nc (Z.of_nat (length lab)) (dim0 out)
               (correct_row out labels <$> seq 0 (Z.to_nat (Z.min m nc)))) topk res.
Proof.
  unfold accuracy. intros Hrun.
  apply bind_inr in Hrun as (s & s1 & Hget & Hrun). apply get_inr in Hget as [-> ->].
  apply bind_inr in Hrun as (m & s1 & [Hm ->]%lift_inr & Hrun).
  apply bind_inr in Hrun as (nc & s1 & Hnc & Hrun).
  destruct (num_classes (self st)) as [nc'|] eqn:Hnc'; [|done].
  apply ret_inr in Hnc as [-> ->].
  apply bind_inr in Hrun as (pred & s1 & [Hpred ->]%lift_inr & Hrun).
  apply bind_inr in Hrun as (labels & s1 & [Hlab ->]%lift_inr & Hrun).
  apply accuracy_res_inr in Hrun as [-> Hall].
  exists m, nc', labels.
  assert (0 ≤ Z.min m nc' ≤ Z.of_nat (dim1 out)) as Hrange.
  { unfold tensor_topk in Hpred. by case_bool_decide. }
  destruct (correct_rows _ _ _ labels Hpred) as [Hdim Hrows].
  rewrite Hrows in Hall. rewrite Hdim in Hlab.
  change (dim1 (tensor_eq_row (transpose pred) labels)) with (dim1 (transpose pred)) in Hall.
  rewrite Hdim in Hall. done.
Qed.


(** [accuracy] returns on every batch of one example with its label, when
    the largest requested [k], cut at [num_classes], is a rank the logits
    have. *)
Lemma accuracy_returns st out lab topk m nc :
  max_of topk = inr m → num_classes (self st) = Some nc →
  0 ≤ Z.min m nc ≤ Z.of_nat (dim1 out) →
  length lab = dim0 out → dim0 out = 1%nat →
  ∃ res, accuracy percent out lab topk st = (inr res, st).
Proof.
  intros Hm Hnc Hrange Hlen Hone. unfold accuracy.
  erewrite bind_run by reflexivity.
  erewrite bind_run by (unfold lift; by rewrite Hm).
  rewrite Hnc. erewrite bind_run by reflexivity.
  unfold tensor_topk. rewrite bool_decide_true by done.
  erewrite bind_run by reflexivity.
  unfold expand_labels.
  rewrite bool_decide_true by (unfold transpose, dim0 in *; simpl; by rewrite length_fmap).
  erewrite bind_run by reflexivity.
  assert (Z.of_nat (length lab) ≠ 0) as Hb by lia.
  assert (dim1 (tensor_eq_row (transpose
    {| dim1 := Z.to_nat (m `min` nc);
       rows := (λ r, Z.of_nat <$> take (Z.to_nat (m `min` nc)) (argsort_desc r)) <$> rows out |})
    lab) = 1%nat) as Hcols.
  { unfold tensor_eq_row, transpose, dim0 in *. simpl. by rewrite length_fmap. }
  revert Hcols.
  generalize (tensor_eq_row (transpose
    {| dim1 := Z.to_nat (m `min` nc);
       rows := (λ r, Z.of_nat <$> take (Z.to_nat (m `min` nc)) (argsort_desc r)) <$> rows out |})
    lab). intros correct Hcols.
  clear Hm. induction topk as [|k topk [res IH]]; simpl; [by eexists|].
  case_bool_decide.
  - erewrite bind_run by reflexivity. erewrite bind_run by apply IH. by eexists.
  - unfold view_flat. rewrite bool_decide_false by lia.
    erewrite (bind_run (bind _ _)).
    2:{ erewrite bind_run by reflexivity. rewrite bool_decide_false by done. reflexivity. }
    erewrite bind_run by apply IH. by eexists.
Qed.

Lemma accuracy_res_view nc b (correct : Tensor2 bool) (topk : list Z) (st : State) (k : Z) :
  b ≠ 0 → (2 ≤ dim1 correct)%nat → k ≤ Z.of_nat (length (rows correct)) →
  k ∈ topk → 2 ≤ k ≤ nc →
  accuracy_res percent nc b correct topk st
  = (inl (RuntimeError "view size is not compatible with input tensor's size and stride"),
     st).
Proof.
  intros Hb Hcols Hrows Hk Hrange.
  induction topk as [|k0 topk IH]; [by apply elem_of_nil in Hk|].
  simpl. case_bool_decide as Hk0.
  - erewrite bind_run by reflexivity. erewrite bind_raise; [reflexivity|].
    apply IH. apply elem_of_cons in Hk as [->|Hk]; [lia|done].
  - unfold view_flat. case_bool_decide as Hview.
    + by erewrite bind_raise by (by erewrite bind_raise by reflexivity).
    + erewrite (bind_run (bind _ _)).
      2:{ erewrite bind_run by reflexivity. rewrite bool_decide_false by done. reflexivity. }
      erewrite bind_raise; [reflexivity|].
      apply IH. apply elem_of_cons in Hk as [->|Hk]; [|done].
      exfalso. apply Hview. split; [|done].
      unfold slice_to. rewrite bool_decide_true by lia. rewrite length_take. lia.
Qed.

(** C3. The values the claim compares are not there. On a batch of two
    examples or more, with one label each, [accuracy] raises the
    [RuntimeError] of [view(-1)] as soon as one of the requested [k] is
    between 2 and [num_classes]: the table [correct] has the layout of the
    transposed [pred], and two of its rows or more cannot be viewed as one
    dimension. The state is as before. So the value at [k = num_classes]
    is returned for a batch of one example only, whenever there are two
    classes or more. *)
Theorem accuracy_view_error out lab topk st m nc k :
  max_of topk = inr m → num_classes (self st) = Some nc →
  0 ≤ Z.min m nc ≤ Z.of_nat (dim1 out) →
  length lab = dim0 out → (2 ≤ dim0 out)%nat →
  k ∈ topk → 2 ≤ k ≤ nc →
  accuracy percent out lab topk st
  = (inl (RuntimeError "view size is not compatible with input tensor's size and stride"),
     st).
Proof.
  intros Hm Hnc Hrange Hlen Htwo Hk Hkr. unfold accuracy.
  erewrite bind_run by reflexivity.
  erewrite bind_run by (unfold lift; by rewrite Hm).
  rewrite Hnc. erewrite bind_run by reflexivity.
  unfold tensor_topk. rewrite bool_decide_true by done.
  erewrite bind_run by reflexivity.
  unfold expand_labels.
  rewrite bool_decide_true by (unfold transpose, dim0 in *; simpl; by rewrite length_fmap).
  erewrite bind_run by reflexivity.
  assert (k ≤ m) by by eapply max_of_ge.
  apply accuracy_res_view with (k := k); [lia| | |done|done].
  - unfold tensor_eq_row, transpose, dim0 in *. simpl. rewrite length_fmap. lia.
  - unfold tensor_eq_row, transpose. simpl. rewrite !length_fmap, length_seq. lia.
Qed.

End Accuracy.

(** The theorem on the four examples over three classes, asked for the
    top-3 and the top-1 accuracy. *)
Lemma accuracy_view_error_witness :
  accuracy Examples.example_percent Examples.example_logits Examples.example_labels [3; 1]
    Examples.example_state
  = (inl (RuntimeError "view size is not compatible with input tensor's size and stride"),
     Examples.example_state).
Proof.
  apply (accuracy_view_error Examples.example_percent Examples.example_logits
           Examples.example_labels [3; 1] Examples.example_state 3 3 3);
    [reflexivity|reflexivity|vm_compute; split; intro; discriminate|reflexivity
    |vm_compute; lia|apply elem_of_cons; by left|lia].
Defined.



End AccuracyFacts.
(* ===================================================================== *)
(** * Sorting scores and target generation *)
(* ===================================================================== *)

Module TargetFacts.
Import Py Torch Wrapper PyFacts.
Local Open Scope py_scope.

Lemma Qc_ltb_true (x y : Qc) : Qc_ltb x y = true ↔ (x < y)%Qc.
Proof.
  unfold Qc_ltb. rewrite negb_true_iff, <- not_true_iff_false, Qle_bool_iff.
  split; [apply Qnot_le_lt|apply Qlt_not_le].
Qed.

Lemma Qc_ltb_false (x y : Qc) : Qc_ltb x y = false ↔ (y <= x)%Qc.
Proof.
  unfold Qc_ltb. rewrite negb_false_iff, Qle_bool_iff. done.
Qed.

Lemma insert_desc_perm (row : list Qc) (i : nat) (l : list nat) :
  insert_desc row i l ≡ₚ i :: l.
Proof.
  induction l as [|j l IH]; simpl; [done|].
  destruct (Qc_ltb _ _); [|done]. rewrite IH. apply Permutation_swap.
Qed.

Lemma argsort_desc_perm (row : list Qc) : argsort_desc row ≡ₚ seq 0 (length row).
Proof.
  unfold argsort_desc. induction (seq 0 (length row)) as [|i l IH]; simpl; [done|].
  by rewrite insert_desc_perm, IH.
Qed.

Lemma insert_desc_sorted (row : list Qc) (i : nat) (l : list nat) :
  StronglySorted (desc row) l → StronglySorted (desc row) (insert_desc row i l).
Proof.
  induction 1 as [|j l Hl IH Hj]; simpl.
  - repeat constructor.
  - destruct (Qc_ltb (row !!! i) (row !!! j)) eqn:Hij.
    + constructor; [done|]. rewrite insert_desc_perm. constructor; [|done].
      apply Qc_ltb_true in Hij. by apply Qclt_le_weak.
    + apply Qc_ltb_false in Hij. constructor; [by constructor|].
      constructor; [done|]. eapply Forall_impl; [done|].
      intros k Hk. unfold desc in *. by eapply Qcle_trans.
Qed.

Lemma argsort_desc_sorted (row : list Qc) : StronglySorted (desc row) (argsort_desc row).
Proof.
  unfold argsort_desc. induction (seq 0 (length row)) as [|i l IH]; simpl.
  - constructor.
  - by apply insert_desc_sorted.
Qed.

Lemma argsort_desc_length (row : list Qc) : length (argsort_desc row) = length row.
Proof. by rewrite argsort_desc_perm, length_seq. Qed.

Lemma argsort_desc_elem (row : list Qc) (i : nat) :
  i ∈ argsort_desc row ↔ (i < length row)%nat.
Proof. rewrite argsort_desc_perm, elem_of_seq. lia. Qed.

Lemma argmax_scan_max (row : list Qc) (best i : nat) (rest : list Qc) :
  drop i row = rest → (best < i)%nat → (i ≤ length row)%nat →
  (∀ j, (j < i)%nat → (row !!! j <= row !!! best)%Qc) →
  (argmax_scan row best i rest < length row)%nat ∧
  ∀ j, (j < length row)%nat → (row !!! j <= row !!! argmax_scan row best i rest)%Qc.
Proof.
  revert best i. induction rest as [|x rest IH]; intros best i Hdrop Hbest Hi Hmax; simpl.
  - assert (i = length row) as ->.
    { apply (f_equal length) in Hdrop. rewrite length_drop in Hdrop. simpl in Hdrop. lia. }
    split; [lia|done].
  - assert (row !! i = Some x) as Hx.
    { rewrite <- (Nat.add_0_r i), <- lookup_drop, Hdrop. done. }
    assert (row !!! i = x) as Hxi by (by apply list_lookup_total_correct).
    assert (i < length row)%nat as Hlt by (by eapply lookup_lt_Some).
    apply IH.
    + rewrite (drop_S _ _ _ Hx) in Hdrop. by injection Hdrop.
    + destruct (Qc_ltb _ _); lia.
    + lia.
    + intros j Hj. destruct (Qc_ltb (row !!! best) x) eqn:Hcmp.
      * apply Qc_ltb_true in Hcmp. destruct (decide (j = i)) as [->|Hne].
        { apply Qcle_refl. }
        eapply Qcle_trans; [apply Hmax; lia|]. rewrite Hxi. by apply Qclt_le_weak.
      * apply Qc_ltb_false in Hcmp. destruct (decide (j = i)) as [->|Hne].
        { by rewrite Hxi. }
        apply Hmax. lia.
Qed.

(** [argmax] is the index of a maximal entry. *)
Lemma argmax_max (row : list Qc) :
  row ≠ [] →
  (argmax row < length row)%nat ∧
  ∀ j, (j < length row)%nat → (row !!! j <= row !!! argmax row)%Qc.
Proof.
  intros Hne. destruct row as [|x row]; [done|]. unfold argmax.
  apply argmax_scan_max; simpl; [done|lia|lia|].
  intros j Hj. replace j with 0%nat by lia. apply Qcle_refl.
Qed.

(** The second index of the sorted order is the runner-up, once the
    highest score is reached by one class only. *)
Lemma argsort_desc_second (row : list Qc) :
  (2 ≤ length row)%nat → top_scores_differ row →
  runner_up row (Z.of_nat (argsort_desc row !!! 1%nat)).
Proof.
  intros Hlen Hdiff.
  pose proof (argsort_desc_sorted row) as Hsorted.
  pose proof (argsort_desc_elem row) as Helem.
  assert (NoDup (argsort_desc row)) as Hnd.
  { rewrite argsort_desc_perm. apply NoDup_seq. }
  pose proof (argsort_desc_length row) as Hslen.
  destruct (argsort_desc row) as [|a [|b s]]; simpl in Hslen; [lia..|].
  apply StronglySorted_inv in Hsorted as [Hsorted Ha].
  apply StronglySorted_inv in Hsorted as [_ Hb].
  apply NoDup_cons in Hnd as [Hab _].
  destruct (argmax_max row) as [Hmi Hmax]; [by destruct row|].
  assert (a = argmax row) as Haeq.
  { destruct (decide (a = argmax row)) as [|Hne]; [done|]. exfalso.
    assert (a < length row)%nat as Halt by (apply Helem; left).
    specialize (Hdiff a Halt Hne).
    assert (desc row a (argmax row)) as Hle.
    { assert (argmax row ∈ a :: b :: s) as Hin by by apply Helem.
      apply elem_of_cons in Hin as [?|Hin]; [congruence|].
      by eapply (proj1 (Forall_forall _ _) Ha). }
    unfold desc in Hle. by eapply Qcle_not_lt. }
  exists b. simpl. split; [done|]. split; [apply Helem; set_solver|].
  split; [set_solver|].
  intros j Hj Hne. apply Helem in Hj.
  apply elem_of_cons in Hj as [->|Hj]; [congruence|].
  apply elem_of_cons in Hj as [->|Hj]; [apply Qcle_refl|].
  by apply (proj1 (Forall_forall _ _) Hb).
Qed.

Section GenerateTarget.
Context (forward : Net → Tensor → exn + Tensor2 Qc).
Context (forward_train : Net → Tensor → nat → (exn + Tensor2 Qc) * nat).
Context (randn : nat → Qc).

(** C7. When [generate_target] is called with [idx = 1] (and [same] left
    at [False]), the target of every example whose highest logit score
    is reached by one class only is the class with the second-highest
    score, and so differs from the arg-max of the logits. The logits are
    those [get_logits] returned inside the call. *)
Theorem generate_target_runner_up (_input : Tensor) (st st' : State) (target : list Z) :
  generate_target forward forward_train randn _input 1 false st = (inr target, st') →
  ∃ (size0 : nat) (out : Tensor2 Qc),
    get_logits forward forward_train randn (unsqueeze_example _input) None None None
      (set_self (set_batch_size (Some (Z.of_nat size0))) st) = (inr out, st') ∧
    Forall2 (λ row t,
               length row = dim1 out → top_scores_differ row →
               t ≠ Z.of_nat (argmax row) ∧ runner_up row t)
            (rows out) target.
Proof.
  unfold generate_target. intros Hrun.
  apply bind_inr in Hrun as (size0 & s1 & Hsize & Hrun).
  destruct (shape (unsqueeze_example _input)) as [|n sh]; [done|].
  apply ret_inr in Hsize as [-> ->].
  apply bind_inr in Hrun as ([] & s1 & ->%modify_inr & Hrun).
  apply bind_inr in Hrun as (out & s1 & Hlogits & Hrun).
  apply bind_inr in Hrun as (tgt & s2 & [Hcol ->]%lift_inr & Hrun).
  apply ret_inr in Hrun as [-> ->].
  exists n, out. split; [done|].
  unfold tensor_column in Hcol. simpl in Hcol.
  case_bool_decide as Hrange; [|done]. injection Hcol as <-.
  rewrite <- list_fmap_compose. apply Forall2_fmap_r, Forall_Forall2_diag, Forall_forall.
  intros row _ Hlen Hdiff. simpl.
  rewrite (@list_lookup_total_fmap nat Z Z.of_nat _ _) by (rewrite argsort_desc_length; lia).
  assert (runner_up row (Z.of_nat (argsort_desc row !!! 1%nat))) as Hru.
  { apply argsort_desc_second; [lia|done]. }
  split; [|done]. destruct Hru as (i & Hi & _ & Hne & _). intros Heq.
  apply Hne. change (Z.to_nat 1) with 1%nat in Heq.
  rewrite Hi in Heq. by apply Nat2Z.inj in Heq.
Qed.

(** [generate_target] returns whenever the input has a batch dimension and
    [get_logits] returns logits over at least two classes. *)
Lemma generate_target_returns (_input : Tensor) (st st' : State) (size0 : nat) sh out :
  shape (unsqueeze_example _input) = size0 :: sh →
  get_logits forward forward_train randn (unsqueeze_example _input) None None None
    (set_self (set_batch_size (Some (Z.of_nat size0))) st) = (inr out, st') →
  (2 ≤ dim1 out)%nat →
  ∃ target, generate_target forward forward_train randn _input 1 false st = (inr target, st').
Proof.
  intros Hshape Hlogits Hdim. unfold generate_target. rewrite Hshape.
  erewrite bind_run by reflexivity. erewrite bind_run by reflexivity.
  erewrite bind_run by apply Hlogits.
  unfold tensor_column. simpl. rewrite bool_decide_true by lia.
  erewrite bind_run by reflexivity. by eexists.
Qed.

End GenerateTarget.

(** The theorem on the four example rows: the targets are the classes
    ranked second. *)
Lemma generate_target_runner_up_witness :
  ∃ (size0 : nat) (out : Tensor2 Qc),
    get_logits Examples.example_forward Examples.example_forward_train Examples.example_randn
      (unsqueeze_example Examples.example_input) None None None
      (set_self (set_batch_size (Some (Z.of_nat size0))) Examples.example_state)
    = (inr out, set_self (set_batch_size (Some 4)) Examples.example_state) ∧
    Forall2 (λ row t,
               length row = dim1 out → top_scores_differ row →
               t ≠ Z.of_nat (argmax row) ∧ runner_up row t)
            (rows out) [1; 1; 2; 1].
Proof.
  apply (generate_target_runner_up Examples.example_forward Examples.example_forward_train
      Examples.example_randn
           Examples.example_input Examples.example_state).
  vm_compute. reflexivity.
Defined.

End TargetFacts.

(* ===================================================================== *)
(** * Randomized smoothing *)
(* ===================================================================== *)

Module LogitsFacts.
Import Py Torch Wrapper PyFacts.
Local Open Scope py_scope.

Lemma zip_with_noise_zero (l : list Qc) (noise : list Qc) :
  Forall (λ z, z = Q2Qc 0) noise → length noise = length l →
  zip_with Qcplus l noise = l.
Proof.
  intros Hz. revert l. induction Hz as [|z noise -> _ IH]; intros [|x l] Hlen;
    simpl in *; try done.
  rewrite IH by lia. f_equal. apply Qcplus_0_r.
Qed.

Lemma tensor2_div_one (t : Tensor2 Qc) : tensor2_div t (Q2Qc 1) = t.
Proof.
  destruct t as [d rs]. unfold tensor2_div. simpl. f_equal.
  rewrite <- (list_fmap_id rs) at 2. apply list_fmap_ext. intros _ r _.
  rewrite <- (list_fmap_id r) at 2. apply list_fmap_ext. intros _ x _. simpl.
  unfold Qcdiv. replace (/ Q2Qc 1)%Qc with (Q2Qc 1) by (by apply Qc_is_canon).
  apply Qcmult_1_r.
Qed.

Lemma keeps_self_bind {A B} (m : M State A) (k : A → M State B) :
  keeps_self m → (∀ a, keeps_self (k a)) → keeps_self (bind m k).
Proof.
  intros Hm Hk s r s'. unfold bind.
  destruct (m s) as [[e|a] s1] eqn:Hms.
  - intros [= <- <-]. by eapply Hm.
  - intros Hka. rewrite (Hk _ _ _ _ Hka). by eapply Hm.
Qed.

Lemma keeps_self_ret {A} (a : A) : keeps_self (ret a).
Proof. by intros s r s' [= <- <-]. Qed.

Lemma keeps_self_raise {A} (e : exn) : keeps_self (@raise State A e).
Proof. by intros s r s' [= <- <-]. Qed.

Lemma keeps_self_lift {A} (x : exn + A) : keeps_self (lift x).
Proof. by intros s r s' [= <- <-]. Qed.

Lemma keeps_self_get : keeps_self (@get State).
Proof. by intros s r s' [= <- <-]. Qed.

Lemma keeps_self_set_rng (f : nat → nat) : keeps_self (modify (set_rng f)).
Proof. by intros s r s' [= <- <-]. Qed.

Lemma keeps_self_collect {A} (n : nat) (m : M State A) :
  keeps_self m → keeps_self (collect n m).
Proof.
  intros Hm. induction n as [|n IH]; simpl; [apply keeps_self_ret|].
  apply keeps_self_bind; [done|]. intros x.
  apply keeps_self_bind; [done|]. intros xs. apply keeps_self_ret.
Qed.

Section GetLogits.
Context (forward : Net → Tensor → exn + Tensor2 Qc).
Context (forward_train : Net → Tensor → nat → (exn + Tensor2 Qc) * nat).
Context (randn : nat → Qc).

(** Noise of standard deviation 0 leaves the input as it is; the draws are
    consumed all the same. *)
Lemma add_noise_zero (_input : Tensor) (st : State) :
  add_noise randn _input (Q2Qc 0) st
  = (inr _input, set_rng (λ r, (r + length (entries _input))%nat) st).
Proof.
  unfold add_noise. erewrite bind_run by reflexivity.
  erewrite bind_run by reflexivity. unfold ret. f_equal. f_equal.
  destruct _input as [sh es]. simpl. f_equal.
  apply zip_with_noise_zero; [|by rewrite length_fmap, length_seq].
  apply Forall_fmap, Forall_forall. intros i _. simpl. apply Qcmult_0_l.
Qed.

(** A call of a deterministic network is the forward pass, and leaves the
    state as it is. *)
Lemma call_model_deterministic (_input : Tensor) (st : State) :
  deterministic forward forward_train (self st) →
  call_model forward forward_train _input st = (forward (_model (self st)) _input, st).
Proof.
  intros Hdet. unfold call_model. erewrite bind_run by reflexivity.
  destruct (training (_model (self st))) eqn:Htr; [|done].
  destruct Hdet as [Hdet|Hdet]; [congruence|].
  rewrite Hdet. simpl. unfold bind, modify, lift. simpl.
  destruct st as [m f r]. simpl. by destruct (forward (_model m) _input).
Qed.

(** C6. On a deterministic network, [get_logits] with randomized
    smoothing enabled, one sample and standard deviation 0, whether
    through the arguments or through the attributes of the wrapper,
    returns the logits of one forward pass of the network on the input
    itself, or the exception that pass raises; and that is what
    [get_logits] returns with randomized smoothing disabled on the same
    network. *)
Theorem get_logits_smoothing_degenerate (_input : Tensor) (st st2 : State)
    (rs rs2 : option bool) (sigma sigma2 : option Qc) (n n2 : option Z) :
  deterministic forward forward_train (self st) →
  _model (self st2) = _model (self st) →
  default (randomized_smooth (self st)) rs = true →
  default (rs_sigma (self st)) sigma = Q2Qc 0 →
  default (rs_n (self st)) n = 1 →
  default (randomized_smooth (self st2)) rs2 = false →
  (get_logits forward forward_train randn _input rs sigma n st).1
  = forward (_model (self st)) _input ∧
  (get_logits forward forward_train randn _input rs2 sigma2 n2 st2).1
  = forward (_model (self st)) _input.
Proof.
  intros Hdet Hnet Hrs Hsigma Hn Hrs2. split.
  - unfold get_logits. erewrite bind_run by reflexivity. rewrite Hrs, Hsigma, Hn.
    change (Z.to_nat 1) with 1%nat. unfold collect.
    unfold bind at 1 2 3. rewrite add_noise_zero.
    rewrite call_model_deterministic by done. simpl.
    destruct (forward (_model (self st)) _input) as [e|out]; simpl; [done|].
    f_equal. apply tensor2_div_one.
  - unfold get_logits. erewrite bind_run by reflexivity. rewrite Hrs2.
    rewrite call_model_deterministic by (unfold deterministic; by rewrite Hnet).
    simpl. by rewrite Hnet.
Qed.

Lemma call_model_keeps_self (_input : Tensor) :
  keeps_self (call_model forward forward_train _input).
Proof.
  unfold call_model. apply keeps_self_bind; [apply keeps_self_get|].
  intros s. destruct (training _); [|apply keeps_self_lift].
  apply keeps_self_bind; [apply keeps_self_set_rng|]. intros []. apply keeps_self_lift.
Qed.

Lemma add_noise_keeps_self (_input : Tensor) (std : Qc) :
  keeps_self (add_noise randn _input std).
Proof.
  unfold add_noise. apply keeps_self_bind; [apply keeps_self_get|]. intros s.
  apply keeps_self_bind; [apply keeps_self_set_rng|]. intros []. apply keeps_self_ret.
Qed.

(** [get_logits] does not change the object, however it ends. *)
Lemma get_logits_keeps_self (_input : Tensor) rs sigma n :
  keeps_self (get_logits forward forward_train randn _input rs sigma n).
Proof.
  unfold get_logits. apply keeps_self_bind; [apply keeps_self_get|]. intros s.
  destruct (default _ rs); [|apply call_model_keeps_self].
  apply keeps_self_bind; [|intros l; apply keeps_self_lift].
  apply keeps_self_collect, keeps_self_bind; [apply add_noise_keeps_self|].
  intros x. apply call_model_keeps_self.
Qed.

End GetLogits.

(** The theorem on a network whose logits are its input: smoothing asked
    for through the arguments against the plain call. *)
Lemma get_logits_smoothing_degenerate_witness :
  (get_logits Examples.echo_forward Examples.example_forward_train Examples.example_randn
     Examples.example_input (Some true) (Some (Q2Qc 0)) (Some 1) Examples.example_state).1
  = inr {| dim1 := 8; rows := [entries Examples.example_input] |} ∧
  (get_logits Examples.echo_forward Examples.example_forward_train Examples.example_randn
     Examples.example_input None None None Examples.example_state).1
  = inr {| dim1 := 8; rows := [entries Examples.example_input] |}.
Proof.
  apply (get_logits_smoothing_degenerate Examples.echo_forward
           Examples.example_forward_train Examples.example_randn Examples.example_input
           Examples.example_state Examples.example_state
           (Some true) None (Some (Q2Qc 0)) None (Some 1) None);
    [by left|reflexivity..].
Defined.

(** On that network the standard deviation matters: with 5 in place of 0
    the logits are not those of the plain call. *)
Lemma get_logits_smoothing_noise :
  (get_logits Examples.echo_forward Examples.example_forward_train Examples.example_randn
     Examples.example_input (Some true) (Some (Q2Qc 5)) (Some 1) Examples.example_state).1
  ≠ (get_logits Examples.echo_forward Examples.example_forward_train Examples.example_randn
       Examples.example_input None None None Examples.example_state).1.
Proof. vm_compute. discriminate. Qed.

End LogitsFacts.
(* ===================================================================== *)
(** * Checkpoints: paths, loading, saving *)
(* ===================================================================== *)

Module CheckpointFacts.
Import Py Torch Wrapper PyFacts.
Local Open Scope py_scope.

Lemma default_file_path_run (fa sa : option string) (st : State) (f : string) :
  effective_folder fa (self st) = Some f →
  default_file_path fa sa st
  = (inr (f +:+ name (self st) +:+ default (suffix (self st)) sa +:+ ".pth", f), st).
Proof.
  unfold default_file_path, effective_folder. intros Hf.
  erewrite bind_run by reflexivity. by rewrite Hf.
Qed.

Lemma default_file_path_inr (fa sa : option string) (st st' : State) pf :
  default_file_path fa sa st = (inr pf, st') →
  st' = st ∧ effective_folder fa (self st) = Some pf.2 ∧
  pf.1 = pf.2 +:+ name (self st) +:+ default (suffix (self st)) sa +:+ ".pth".
Proof.
  unfold default_file_path, effective_folder. intros Hrun.
  apply bind_inr in Hrun as (s & s1 & [-> ->]%get_inr & Hrun).
  destruct (match fa with Some f => Some f | None => folder_path (self st) end) as [f|];
    [|done].
  by apply ret_inr in Hrun as [-> ->].
Qed.

(** What is in the file system does not go away when a directory or a file
    is added. *)
Lemma path_exists_makedirs (p : string) (st st' : State) :
  makedirs p st = (inr tt, st') →
  self st' = self st ∧ files (fs st') = files (fs st) ∧ path_exists (fs st') p = true ∧
  ∀ k, is_dir (fs st) k = true → is_dir (fs st') k = true.
Proof.
  unfold makedirs. intros Hrun.
  apply bind_inr in Hrun as (s & s1 & [-> ->]%get_inr & Hrun).
  case_bool_decide as Hp; [done|].
  destruct (is_dir (fs st) (path_key p) || is_file (fs st) (path_key p)) eqn:Hex; [done|].
  case_bool_decide as Hanc; [done|].
  apply modify_inr in Hrun as ->. simpl. split; [done|]. split; [done|]. split.
  - unfold path_exists. rewrite bool_decide_false by done.
    destruct (path_key p) as [a parts] eqn:Hk. simpl.
    apply orb_true_iff. left. unfold is_dir. simpl. apply bool_decide_eq_true.
    destruct (decide (parts = [])) as [|Hne]; [by left|right].
    apply elem_of_union_r, elem_of_list_to_set. unfold ancestors. simpl.
    apply list_elem_of_fmap. exists (length parts). split; [by rewrite firstn_all|].
    apply elem_of_seq. destruct parts; [done|simpl; lia].
  - intros k. unfold is_dir. simpl. rewrite !bool_decide_eq_true.
    intros [?|?]; [by left|right]. by apply elem_of_union_l.
Qed.

Lemma torch_save_inr (obj : gmap string Tensor) (p : string) (st st' : State) :
  torch_save obj p st = (inr tt, st') →
  p ≠ "" ∧ self st' = self st ∧ dirs (fs st') = dirs (fs st) ∧
  files (fs st') = <[path_key p := StateDictFile obj]> (files (fs st)).
Proof.
  unfold torch_save. intros Hrun.
  apply bind_inr in Hrun as (s & s1 & [-> ->]%get_inr & Hrun).
  case_bool_decide as Hp; [done|].
  destruct (is_dir (fs st) (path_key p)); [done|].
  destruct (negb _); [done|].
  by apply modify_inr in Hrun as ->.
Qed.

Lemma path_exists_mono (fs1 fs2 : FileSystem) (p : string) :
  dirs fs1 ⊆ dirs fs2 → dom (files fs1) ⊆ dom (files fs2) →
  path_exists fs1 p = true → path_exists fs2 p = true.
Proof.
  unfold path_exists, is_dir, is_file. intros Hd Hf.
  rewrite !andb_true_iff, !orb_true_iff, !bool_decide_eq_true.
  intros [Hp [[?|?]|Hfile]]; (split; [done|]).
  - left. by left.
  - left. right. by apply Hd.
  - right. apply elem_of_dom, Hf. by apply elem_of_dom.
Qed.

(** A successful [save], taken apart: the path and the folder it
    resolved, and what it wrote. *)
Lemma save_inr (fp fa sa : option string) (features : bool) (st st' : State) :
  save fp fa sa features st = (inr tt, st') →
  ∃ path folder,
    match fp with
    | Some p => path = p ∧ folder = dirname p
    | None => effective_folder fa (self st) = Some folder ∧
              path = folder +:+ name (self st) +:+ default (suffix (self st)) sa +:+ ".pth"
    end ∧
    folder ≠ "" ∧ path ≠ "" ∧ self st' = self st ∧
    path_exists (fs st') folder = true ∧
    files (fs st') !! path_key path
    = Some (StateDictFile (state_dict (if features then "" else "classifier.") (_model (self st)))).
Proof.
  unfold save. intros Hrun.
  apply bind_inr in Hrun as ([path folder] & s1 & Hres & Hrun). simpl in Hrun.
  assert (s1 = st ∧
          match fp with
          | Some p => path = p ∧ folder = dirname p
          | None => effective_folder fa (self st) = Some folder ∧
                    path = folder +:+ name (self st) +:+ default (suffix (self st)) sa +:+ ".pth"
          end) as [-> Hresolved].
  { destruct fp as [p|].
    - by apply ret_inr in Hres as [[= -> ->] ->].
    - by apply default_file_path_inr in Hres as (-> & ? & ?). }
  apply bind_inr in Hrun as (s & s1 & [-> ->]%get_inr & Hrun).
  apply bind_inr in Hrun as ([] & s2 & Hmk & Hrun).
  apply bind_inr in Hrun as (s & s3 & [-> ->]%get_inr & Hrun).
  assert (self s2 = self st ∧ path_exists (fs s2) folder = true) as [Hself Hex].
  { unfold when in Hmk. destruct (path_exists (fs st) folder) eqn:Hex; simpl in Hmk.
    - by apply ret_inr in Hmk as [_ ->].
    - by apply path_exists_makedirs in Hmk as (? & _ & ? & _). }
  rewrite Hself in Hrun.
  replace (if features then state_dict "" (_model (self st))
           else state_dict "classifier." (_model (self st)))
    with (state_dict (if features then "" else "classifier.") (_model (self st))) in Hrun
    by by destruct features.
  apply torch_save_inr in Hrun as (Hpath & Hself' & Hdirs & Hfiles).
  exists path, folder. split; [done|].
  split. { intros ->. unfold path_exists in Hex. by rewrite bool_decide_true in Hex. }
  split; [done|]. split; [congruence|]. split.
  - eapply path_exists_mono; [| |done].
    + by rewrite Hdirs.
    + rewrite Hfiles, dom_insert. set_solver.
  - by rewrite Hfiles, lookup_insert_eq.
Qed.

Lemma string_app_assoc (a b c : string) : (a +:+ b) +:+ c = a +:+ b +:+ c.
Proof.
  induction a as [|x a IH]; [done|].
  change (String x ((a +:+ b) +:+ c) = String x (a +:+ b +:+ c)). by rewrite IH.
Qed.

(** The derived path is never the reserved word ['official']: it has a
    dot. *)
Lemma has_dot_app (a b : string) : has_dot b → has_dot (a +:+ b).
Proof.
  intros [n Hn]. exists (n + String.length a)%nat. by rewrite <- String.append_correct2.
Qed.

Lemma default_path_not_official (f n s : string) : f +:+ n +:+ s +:+ ".pth" ≠ "official".
Proof.
  intros Heq. assert (has_dot "official") as [k Hk].
  { rewrite <- Heq. do 3 apply has_dot_app. by exists 0%nat. }
  do 9 (destruct k as [|k]; [discriminate|]). discriminate.
Qed.

(** The claim of C8 fails: with the folder [/tmp/ckpt], the name [model]
    and an empty suffix, [save] writes [/tmp/ckptmodel.pth] and nothing at
    [/tmp/ckpt/model.pth]; and [load] looks for [/tmp/ckptmodel.pth] and
    does not find the checkpoint that is at [/tmp/ckpt/model.pth]. *)
Lemma default_path_not_joined :
  spec_path "/tmp/ckpt" "model" "" = "/tmp/ckpt/model.pth"
  ∧ (save None (Some "/tmp/ckpt") None true Examples.example_state).1 = inr tt
  ∧ files (fs (save None (Some "/tmp/ckpt") None true Examples.example_state).2)
      !! path_key (spec_path "/tmp/ckpt" "model" "") = None
  ∧ is_Some (files (fs (save None (Some "/tmp/ckpt") None true Examples.example_state).2)
               !! path_key "/tmp/ckptmodel.pth")
  ∧ is_Some (files (fs Examples.saved_state) !! path_key (spec_path "/tmp/ckpt" "model" ""))
  ∧ (load None (Some "/tmp/ckpt") None true Examples.saved_state).1
    = inl (FileNotFoundError "Model file not exist: /tmp/ckptmodel.pth").
Proof.
  repeat split; try (vm_compute; reflexivity); vm_compute; eauto.
Qed.

(** C8, amended. With no [file_path], [load] and [save] both use the path
    [folder_path + name + suffix + '.pth'], a plain concatenation in which
    the folder is the argument or else the attribute, and likewise the
    suffix: [load] behaves as when it is given that path; a [save] that
    returns has left the folder in existence, created when it was missing,
    and the state dictionary in the file of that path. No separator is
    put in: the path is [{dir}/{name}{suffix}.pth] when the folder is
    [dir/], written with its trailing separator. *)
Theorem default_path_concatenation (st : State) (fa sa : option string)
    (features : bool) (f : string) :
  effective_folder fa (self st) = Some f →
  let path := f +:+ name (self st) +:+ default (suffix (self st)) sa +:+ ".pth" in
  load None fa sa features st = load (Some path) None None features st
  ∧ (∀ st', save None fa sa features st = (inr tt, st') →
       path_exists (fs st') f = true ∧
       files (fs st') !! path_key path
       = Some (StateDictFile
                 (state_dict (if features then "" else "classifier.") (_model (self st)))))
  ∧ (path_exists (fs st) f = false →
     ∀ st', makedirs f st = (inr tt, st') →
       save None fa sa features st
       = torch_save (state_dict (if features then "" else "classifier.") (_model (self st)))
           path st')
  ∧ (∀ d, f = d +:+ "/" →
       path = spec_path d (name (self st)) (default (suffix (self st)) sa)).
Proof.
  intros Hf path. split; [|split; [|split]].
  - unfold load. rewrite bool_decide_false by apply default_path_not_official.
    erewrite bind_run by (by apply default_file_path_run). done.
  - intros st' (p & folder & [Hfolder ->] & _ & _ & _ & Hex & Hfile)%save_inr.
    assert (folder = f) as -> by congruence. done.
  - intros Hmissing st' Hmk. unfold save.
    erewrite bind_run by (by apply default_file_path_run). simpl.
    erewrite bind_run by reflexivity. rewrite Hmissing. simpl.
    erewrite bind_run by apply Hmk.
    erewrite bind_run by reflexivity.
    apply path_exists_makedirs in Hmk as (-> & _). by destruct features.
  - intros d ->. subst path. unfold spec_path. apply string_app_assoc.
Qed.

(** The theorem on the example model, with the folder [/tmp/ckpt/]. *)
Lemma default_path_concatenation_witness :
  load None (Some "/tmp/ckpt/") None true Examples.saved_state
  = load (Some "/tmp/ckpt/model.pth") None None true Examples.saved_state
  ∧ "/tmp/ckpt/model.pth" = spec_path "/tmp/ckpt" "model" "".
Proof.
  destruct (default_path_concatenation Examples.saved_state (Some "/tmp/ckpt/") None true
              "/tmp/ckpt/" eq_refl) as (Hload & _ & _ & Hspec).
  split; [exact Hload|]. exact (Hspec "/tmp/ckpt" eq_refl).
Defined.

(** The claim of C4 fails for the path [official]: no such file exists,
    yet [load] raises [NotImplementedError], not a file-not-found error. *)
Lemma load_official_not_file_not_found :
  path_exists (fs Examples.example_state) "official" = false
  ∧ load (Some "official") None None true Examples.example_state
    = (inl (NotImplementedError "model has no official weights."), Examples.example_state)
  ∧ load (Some "official") None None true Examples.example_state
    ≠ (inl (FileNotFoundError "Model file not exist: official"), Examples.example_state).
Proof.
  split; [by vm_compute|]. split; [reflexivity|]. by vm_compute.
Qed.

(** C4, amended. When the path [load] resolves does not exist -- the
    [file_path] it is given, other than the reserved word ['official'], or
    else the path derived from folder, name and suffix -- [load] raises
    [FileNotFoundError] with the message ['Model file not exist: '] followed
    by that path, and the state is as before the call: no parameter of the
    network has changed. *)
Theorem load_missing_file (st : State) (fp fa sa : option string) (features : bool)
    (path : string) :
  match fp with
  | Some p => p = path ∧ p ≠ "official"
  | None => ∃ f, effective_folder fa (self st) = Some f ∧
                 path = f +:+ name (self st) +:+ default (suffix (self st)) sa +:+ ".pth"
  end →
  path_exists (fs st) path = false →
  load fp fa sa features st
  = (inl (FileNotFoundError ("Model file not exist: " +:+ path)), st).
Proof.
  intros Hpath Hmissing.
  assert (load_file path features st
          = (inl (FileNotFoundError ("Model file not exist: " +:+ path)), st)) as Hfile.
  { unfold load_file. erewrite bind_run by reflexivity. by rewrite Hmissing. }
  unfold load. destruct fp as [p|].
  - destruct Hpath as [-> Hne]. by rewrite bool_decide_false.
  - destruct Hpath as (f & Hf & ->).
    erewrite bind_run by (by apply default_file_path_run). done.
Qed.

(** The theorem on the example model and a path that is not there. *)
Lemma load_missing_file_witness :
  load (Some "/tmp/ckpt/absent.pth") None None true Examples.saved_state
  = (inl (FileNotFoundError "Model file not exist: /tmp/ckpt/absent.pth"),
     Examples.saved_state).
Proof.
  apply (load_missing_file Examples.saved_state (Some "/tmp/ckpt/absent.pth") None None true
           "/tmp/ckpt/absent.pth").
  - split; [reflexivity|]. discriminate.
  - vm_compute. reflexivity.
Defined.

(** The state dictionary of the whole network holds the value of every
    parameter under its name. *)
Lemma state_dict_full (net : Net) : state_dict "" net = data <$> parameters net.
Proof.
  unfold state_dict. simpl.
  rewrite <- (list_to_map_to_list (data <$> parameters net)).
  rewrite map_to_list_fmap. f_equal.
Qed.

Lemma load_params_lookup (sd : gmap string Tensor) (ps : gmap string Param) (k : string) :
  load_params "" sd ps !! k
  = (λ p, match sd !! k with
          | Some t => if decide (shape t = shape (data p)) then copy_ t p else p
          | None => p
          end) <$> ps !! k.
Proof.
  unfold load_params. rewrite map_lookup_imap. by destruct (ps !! k).
Qed.

(** Loading the state dictionary of one parameter set into another of the
    same shapes passes the strict check and copies every value. *)
Lemma load_state_dict_same_shapes (ps ps' : gmap string Param) :
  same_shapes ps ps' →
  strict_ok "" (data <$> ps) ps' = true ∧
  data <$> load_params "" (data <$> ps) ps' = data <$> ps.
Proof.
  intros Hshapes. split.
  - unfold strict_ok. apply bool_decide_eq_true_2. split.
    + intros k p' Hk. unfold param_ok. simpl. rewrite lookup_fmap.
      specialize (Hshapes k). rewrite Hk in Hshapes.
      destruct (ps !! k) as [p|]; [|done]. simpl in *.
      apply bool_decide_eq_true_2. congruence.
    + intros k t Hk. simpl. rewrite lookup_fmap in Hk.
      specialize (Hshapes k). destruct (ps !! k) as [p|]; [|done].
      change ("" +:+ k) with k. destruct (ps' !! k); [eauto|done].
  - apply map_eq. intros k. rewrite !lookup_fmap, load_params_lookup, lookup_fmap.
    specialize (Hshapes k).
    destruct (ps !! k) as [p|], (ps' !! k) as [p'|]; simpl in *; try done.
    rewrite decide_True by congruence. done.
Qed.

(** C5. Round trip: once [save] has written the full parameter state to a
    path -- the path it is given, or the one it derives --, and the
    parameters have been replaced by any others of the same names and
    shapes, [load] from that path returns and every parameter has the
    value it had when it was saved. *)
Theorem save_load_round_trip (st st1 : State) (fp fa sa : option string)
    (ps' : gmap string Param) :
  save fp fa sa true st = (inr tt, st1) →
  same_shapes (parameters (_model (self st))) ps' →
  ∃ st3,
    load fp fa sa true (perturb ps' st1) = (inr tt, st3) ∧
    data <$> parameters (_model (self st3)) = data <$> parameters (_model (self st)).
Proof.
  intros (path & folder & Hres & Hfolder & Hpath & Hself & _ & Hfile)%save_inr Hshapes.
  rewrite state_dict_full in Hfile.
  destruct (load_state_dict_same_shapes _ _ Hshapes) as [Hok Hdata].
  set (sd := data <$> parameters (_model (self st))) in *.
  set (st3 := set_self (set_net (set_parameters (load_params "" sd))) (perturb ps' st1)).
  assert (load_file path true (perturb ps' st1) = (inr tt, st3)) as Hload.
  { unfold load_file. erewrite bind_run by reflexivity.
    assert (path_exists (fs (perturb ps' st1)) path = true) as ->.
    { unfold path_exists, is_file. rewrite bool_decide_false by done.
      change (fs (perturb ps' st1)) with (fs st1). rewrite Hfile.
      rewrite (bool_decide_true (is_Some _)) by eauto. apply orb_true_r. }
    apply try_except_run.
    assert (torch_load path (perturb ps' st1) = (inr sd, perturb ps' st1)) as Htl.
    { unfold torch_load. erewrite bind_run by reflexivity. simpl. by rewrite Hfile. }
    erewrite bind_run by apply Htl.
    unfold load_state_dict. erewrite bind_run by reflexivity.
    erewrite bind_run by reflexivity. simpl. by rewrite Hok. }
  exists st3. split; [|exact Hdata].
  unfold load. destruct fp as [p|].
  - destruct Hres as [-> ->].
    rewrite bool_decide_false; [done|]. intros ->. by apply Hfolder.
  - destruct Hres as [Hf ->].
    pose proof (default_file_path_run fa sa (perturb ps' st1) folder) as Hdef.
    unfold effective_folder in Hdef, Hf. simpl in Hdef. rewrite Hself in Hdef.
    specialize (Hdef Hf). by rewrite (bind_run _ _ _ _ _ Hdef).
Qed.

(** The theorem on the example model: saved, its two parameters replaced
    by others, loaded again. *)
Lemma save_load_round_trip_witness :
  ∃ st3,
    load (Some "/tmp/ckpt/model.pth") None None true
      (perturb {[ "classifier.fc.weight" :=
                    mkParam (mkTensor [3; 2]%nat (Examples.qc <$> [7; 7; 7; 7; 7; 7])) true None;
                  "classifier.fc.bias" :=
                    mkParam (mkTensor [3]%nat (Examples.qc <$> [5; 6; 7])) false None ]}
               Examples.saved_state) = (inr tt, st3) ∧
    data <$> parameters (_model (self st3))
    = data <$> parameters (_model (self Examples.example_state)).
Proof.
  apply (save_load_round_trip Examples.example_state Examples.saved_state
           (Some "/tmp/ckpt/model.pth") None None).
  - vm_compute. reflexivity.
  - intros k. simpl.
    destruct (decide (k = "classifier.fc.weight")) as [->|Hw]; [reflexivity|].
    destruct (decide (k = "classifier.fc.bias")) as [->|Hb]; [reflexivity|].
    rewrite !lookup_insert_ne by done. by rewrite !lookup_singleton_ne by done.
Defined.

End CheckpointFacts.

(* ===================================================================== *)
(** * Construction, modes and gradient flags *)
(* ===================================================================== *)

Module LifecycleFacts.
Import Py Torch Wrapper PyFacts CheckpointFacts LogitsFacts.
Local Open Scope py_scope.

Lemma for_modify {A} (l : list A) (f : A → State → State) (st : State) :
  for_ l (λ x, modify (f x)) st = (inr tt, foldl (λ s x, f x s) st l).
Proof.
  revert st. induction l as [|x l IH]; intros st; simpl; [done|].
  erewrite bind_run by reflexivity. apply IH.
Qed.

(** [activate_params] always returns, and changes the flags only. *)
Lemma activate_params_run (l : list (list string)) (st : State) :
  activate_params l st = (inr tt, perturb (activate l (parameters (_model (self st)))) st).
Proof.
  unfold activate_params. erewrite bind_run by reflexivity.
  change (set_self (set_net (set_parameters (fmap (set_requires_grad false)))) st)
    with (perturb (set_requires_grad false <$> parameters (_model (self st))) st).
  unfold activate.
  generalize (set_requires_grad false <$> parameters (_model (self st))).
  induction l as [|g l IH]; intros ps; simpl; [done|].
  assert (∀ ps, for_ g (λ param, modify (set_self (set_net (set_parameters
                  (alter (set_requires_grad true) param))))) (perturb ps st)
                = (inr tt, perturb (foldl (λ ps k, alter (set_requires_grad true) k ps) ps g) st))
    as Hgroup.
  { clear. intros ps. revert ps. induction g as [|k g IH]; intros ps; simpl; [done|].
    erewrite bind_run by reflexivity. apply IH. }
  erewrite bind_run by apply Hgroup. apply IH.
Qed.

Lemma activate_nil_off (ps : gmap string Param) :
  map_Forall (λ _ p, requires_grad p = false) (activate [] ps).
Proof.
  unfold activate. simpl. intros k p. rewrite lookup_fmap.
  destruct (ps !! k); simpl; [|done]. by intros [= <-].
Qed.

Lemma eval_run (st : State) :
  eval st = (inr tt,
             set_self (set_net (set_training false))
               (set_self (set_model (fmap (λ _, false)))
                  (set_self (set_net (set_training false)) st))).
Proof. reflexivity. Qed.

Lemma train_run (mode : bool) (st : State) :
  train mode st = (inr tt,
                   set_self (set_net (set_training mode))
                     (set_self (set_model (fmap (λ _, mode)))
                        (set_self (set_net (set_training mode)) st))).
Proof. reflexivity. Qed.

(** After [eval] the network is quiescent as soon as its gradient flags
    are off. *)
Lemma eval_quiescent (st st' : State) r :
  eval st = (inr r, st') →
  map_Forall (λ _ p, requires_grad p = false) (parameters (_model (self st))) →
  quiescent (self st').
Proof.
  rewrite eval_run. intros [= _ <-] Hoff. split; [done|]. split; [|done].
  simpl. by destruct (model (self st)).
Qed.

Lemma load_params_requires_grad pre sd (ps : gmap string Param) :
  map_Forall (λ _ p, requires_grad p = false) ps →
  map_Forall (λ _ p, requires_grad p = false) (load_params pre sd ps).
Proof.
  intros Hoff k p. unfold load_params. rewrite map_lookup_imap.
  destruct (ps !! k) as [p0|] eqn:Hk; simpl; [|done]. intros [= <-].
  specialize (Hoff k p0 Hk). simpl in Hoff.
  destruct (strip_prefix pre k ≫= _); [|done]. by destruct (decide _).
Qed.

(** A [load] that returns has changed the values of parameters only. *)
Lemma load_inr (fp fa sa : option string) (features : bool) (st st' : State) :
  load fp fa sa features st = (inr tt, st') →
  ∃ pre sd, st' = set_self (set_net (set_parameters (load_params pre sd))) st.
Proof.
  assert (∀ path, load_file path features st = (inr tt, st') →
            ∃ pre sd, st' = set_self (set_net (set_parameters (load_params pre sd))) st)
    as Hfile.
  { intros path. unfold load_file. intros Hrun.
    apply bind_inr in Hrun as (s & s1 & [-> ->]%get_inr & Hrun).
    destruct (path_exists (fs st) path); [|done].
    unfold try_except in Hrun.
    destruct (bind (torch_load path) _ st) as [[e|[]] s2] eqn:Hbody; [done|].
    injection Hrun as <-.
    apply bind_inr in Hbody as (sd & s1 & Htl & Hls).
    assert (s1 = st) as ->.
    { unfold torch_load in Htl.
      apply bind_inr in Htl as (s & s3 & [-> ->]%get_inr & Htl).
      destruct (files (fs st) !! path_key path) as [[obj|]|]; [|done|].
      - by apply ret_inr in Htl as [_ ->].
      - by destruct (is_dir (fs st) (path_key path)). }
    unfold load_state_dict in Hls.
    apply bind_inr in Hls as (s & s1 & [-> ->]%get_inr & Hls).
    apply bind_inr in Hls as ([] & s1 & ->%modify_inr & Hls).
    destruct (strict_ok _ _ _); [|done]. apply ret_inr in Hls as [_ ->]. eauto. }
  unfold load. destruct fp as [p|].
  - case_bool_decide; [|by apply Hfile].
    unfold load_official_weights. intros Hrun.
    by apply bind_inr in Hrun as (s & s1 & [-> ->]%get_inr & Hrun).
  - intros Hrun. apply bind_inr in Hrun as (pf & s1 & Hdef & Hrun).
    apply default_file_path_inr in Hdef as (-> & _). by eapply Hfile.
Qed.

Section Construction.
Context (env : Env).

Lemma get_parallel_inr (st st' : State) p :
  get_parallel env st = (inr p, st') → st' = st.
Proof.
  unfold get_parallel, char_at. intros Hrun.
  apply bind_inr in Hrun as (s & s1 & [-> ->]%get_inr & Hrun).
  case_bool_decide; [|by apply ret_inr in Hrun as [_ ->]].
  destruct (dataset_truthy (dataset (self st))).
  - destruct (dataset (self st)); [done..|].
    case_bool_decide; by apply ret_inr in Hrun as [_ ->].
  - apply bind_inr in Hrun as (c0 & s1 & Hc0 & Hrun).
    destruct (String.get 0 (name (self st))); [|done]. apply ret_inr in Hc0 as [_ ->].
    case_bool_decide; [|by apply ret_inr in Hrun as [_ ->]].
    apply bind_inr in Hrun as (c2 & s1 & Hc2 & Hrun).
    destruct (String.get 2 (name (self st))); [|done]. apply ret_inr in Hc2 as [_ ->].
    case_bool_decide; by apply ret_inr in Hrun as [_ ->].
Qed.

(** A construction that has succeeded, taken apart: what the dataset
    resolved, the attributes stored, and the state of the network. *)
Lemma init_inr (a : InitArgs) (fs0 : FileSystem) (rng0 : nat) (st : State) :
  __init__ env a fs0 rng0 = inr st →
  ∃ folder nc lw,
    resolve_dataset env a = inr (folder, nc, lw) ∧
    loss_weights (self st) = lw ∧ num_classes (self st) = nc ∧
    folder_path (self st) = folder ∧ criterion (self st) = define_criterion lw ∧
    dataset (self st) = arg_dataset a ∧ arg_official a = false ∧
    quiescent (self st).
Proof.
  unfold __init__. intros Hinit.
  destruct (resolve_dataset env a) as [e|[[folder nc] lw]]; [done|].
  destruct (arg_model_class a nc) as [e|net]; [done|].
  match type of Hinit with
  | match ?rest ?s0 with _ => _ end = _ =>
      destruct (rest s0) as [[e|[]] s] eqn:Hrun; [done|]; set (st0 := s0) in *
  end.
  injection Hinit as ->.
  apply bind_inr in Hrun as ([] & s1 & Hact & Hrun).
  rewrite activate_params_run in Hact. injection Hact as <-.
  apply bind_inr in Hrun as (parallel & s2 & Hpar & Hrun).
  apply get_parallel_inr in Hpar as ->.
  apply bind_inr in Hrun as ([] & s3 & ->%modify_inr & Hrun).
  apply bind_inr in Hrun as ([] & s4 & Hoff & Hrun).
  assert (arg_official a = false ∧ s4 = set_self (set_model (λ _, parallel))
            (perturb (activate [] (parameters (_model (self st0)))) st0)) as [Hofficial ->].
  { unfold when in Hoff. destruct (arg_official a).
    - unfold load in Hoff. simpl in Hoff. unfold load_official_weights in Hoff.
      by apply bind_inr in Hoff as (s & s5 & [-> ->]%get_inr & Hoff).
    - by apply ret_inr in Hoff as [_ ->]. }
  apply bind_inr in Hrun as ([] & s5 & Hpre & Hrun).
  apply bind_inr in Hrun as ([] & s6 & Hcuda & Hrun).
  assert (s6 = s5) as ->.
  { unfold when, cuda in Hcuda. destruct (negb _); by apply ret_inr in Hcuda as [_ ->]. }
  assert (∃ f, s5 = set_self (set_net (set_parameters f))
                      (set_self (set_model (λ _, parallel))
                         (perturb (activate [] (parameters (_model (self st0)))) st0))
               ∧ map_Forall (λ _ p, requires_grad p = false)
                   (f (activate [] (parameters (_model (self st0))))))
    as (f & -> & Hflags).
  { unfold when in Hpre. destruct (arg_pretrain a).
    - apply load_inr in Hpre as (pre & sd & ->). exists (load_params pre sd).
      split; [done|]. apply load_params_requires_grad, activate_nil_off.
    - apply ret_inr in Hpre as [_ ->]. exists id. split; [done|]. apply activate_nil_off. }
  exists folder, nc, lw.
  pose proof (eval_quiescent _ _ _ Hrun Hflags) as Hq.
  rewrite eval_run in Hrun. injection Hrun as <-. done.
Qed.

Context (forward : Net → Tensor → exn + Tensor2 Qc).
Context (forward_train : Net → Tensor → nat → (exn + Tensor2 Qc) * nat).
Context (randn : nat → Qc).
Context (cross_entropy : option Tensor → Tensor2 Qc → list Z → exn + Q).

(** C10. A wrapper constructed with no dataset and [loss_weights] left at
    its default keeps the string ['dataset'] as its [loss_weights]
    attribute; and as long as the attribute is that string, every call of
    the criterion raises (an [AttributeError], with the state as it was),
    and so does every call of [loss]: no call returns a loss value. *)
Theorem sentinel_loss_weights_raise (a : InitArgs) (fs0 : FileSystem) (rng0 : nat)
    (st0 : State) :
  __init__ env a fs0 rng0 = inr st0 →
  arg_dataset a = DatasetNone →
  arg_loss_weights a = LossWeightsStr "dataset" →
  loss_weights (self st0) = LossWeightsStr "dataset" ∧
  ∀ st, loss_weights (self st) = loss_weights (self st0) →
    (∀ _output _label,
       loss_fn cross_entropy _output _label st
       = (inl (AttributeError "'str' object has no attribute 'device'"), st)) ∧
    (∀ _input _label amp,
       ∃ e, (loss forward forward_train randn cross_entropy _input _label amp st).1 = inl e).
Proof.
  intros (folder & nc & lw & Hres & Hlw & _)%init_inr Hds Hw.
  unfold resolve_dataset in Hres. rewrite Hds in Hres. simpl in Hres.
  injection Hres as _ _ <-. rewrite Hw in Hlw.
  split; [done|]. intros st Hst. rewrite Hlw in Hst.
  assert (∀ _output _label,
            loss_fn cross_entropy _output _label st
            = (inl (AttributeError "'str' object has no attribute 'device'"), st)) as Hfn.
  { intros out lab. unfold loss_fn. erewrite bind_run by reflexivity. by rewrite Hst. }
  split; [done|]. intros _input _label amp. unfold loss.
  destruct (call forward forward_train randn _input amp st) as [[e|out] s1] eqn:Hcall.
  - exists e. by erewrite bind_raise.
  - erewrite bind_run by done. unfold loss_fn. erewrite bind_run by reflexivity.
    assert (self s1 = self st) as ->; [|rewrite Hst; by eexists].
    unfold call in Hcall.
    eapply (get_logits_keeps_self forward forward_train randn _input None None None).
    destruct amp; exact Hcall.
Qed.

End Construction.

(** The theorem on the constructor called with its defaults. *)
Lemma sentinel_loss_weights_raise_witness :
  ∃ st0,
    __init__ Examples.example_env Examples.default_args Examples.empty_fs 0 = inr st0 ∧
    loss_weights (self st0) = LossWeightsStr "dataset" ∧
    ∀ st, loss_weights (self st) = loss_weights (self st0) →
      (∀ _output _label,
         loss_fn (λ _ _ _, inr 0%Q) _output _label st
         = (inl (AttributeError "'str' object has no attribute 'device'"), st)) ∧
      (∀ _input _label amp,
         ∃ e, (loss Examples.example_forward Examples.example_forward_train Examples.example_randn
             (λ _ _ _, inr 0%Q)
                 _input _label amp st).1 = inl e).
Proof.
  eexists. split; [vm_compute; reflexivity|].
  eapply (sentinel_loss_weights_raise Examples.example_env Examples.example_forward
      Examples.example_forward_train
            Examples.example_randn (λ _ _ _, inr 0%Q) Examples.default_args
            Examples.empty_fs 0); reflexivity.
Defined.

End LifecycleFacts.

(* ===================================================================== *)
(** * The training loop *)
(* ===================================================================== *)

Module TrainFacts.
Import Py Torch Wrapper PyFacts CheckpointFacts LogitsFacts LifecycleFacts.
Local Open Scope py_scope.

(** ** The record as a list *)














(** ** The loop *)

Lemma foldM_preserves {A B} (body : B → A → M State B) (I : State → Prop) :
  (∀ acc x, preserves I (body acc x)) → ∀ l acc, preserves I (foldM body l acc).
Proof.
  intros Hbody l. induction l as [|x l IH]; intros acc s r s' Hrun Hs; simpl in Hrun.
  - by apply ret_inr in Hrun as [_ ->].
  - apply bind_inr in Hrun as (acc' & s1 & Hx & Hrun).
    eapply IH; [done|]. by eapply Hbody.
Qed.

(** When every turn of a loop ends in [I], so does a loop of at least one
    turn. *)
Lemma foldM_establishes {A B} (body : B → A → M State B) (I : State → Prop) :
  (∀ acc x s acc' s', body acc x s = (inr acc', s') → I s') →
  ∀ l acc s acc' s', l ≠ [] → foldM body l acc s = (inr acc', s') → I s'.
Proof.
  intros Hbody l. induction l as [|x l IH]; intros acc s acc' s' Hne Hrun; [done|].
  simpl in Hrun. apply bind_inr in Hrun as (acc1 & s1 & Hx & Hrun).
  destruct l as [|y l].
  - apply ret_inr in Hrun as [_ ->]. by eapply Hbody.
  - by eapply IH.
Qed.

Section Loop.
Context (forward : Net → Tensor → exn + Tensor2 Qc).
Context (forward_train : Net → Tensor → nat → (exn + Tensor2 Qc) * nat).
Context (randn : nat → Qc).
Context (cross_entropy : option Tensor → Tensor2 Qc → list Z → exn + Q).
Context (percent : Z → Z → Q).
Context (Batch : Type).
Context (dataset_loader : Dataset → string → exn + list Batch).
Context (dataset_get_data : Dataset → Batch → string → M State (Tensor * list Z)).
Context (unpack : Batch → exn + (Tensor * list Z)).
Context (backward_step : bool → Q → M State unit).
Context (optimizer_zero_grad : M State unit).
Context (lr_scheduler_step : M State unit).

Local Abbreviation train_epoch' :=
  (train_epoch forward forward_train randn percent Batch backward_step
     optimizer_zero_grad lr_scheduler_step).
Local Abbreviation _train' :=
  (_train forward forward_train randn cross_entropy percent Batch dataset_loader
     dataset_get_data unpack backward_step optimizer_zero_grad lr_scheduler_step).
Local Abbreviation _validate' :=
  (_validate forward forward_train randn cross_entropy percent Batch dataset_loader
     dataset_get_data unpack).

(** The callables [_train] works with, the defaults put in. *)
Local Abbreviation get_data_of a :=
  (default (get_data Batch dataset_get_data unpack) (get_data_arg Batch a)).
Local Abbreviation loss_fn_of a :=
  (default (loss forward forward_train randn cross_entropy) (loss_fn_arg Batch a)).
Local Abbreviation validate_func_of a :=
  (default (λ loader gd lf, _validate' true loader (Some gd) (Some lf))
           (validate_func Batch a)).
Local Abbreviation save_fn_of a :=
  (default (λ fp fo su, save fp fo su true) (save_fn Batch a)).

(** What the validation point after an epoch does. *)
Lemma validate_and_save_inr (a : TrainArgs Batch) gd lf vf sf e loc st loc' st' :
  validate_and_save Batch a gd lf vf sf e loc st = (inr loc', st') →
  meters loc' = meters loc ∧
  if decide (scheduled (validate_interval Batch a) (epoch Batch a) e) then
    ∃ r s1,
      vf (loader_valid Batch a) gd lf st = (inr r, s1) ∧
      trace loc' = trace loc ++ point_events (save_arg Batch a) e r.1.2 (best_acc loc) ∧
      best_acc loc' = new_best r.1.2 (best_acc loc) ∧
      (if Q_geb r.1.2 (best_acc loc) && save_arg Batch a
       then sf (file_path_arg Batch a) (folder_path_arg Batch a) (suffix_arg Batch a) s1
            = (inr tt, st')
       else st' = s1)
  else loc' = loc ∧ st' = st.
Proof.
  unfold validate_and_save, scheduled. intros Hrun.
  destruct (decide (validate_interval Batch a ≠ 0 ∧ _)) as [[Hvi Hsch]|Hno].
  - rewrite bool_decide_false in Hrun by done. simpl in Hrun.
    rewrite bool_decide_true in Hrun by done.
    apply bind_inr in Hrun as (r & s1 & Hv & Hrun). simpl in Hrun.
    unfold point_events, new_best.
    destruct (Q_geb r.1.2 (best_acc loc)) eqn:Hge; simpl in Hrun.
    + destruct (save_arg Batch a) eqn:Hsv.
      * apply bind_inr in Hrun as ([] & s2 & Hsave & Hrun).
        apply ret_inr in Hrun as [-> ->]. simpl.
        split; [done|]. exists r, s1. rewrite Hge. simpl. by rewrite <- app_assoc.
      * apply ret_inr in Hrun as [-> ->]. simpl.
        split; [done|]. exists r, s1. rewrite Hge. done.
    + apply ret_inr in Hrun as [-> ->]. simpl.
      split; [done|]. exists r, s1. rewrite Hge. done.
  - destruct (bool_decide (validate_interval Batch a = 0)) eqn:Hvi; simpl in Hrun.
    + by apply ret_inr in Hrun as [-> ->].
    + apply bool_decide_eq_false in Hvi.
      rewrite bool_decide_false in Hrun by (intros ?; apply Hno; done).
      by apply ret_inr in Hrun as [-> ->].
Qed.

(** One epoch, taken apart: the state [sq] after [eval] and
    [activate_params([])], quiescent; the state [sl] after the step of the
    schedule; then the validation point. *)
Lemma train_epoch_inr (a : TrainArgs Batch) loader gd lf vf sf loc e st loc' st' :
  train_epoch' a loader gd lf vf sf loc e st = (inr loc', st') →
  ∃ sq sl ms,
    quiescent (self sq) ∧
    when (lr_scheduler Batch a) lr_scheduler_step sq = (inr tt, sl) ∧
    validate_and_save Batch a gd lf vf sf e
      {| best_acc := best_acc loc; meters := ms; trace := trace loc |} sl = (inr loc', st').
Proof.
  unfold train_epoch. intros Hrun.
  apply bind_inr in Hrun as ([] & s1 & _ & Hrun).
  apply bind_inr in Hrun as ([] & s2 & _ & Hrun).
  apply bind_inr in Hrun as ([] & s3 & _ & Hrun).
  apply bind_inr in Hrun as ([] & s4 & _ & Hrun).
  apply bind_inr in Hrun as (ms & s5 & _ & Hrun).
  apply bind_inr in Hrun as ([] & s6 & Heval & Hrun).
  apply bind_inr in Hrun as ([] & s7 & Hact & Hrun).
  apply bind_inr in Hrun as ([] & s8 & Hlr & Hrun).
  exists s7, s8, ms. split; [|done].
  rewrite activate_params_run in Hact. injection Hact as <-.
  rewrite eval_run in Heval. injection Heval as <-.
  split; [done|]. split; [simpl; by destruct (model (self s5))|].
  apply activate_nil_off.
Qed.


(** A [_train] that returns, taken apart: the first validation, the loop
    over the epochs, and the final [zero_grad]. *)
Lemma train_inr (a : TrainArgs Batch) (st st' : State) (tr : list Event) :
  _train' a st = (inr tr, st') →
  ∃ loader r0 s0 loc s1,
    validate_func_of a (loader_valid Batch a) (get_data_of a) (loss_fn_of a) st = (inr r0, s0) ∧
    foldM (train_epoch' a loader (get_data_of a) (loss_fn_of a) (validate_func_of a)
             (save_fn_of a))
          (range (epoch Batch a))
          {| best_acc := r0.1.2; meters := meters_reset; trace := [] |} s0 = (inr loc, s1) ∧
    zero_grad s1 = (inr tt, st') ∧ tr = trace loc.
Proof.
  unfold _train. intros Hrun.
  apply bind_inr in Hrun as (loader & s & Hloader & Hrun).
  assert (s = st) as ->.
  { destruct (loader_train Batch a); [by apply ret_inr in Hloader as [_ ->]|].
    unfold self_dataset_loader in Hloader.
    apply bind_inr in Hloader as (? & ? & [-> ->]%get_inr & Hloader).
    destruct (dataset (self st)); [done..|]. by apply lift_inr in Hloader as [_ ->]. }
  apply bind_inr in Hrun as (r0 & s0 & Hv & Hrun).
  apply bind_inr in Hrun as (loc & s1 & Hloop & Hrun).
  apply bind_inr in Hrun as ([] & s2 & Hzero & Hrun).
  apply ret_inr in Hrun as [-> ->]. by exists loader, r0, s0, loc, s1.
Qed.


(** ** Gradient flags and mode *)

Lemma zero_grad_quiescent (st st' : State) :
  zero_grad st = (inr tt, st') → quiescent (self st) → quiescent (self st').
Proof.
  intros ->%modify_inr (Ht & Hm & Hoff). split; [done|]. split; [done|].
  simpl. intros k p. rewrite lookup_fmap.
  destruct (parameters (_model (self st)) !! k) as [p0|] eqn:Hk; [|done].
  simpl. intros [= <-]. by apply (Hoff k p0).
Qed.

Lemma keeps_self_preserves {A} (m : M State A) (I : Model → Prop) :
  keeps_self m → preserves (λ s, I (self s)) m.
Proof. intros Hm s r s' Hrun Hs. by rewrite (Hm _ _ _ Hrun). Qed.

(** [save] keeps the object, and so the flags. *)
Lemma save_preserves fp fa sa features (I : Model → Prop) :
  preserves (λ s, I (self s)) (save fp fa sa features).
Proof.
  intros s [] s' (_ & _ & _ & _ & _ & Hself & _)%save_inr Hs. by rewrite Hself.
Qed.

Lemma accuracy_keeps_self out lab topk : keeps_self (accuracy percent out lab topk).
Proof.
  assert (∀ nc b c, keeps_self (accuracy_res percent nc b c topk)) as Hres.
  { intros nc b c. induction topk as [|k topk IH]; simpl; [apply keeps_self_ret|].
    apply keeps_self_bind.
    - case_bool_decide; [apply keeps_self_ret|].
      apply keeps_self_bind; [apply keeps_self_lift|]. intros flat.
      case_bool_decide; [apply keeps_self_raise|apply keeps_self_ret].
    - intros r. apply keeps_self_bind; [done|]. intros res. apply keeps_self_ret. }
  unfold accuracy. apply keeps_self_bind; [apply keeps_self_get|]. intros s.
  apply keeps_self_bind; [apply keeps_self_lift|]. intros m.
  apply keeps_self_bind.
  { destruct (num_classes (self s)); [apply keeps_self_ret|apply keeps_self_raise]. }
  intros nc. apply keeps_self_bind; [apply keeps_self_lift|]. intros pred.
  apply keeps_self_bind; [apply keeps_self_lift|]. intros labels. apply Hres.
Qed.

Lemma loss_keeps_self _input _label amp :
  keeps_self (loss forward forward_train randn cross_entropy _input _label amp).
Proof.
  unfold loss. apply keeps_self_bind.
  { unfold call. destruct amp; apply get_logits_keeps_self. }
  intros out. unfold loss_fn. apply keeps_self_bind; [apply keeps_self_get|]. intros s.
  apply keeps_self_bind; [|intros ?; apply keeps_self_lift].
  destruct (loss_weights (self s)); [apply keeps_self_raise|apply keeps_self_ret..].
Qed.

(** The validation of the wrapper keeps the network quiescent when the
    batch unpacking and the loss function it is given do. *)
Lemma _validate_preserves full loader (gd : get_data_fn Batch) (lf : loss_fn_t) :
  (∀ data mode, preserves (λ s, quiescent (self s)) (gd data mode)) →
  (∀ x y amp, preserves (λ s, quiescent (self s)) (lf x y amp)) →
  preserves (λ s, quiescent (self s)) (_validate' full loader (Some gd) (Some lf)).
Proof.
  intros Hgd Hlf s r s' Hrun Hq. unfold _validate in Hrun.
  apply bind_inr in Hrun as ([] & s1 & Heval & Hrun).
  assert (quiescent (self s1)) as Hq1.
  { eapply eval_quiescent; [done|]. by destruct Hq as (_ & _ & ?). }
  apply bind_inr in Hrun as (l & s2 & Hloader & Hrun).
  assert (s2 = s1) as ->.
  { destruct loader; [by apply ret_inr in Hloader as [_ ->]|].
    unfold self_dataset_loader in Hloader.
    apply bind_inr in Hloader as (? & ? & [-> ->]%get_inr & Hloader).
    destruct (dataset (self s1)); [done..|]. by apply lift_inr in Hloader as [_ ->]. }
  apply bind_inr in Hrun as (ms & s3 & Hloop & Hrun).
  apply ret_inr in Hrun as [_ ->]. simpl in Hloop.
  eapply (foldM_preserves _ (λ s, quiescent (self s))); [|exact Hloop|exact Hq1].
  clear -Hgd Hlf. intros ms data s r s' Hrun Hq.
  apply bind_inr in Hrun as (il & s1 & Hdata & Hrun).
  apply bind_inr in Hrun as (l & s2 & Hloss & Hrun).
  apply bind_inr in Hrun as (out & s3 & Hlogits & Hrun).
  apply bind_inr in Hrun as (acc & s4 & Hacc & Hrun).
  apply ret_inr in Hrun as [_ ->].
  unfold accuracy_1_5 in Hacc.
  apply bind_inr in Hacc as (res & s5 & Hres & Hacc).
  assert (s4 = s5) as ->.
  { destruct res as [|? [|? [|]]]; try done. by apply ret_inr in Hacc as [_ ->]. }
  rewrite (accuracy_keeps_self _ _ _ _ _ _ Hres).
  rewrite (get_logits_keeps_self _ _ _ _ _ _ _ _ _ _ Hlogits).
  eapply Hlf; [done|]. by eapply Hgd.
Qed.

Lemma get_data_preserves (I : State → Prop) :
  (∀ d data mode, preserves I (dataset_get_data d data mode)) →
  ∀ data mode, preserves I (get_data Batch dataset_get_data unpack data mode).
Proof.
  intros Hds data mode s r s' Hrun Hs. unfold get_data in Hrun.
  apply bind_inr in Hrun as (? & ? & [-> ->]%get_inr & Hrun).
  destruct (dataset_truthy (dataset (self s))).
  - destruct (dataset (self s)); [done..|]. by eapply Hds.
  - by apply lift_inr in Hrun as [_ ->].
Qed.

(** With the validation, the loss and the save function of the wrapper,
    the steps after the last [activate_params([])] keep the network
    quiescent as soon as the batch unpacking does. *)
Lemma default_callbacks_preserve (a : TrainArgs Batch) :
  validate_func Batch a = None → save_fn Batch a = None → loss_fn_arg Batch a = None →
  (∀ data mode, preserves (λ s, quiescent (self s)) (get_data_of a data mode)) →
  preserves (λ s, quiescent (self s))
    (validate_func_of a (loader_valid Batch a) (get_data_of a) (loss_fn_of a)) ∧
  preserves (λ s, quiescent (self s))
    (save_fn_of a (file_path_arg Batch a) (folder_path_arg Batch a) (suffix_arg Batch a)).
Proof.
  intros -> -> -> Hgd. simpl. split.
  - apply _validate_preserves; [done|].
    intros x y amp. apply (keeps_self_preserves _ quiescent), loss_keeps_self.
  - apply (save_preserves _ _ _ _ quiescent).
Qed.

(** C9, amended. The network is quiescent -- no parameter has
    [requires_grad] set, and the network is in evaluation mode -- at the
    end of a construction that returns; and at the end of a [_train] that
    returns, provided the network was quiescent at the call or at least
    one epoch is run, and the steps that follow the last
    [activate_params([])] (the step of the learning-rate schedule, the
    validation and the save function) leave a quiescent network
    quiescent. *)
Theorem gradient_flags_restored (env : Env) :
  (∀ (a : InitArgs) (fs0 : FileSystem) (rng0 : nat) (st : State),
     __init__ env a fs0 rng0 = inr st → quiescent (self st))
  ∧ (∀ (a : TrainArgs Batch) (st st' : State) (tr : list Event),
       preserves (λ s, quiescent (self s)) lr_scheduler_step →
       preserves (λ s, quiescent (self s))
         (validate_func_of a (loader_valid Batch a) (get_data_of a) (loss_fn_of a)) →
       preserves (λ s, quiescent (self s))
         (save_fn_of a (file_path_arg Batch a) (folder_path_arg Batch a) (suffix_arg Batch a)) →
       quiescent (self st) ∨ 1 ≤ epoch Batch a →
       _train' a st = (inr tr, st') →
       quiescent (self st')).
Proof.
  split.
  { intros a fs0 rng0 st (_ & _ & _ & _ & _ & _ & _ & _ & _ & _ & Hq)%init_inr. exact Hq. }
  intros a st st' tr Hlr Hvf Hsf Hentry
    (loader & r0 & s0 & loc & s1 & Hv & Hloop & Hzero & _)%train_inr.
  eapply zero_grad_quiescent; [done|].
  assert (∀ loc e s loc' s',
            train_epoch' a loader (get_data_of a) (loss_fn_of a) (validate_func_of a)
              (save_fn_of a) loc e s = (inr loc', s') →
            quiescent (self s')) as Hepoch.
  { intros loc1 e s loc' s' (sq & sl & ms & Hq & Hstep & Hvs)%train_epoch_inr.
    assert (quiescent (self sl)) as Hql.
    { unfold when in Hstep. destruct (lr_scheduler Batch a).
      - by eapply Hlr.
      - by apply ret_inr in Hstep as [_ ->]. }
    apply validate_and_save_inr in Hvs as [_ Hvs].
    destruct (decide (scheduled _ _ e)); [|by destruct Hvs as [_ ->]].
    destruct Hvs as (r & sv & Hval & _ & _ & Hsave).
    assert (quiescent (self sv)) as Hq2 by by eapply Hvf.
    destruct (_ && _); [by eapply Hsf|by subst]. }
  destruct (decide (range (epoch Batch a) = [])) as [Hnil|Hne].
  - rewrite Hnil in Hloop. apply ret_inr in Hloop as [_ ->].
    destruct Hentry as [Hq|Hep].
    + by eapply Hvf.
    + exfalso. apply (f_equal length) in Hnil.
      rewrite RawNetworkFacts.range_length in Hnil. simpl in Hnil. lia.
  - eapply (foldM_establishes _ (λ s, quiescent (self s))); [|exact Hne|exact Hloop].
    intros loc1 e s loc' s'. apply Hepoch.
Qed.

End Loop.



(** The claim of C9 fails for [_train] as it is worded. Asked for no
    epoch on a wrapper whose parameters track gradients, [_train] returns
    without a call of [activate_params([])], which the code has inside the
    loop over the epochs only: the parameters still have [requires_grad]
    set. And with a validation function of the caller's that puts the
    network in training mode, [_train] returns from its one epoch with the
    network in training mode. *)
Lemma gradient_flags_left_on :
  (Examples.example_train Examples.no_epoch_args Examples.trainable_state).1 = inr []
  ∧ requires_grad <$>
      parameters (_model (self
        (Examples.example_train Examples.no_epoch_args Examples.trainable_state).2))
      !! "classifier.fc.weight" = Some true
  ∧ ¬ quiescent
        (self (Examples.example_train Examples.no_epoch_args Examples.trainable_state).2)
  ∧ (Examples.example_train Examples.own_validate_args Examples.example_state).1
    = inr [Validated 0 0 0]
  ∧ training (_model (self
      (Examples.example_train Examples.own_validate_args Examples.example_state).2)) = true
  ∧ ¬ quiescent
        (self (Examples.example_train Examples.own_validate_args Examples.example_state).2).
Proof.
  assert (requires_grad <$>
      parameters (_model (self
        (Examples.example_train Examples.no_epoch_args Examples.trainable_state).2))
      !! "classifier.fc.weight" = Some true) as Hflag by (vm_compute; reflexivity).
  assert (training (_model (self
      (Examples.example_train Examples.own_validate_args Examples.example_state).2)) = true)
    as Hmode by (vm_compute; reflexivity).
  split; [vm_compute; reflexivity|]. split; [exact Hflag|]. split.
  { intros (_ & _ & Hoff).
    destruct (parameters _ !! "classifier.fc.weight") as [p|] eqn:Hp; [|done].
    apply Hoff in Hp. simpl in Hflag. congruence. }
  split; [vm_compute; reflexivity|]. split; [exact Hmode|].
  intros (Hoff & _). congruence.
Qed.

(** The invariant on the example: the constructor called with its
    defaults, and the example run, end with a quiescent network. *)
Lemma gradient_flags_restored_witness :
  (∀ st, __init__ Examples.example_env Examples.default_args Examples.empty_fs 0 = inr st →
         quiescent (self st))
  ∧ quiescent
      (self (Examples.example_train Examples.example_train_args Examples.example_state).2).
Proof.
  destruct (gradient_flags_restored Examples.example_forward Examples.example_forward_train
      Examples.example_randn
              (λ _ _ _, inr 0%Q) Examples.example_percent (Tensor * list Z) (λ _ _, inr [])
              (λ _ data _, ret data) inr (λ _ _, ret tt) (ret tt) (ret tt)
              Examples.example_env) as [Hinit Htrain].
  split; [intros st; apply Hinit|].
  destruct (default_callbacks_preserve Examples.example_forward Examples.example_forward_train
      Examples.example_randn
              (λ _ _ _, inr 0%Q) Examples.example_percent (Tensor * list Z) (λ _ _, inr [])
              (λ _ data _, ret data) inr Examples.example_train_args
              eq_refl eq_refl eq_refl) as [Hvf Hsf].
  { apply get_data_preserves. intros d data mode s r s' Hrun Hs.
    by apply ret_inr in Hrun as [_ ->]. }
  apply (Htrain Examples.example_train_args Examples.example_state
           (Examples.example_train Examples.example_train_args Examples.example_state).2
           Examples.example_trace).
  - intros s r s' Hrun Hs. by apply ret_inr in Hrun as [_ ->].
  - exact Hvf.
  - exact Hsf.
  - right. simpl. lia.
  - vm_compute. reflexivity.
Defined.

End TrainFacts.


(* ===================================================================== *)
(** * More properties of the raw network *)
(* ===================================================================== *)

Module RawForwardFacts.
Import RawNetwork RawForward RawNetworkFacts.

Lemma deep_keys_length (d : Z) : 1 < d → length (deep_keys d) = Z.to_nat (3 * d - 2).
Proof.
  intros Hd. unfold deep_keys. rewrite !length_app.
  assert (Hb : ∀ l : list Z,
    length (i ← l; [ (KFc, i + 2); (KRelu, i + 2); (KDropout, i + 2) ]) = (3 * length l)%nat).
  { induction l as [|i l IH]; [done|]. rewrite bind_cons, length_app, IH. simpl. lia. }
  rewrite Hb, range_length. simpl. lia.
Qed.

Lemma deep_seq_fc (self : _Model) (n : Z) (i : Z) :
  1 < fc_depth self → 1 ≤ i ≤ fc_depth self →
  ("fc" +:+ str i, policy_linear self n i) ∈ deep_seq self n.
Proof.
  intros Hd Hi. unfold deep_seq, policy_linear.
  destruct (decide (i = 1)) as [->|H1].
  { rewrite bool_decide_true by done. rewrite bool_decide_false by lia. set_solver. }
  destruct (decide (i = fc_depth self)) as [->|Hn].
  { rewrite bool_decide_false by lia. rewrite bool_decide_true by done. set_solver. }
  rewrite !bool_decide_false by lia.
  apply elem_of_app. right. apply elem_of_app. left.
  apply list_elem_of_bind. exists (i - 2). split; [|apply range_elem; lia].
  simpl. replace (i - 2 + 2) with i by lia. set_solver.
Qed.

Lemma deep_seq_relu_dropout (self : _Model) (n : Z) (i : Z) :
  1 < fc_depth self → 1 ≤ i < fc_depth self →
  ("relu" +:+ str i, ReLU) ∈ deep_seq self n
  ∧ ("dropout" +:+ str i, Dropout) ∈ deep_seq self n.
Proof.
  intros Hd Hi. unfold deep_seq.
  destruct (decide (i = 1)) as [->|H1]; [set_solver|].
  split; apply elem_of_app; right; apply elem_of_app; left;
    apply list_elem_of_bind; exists (i - 2);
    (split; [|apply range_elem; lia]);
    simpl; replace (i - 2 + 2) with i by lia; set_solver.
Qed.

Lemma fold_left_snd {T} (f : layer → T → T) (ch : list (string * layer)) (x : T) :
  fold_left (λ acc kl, f kl.2 acc) ch x = fold_left (λ acc l, f l acc) ch.*2 x.
Proof. revert x. induction ch as [|kl ch IH]; intros x; [done|]. simpl. apply IH. Qed.

Lemma policy_linears (self : _Model) (n : Z) :
  0 < fc_depth self →
  filter (λ l, is_linear l = true) (policy_layers self n)
  = (λ i, policy_linear self n (i + 1)) <$> range (fc_depth self).
Proof.
  intros Hd. unfold policy_layers. rewrite filter_app.
  assert (Hb : ∀ l : list Z,
    filter (λ l, is_linear l = true) (i ← l; [policy_linear self n (i + 1); ReLU; Dropout])
    = (λ i, policy_linear self n (i + 1)) <$> l).
  { induction l as [|i l IH]; [done|]. rewrite bind_cons, filter_app, IH. reflexivity. }
  rewrite Hb. unfold range.
  replace (Z.to_nat (fc_depth self)) with (Z.to_nat (fc_depth self - 1) + 1)%nat by lia.
  rewrite seq_app, !fmap_app. f_equal. simpl.
  replace (Z.of_nat (Z.to_nat (fc_depth self - 1)) + 1) with (fc_depth self) by lia.
  reflexivity.
Qed.

(** The classifier of one layer, for widths [nn.Linear] accepts. *)
Lemma define_classifier_one (self : _Model) (n : Z) :
  fc_depth self = 1 → valid_widths self n →
  define_classifier self None None None None
  = inr (Sequential [("fc", Linear (conv_dim self) n)]).
Proof.
  intros Hd (Hn & Hcd & Hnn & _). unfold define_classifier.
  rewrite bool_decide_false by lia. rewrite bool_decide_true by done.
  rewrite Hn. unfold nn_Linear. by rewrite bool_decide_false by lia.
Qed.

(** X1. The names of the classifier's layers. For [fc_depth > 1] and
    widths [nn.Linear] accepts, the classifier is a sequence of
    [3 * fc_depth - 2] children with pairwise distinct names, so that no
    layer replaces another in the [OrderedDict]: the [i]-th linear layer is
    the child [fc{i}], and for every [i] below [fc_depth] there are the
    children [relu{i}] and [dropout{i}]. *)
Theorem classifier_children_named (self : _Model) (n : Z) :
  1 < fc_depth self → valid_widths self n →
  ∃ children,
    define_classifier self None None None None = inr (Sequential children) ∧
    NoDup children.*1 ∧
    length children = Z.to_nat (3 * fc_depth self - 2) ∧
    (∀ i, 1 ≤ i ≤ fc_depth self → ("fc" +:+ str i, policy_linear self n i) ∈ children) ∧
    (∀ i, 1 ≤ i < fc_depth self →
       ("relu" +:+ str i, ReLU) ∈ children ∧ ("dropout" +:+ str i, Dropout) ∈ children).
Proof.
  intros Hd Hw. exists (deep_seq self n).
  split; [by apply define_classifier_deep|].
  split; [by apply deep_seq_NoDup|].
  split.
  { rewrite <- (length_fmap fst), deep_seq_keys, length_fmap. by apply deep_keys_length. }
  split; intros i Hi; [by apply deep_seq_fc|by apply deep_seq_relu_dropout].
Qed.

Lemma classifier_children_named_witness :
  ∃ children,
    define_classifier {| conv_depth := 0; conv_dim := 512; fc_depth := 3;
                         fc_dim := 4096; num_classes := Some 10 |} None None None None
    = inr (Sequential children) ∧
    children.*1 = ["fc1"; "relu1"; "dropout1"; "fc2"; "relu2"; "dropout2"; "fc3"].
Proof.
  destruct (classifier_children_named
              {| conv_depth := 0; conv_dim := 512; fc_depth := 3;
                 fc_dim := 4096; num_classes := Some 10 |} 10) as (children & Hc & _);
    [simpl; lia|repeat split; simpl; lia|].
  exists children. split; [exact Hc|].
  vm_compute in Hc. injection Hc as <-. reflexivity.
Defined.

(** X2. The linear layers of the classifier fit together. For
    [fc_depth >= 1] and widths [nn.Linear] accepts, the classifier that is
    built has [fc_depth] linear layers; each one reads as many features as
    the one before it writes, the first reads [conv_dim] features and the
    last writes [num_classes]. *)
Theorem classifier_widths_chain (self : _Model) (n : Z) :
  0 < fc_depth self → valid_widths self n →
  ∃ classifier,
    define_classifier self None None None None = inr classifier ∧
    let linears := filter (λ l, is_linear l = true) (layers classifier) in
    length linears = Z.to_nat (fc_depth self) ∧
    (∃ o, head linears = Some (Linear (conv_dim self) o)) ∧
    (∃ i, last linears = Some (Linear i n)) ∧
    ∀ k i1 o1 i2 o2,
      linears !! k = Some (Linear i1 o1) → linears !! S k = Some (Linear i2 o2) → o1 = i2.
Proof.
  intros Hd Hw.
  assert (∃ classifier,
            define_classifier self None None None None = inr classifier ∧
            filter (λ l, is_linear l = true) (layers classifier)
            = (λ i, policy_linear self n (i + 1)) <$> range (fc_depth self))
    as (classifier & Hc & Hl).
  { destruct (decide (fc_depth self = 1)) as [H1|H1].
    - eexists. split; [by apply define_classifier_one|].
      rewrite H1. vm_compute range.
      unfold policy_linear. simpl. rewrite !bool_decide_true by (done || lia). reflexivity.
    - eexists. split; [apply define_classifier_deep; [lia|done]|]. unfold layers.
      rewrite deep_seq_layers by lia. apply policy_linears. lia. }
  exists classifier. split; [exact Hc|]. simpl. rewrite Hl. clear Hl Hc classifier.
  unfold range.
  split; [by rewrite !length_fmap, length_seq|].
  split.
  { replace (Z.to_nat (fc_depth self)) with (S (Z.to_nat (fc_depth self - 1))) by lia.
    simpl. unfold policy_linear. rewrite bool_decide_true by done. eauto. }
  split.
  { replace (Z.to_nat (fc_depth self)) with (Z.to_nat (fc_depth self - 1) + 1)%nat by lia.
    rewrite seq_app, !fmap_app. simpl. rewrite last_snoc. unfold policy_linear.
    rewrite (bool_decide_true (_ = fc_depth self)) by lia. eauto. }
  intros k i1 o1 i2 o2. rewrite !list_lookup_fmap.
  destruct (seq 0 (Z.to_nat (fc_depth self)) !! k) as [a|] eqn:Ha; [|done].
  destruct (seq 0 (Z.to_nat (fc_depth self)) !! S k) as [b|] eqn:Hb; [|done].
  apply lookup_seq in Ha as [-> _]. apply lookup_seq in Hb as [-> Hlt].
  simpl. unfold policy_linear. intros [= <- <-] [= <- <-].
  rewrite (bool_decide_false (_ = fc_depth self)) by lia.
  by rewrite (bool_decide_false (_ = 1)) by lia.
Qed.

Lemma classifier_widths_chain_witness :
  ∃ classifier,
    define_classifier {| conv_depth := 0; conv_dim := 512; fc_depth := 3;
                         fc_dim := 4096; num_classes := Some 10 |} None None None None
    = inr classifier ∧
    filter (λ l, is_linear l = true) (layers classifier) !! 1%nat = Some (Linear 4096 4096) ∧
    ∀ i2 o2,
      filter (λ l, is_linear l = true) (layers classifier) !! 2%nat = Some (Linear i2 o2) →
      4096 = i2.
Proof.
  destruct (classifier_widths_chain
              {| conv_depth := 0; conv_dim := 512; fc_depth := 3;
                 fc_dim := 4096; num_classes := Some 10 |} 10)
    as (classifier & Hc & _ & _ & _ & H); [simpl; lia|repeat split; simpl; lia|].
  exists classifier. split; [exact Hc|].
  assert (filter (λ l, is_linear l = true) (layers classifier) !! 1%nat
          = Some (Linear 4096 4096)) as H1.
  { vm_compute in Hc. injection Hc as <-. reflexivity. }
  split; [exact H1|]. intros i2 o2 H2. exact (H 1%nat _ _ _ _ H1 H2).
Defined.

Section Forward.
Context {T : Type} (apply_layer : layer → T → T) (pool flatten : T → T).

(** X3. The forward pass of the base network. A network that has been
    constructed has no feature extractor: the input is pooled and
    flattened as it comes, and the result goes through the layers of the
    construction policy in order; with [fc_depth <= 0] there is no layer
    at all and the network returns the pooled, flattened input. *)
Theorem model_forward_layers (args : _Model) (self : Network) (x : T) :
  __init__ args = inr self →
  get_fm apply_layer self x = x
  ∧ ∃ policy,
      (if decide (fc_depth args ≤ 0) then policy = []
       else ∃ n, valid_widths args n ∧ policy = policy_layers args n)
      ∧ model_forward apply_layer pool flatten self x
        = fold_left (λ acc l, apply_layer l acc) policy (flatten (pool x)).
Proof.
  unfold __init__. intros Hinit.
  destruct (define_classifier args None None None None) as [e|c] eqn:Hc; [done|].
  injection Hinit as <-. split; [reflexivity|].
  unfold model_forward, get_final_fm, get_fm. simpl.
  destruct (decide (fc_depth args ≤ 0)) as [H0|H0].
  { exists []. split; [done|]. unfold define_classifier in Hc.
    rewrite bool_decide_true in Hc by done. by injection Hc as <-. }
  destruct (define_classifier_inr _ _ _ _ _ _ Hc) as [n Hn]; [lia|].
  exists (policy_layers args n). split; [by exists n|].
  destruct (decide (fc_depth args = 1)) as [H1|H1].
  - rewrite define_classifier_one with (n := n) in Hc by done. injection Hc as <-.
    unfold policy_layers. rewrite H1.
    simpl. unfold policy_linear. rewrite !bool_decide_true by (done || lia). reflexivity.
  - rewrite (define_classifier_deep _ n) in Hc by (done || lia). injection Hc as <-.
    unfold forward. rewrite fold_left_snd. by rewrite deep_seq_layers by lia.
Qed.

End Forward.

Lemma model_forward_layers_witness :
  ∃ self,
    __init__ {| conv_depth := 0; conv_dim := 512; fc_depth := 1;
                fc_dim := 4096; num_classes := Some 10 |} = inr self ∧
    model_forward (λ l (x : list layer), x ++ [l]) (λ x, x) (λ x, x) self []
    = [Linear 512 10].
Proof.
  eexists. split; [reflexivity|].
  destruct (model_forward_layers (λ l (x : list layer), x ++ [l]) (λ x, x) (λ x, x)
              {| conv_depth := 0; conv_dim := 512; fc_depth := 1;
                 fc_dim := 4096; num_classes := Some 10 |} _ [] eq_refl)
    as (_ & policy & Hp & Hf).
  rewrite Hf. simpl in Hp. destruct Hp as (n & (Hn & _) & ->).
  injection Hn as <-. reflexivity.
Defined.

End RawForwardFacts.

(* ===================================================================== *)
(** * Parameter groups, gradient flags and construction, further *)
(* ===================================================================== *)

Module ParametersFacts.
Import Py Torch Wrapper WrapperMore PyFacts CheckpointFacts LifecycleFacts.
Local Open Scope py_scope.

Lemma alter_fold_lookup (f : Param → Param) (g : list string) (m : gmap string Param)
    (k : string) :
  (∀ p, f (f p) = f p) →
  foldl (λ ps k, alter f k ps) m g !! k = if decide (k ∈ g) then f <$> m !! k else m !! k.
Proof.
  intros Hf. revert m. induction g as [|k0 g IH]; intros m; simpl; [done|].
  rewrite IH. destruct (decide (k = k0)) as [->|Hne].
  - rewrite lookup_alter_eq. rewrite (decide_True (P := k0 ∈ k0 :: g)) by left.
    destruct (m !! k0) as [p|]; simpl; [|by destruct (decide _)].
    rewrite Hf. by destruct (decide _).
  - rewrite lookup_alter_ne by done.
    destruct (decide (k ∈ g)) as [Hin|Hnin].
    + rewrite decide_True; [done|by right].
    + rewrite decide_False; [done|]. rewrite elem_of_cons. naive_solver.
Qed.

Lemma activate_lookup (groups : list (list string)) (ps : gmap string Param) (k : string) :
  activate groups ps !! k
  = set_requires_grad (bool_decide (k ∈ concat groups)) <$> ps !! k.
Proof.
  unfold activate.
  assert (∀ m : gmap string Param,
    foldl (foldl (λ ps k, alter (set_requires_grad true) k ps)) m groups !! k
    = if decide (k ∈ concat groups) then set_requires_grad true <$> m !! k else m !! k) as Hg.
  { induction groups as [|g groups IH]; intros m; simpl; [done|].
    rewrite IH, alter_fold_lookup by done.
    destruct (decide (k ∈ g)), (decide (k ∈ concat groups)).
    - rewrite decide_True by (apply elem_of_app; auto). by destruct (m !! k).
    - rewrite decide_True by (apply elem_of_app; auto). done.
    - rewrite decide_True by (apply elem_of_app; auto). done.
    - rewrite decide_False by (rewrite elem_of_app; tauto). done. }
  rewrite Hg, lookup_fmap.
  destruct (decide (k ∈ concat groups)).
  - rewrite bool_decide_true by done. by destruct (ps !! k).
  - rewrite bool_decide_false by done. done.
Qed.

(** X4. What [activate_params] leaves. It always returns; afterwards a
    parameter of the network has [requires_grad] set exactly when its name
    is in one of the groups, whatever its flag was before; values,
    gradients, the mode of the network, the other attributes of the
    wrapper, the files and the stream of draws are as they were. Names in
    the groups that are no parameters of the network add nothing. *)
Theorem activate_params_flags (groups : list (list string)) (st : State) :
  ∃ st',
    activate_params groups st = (inr tt, st') ∧
    fs st' = fs st ∧ rng st' = rng st ∧
    same_attributes (self st) (self st') ∧
    training (_model (self st')) = training (_model (self st)) ∧
    dom (parameters (_model (self st'))) = dom (parameters (_model (self st))) ∧
    ∀ k, parameters (_model (self st')) !! k
         = (λ p, {| data := data p; requires_grad := bool_decide (k ∈ concat groups);
                    grad := grad p |}) <$> parameters (_model (self st)) !! k.
Proof.
  eexists. split; [apply activate_params_run|].
  split; [done|]. split; [done|]. split; [done|]. split; [done|].
  split.
  - apply set_eq. intros k. rewrite !elem_of_dom. simpl. rewrite activate_lookup.
    by rewrite fmap_is_Some.
  - intros k. simpl. by rewrite activate_lookup.
Qed.

Lemma names_below_elem (pre : string) (ps : gmap string Param) (k : string) :
  k ∈ names_below pre ps ↔ is_Some (ps !! k) ∧ is_Some (strip_prefix pre k).
Proof.
  unfold names_below. rewrite list_elem_of_filter, list_elem_of_fmap. split.
  - intros [Hpre ([k' p] & -> & Hin%elem_of_map_to_list)]. simpl in *. eauto.
  - intros [[p Hp] Hpre]. split; [done|]. exists (k, p). split; [done|].
    by apply elem_of_map_to_list.
Qed.

Lemma full_names_elem (ps : gmap string Param) (k : string) :
  k ∈ (map_to_list ps).*1 ↔ is_Some (ps !! k).
Proof.
  rewrite list_elem_of_fmap. split.
  - intros ([k' p] & -> & Hin%elem_of_map_to_list). simpl. eauto.
  - intros [p Hp]. exists (k, p). split; [done|]. by apply elem_of_map_to_list.
Qed.

Lemma get_params_run (name : string) (st : State) :
  get_params name st
  = (if bool_decide (name = "full") then inr (map_to_list (parameters (_model (self st)))).*1
     else if bool_decide (name = "features")
          then inr (names_below "features." (parameters (_model (self st))))
     else if bool_decide (name ∈ ["classifier"; "partial"])
          then inr (names_below "classifier." (parameters (_model (self st))))
     else inl (NotImplementedError name), st).
Proof.
  unfold get_params. erewrite bind_run by reflexivity.
  repeat case_bool_decide; reflexivity.
Qed.

(** X5. The parameter groups of [get_params]. It never changes the
    state; ['partial'] is another name of ['classifier']; the groups
    ['features'] and ['classifier'] are parts of ['full'] and share no
    parameter; and when every parameter of the network is below
    [features] or below [classifier], the two groups together are all of
    ['full']. No group lists a parameter twice. *)
Theorem get_params_groups (st : State) :
  get_params "partial" st = get_params "classifier" st
  ∧ ∃ full features classifier,
      get_params "full" st = (inr full, st) ∧
      get_params "features" st = (inr features, st) ∧
      get_params "classifier" st = (inr classifier, st) ∧
      NoDup full ∧ NoDup features ∧ NoDup classifier ∧
      (∀ k, k ∈ full ↔ is_Some (parameters (_model (self st)) !! k)) ∧
      (∀ k, k ∈ features → k ∈ full ∧ k ∉ classifier) ∧
      (∀ k, k ∈ classifier → k ∈ full) ∧
      (two_parts (parameters (_model (self st))) →
       ∀ k, k ∈ full → k ∈ features ∨ k ∈ classifier).
Proof.
  split; [by rewrite !get_params_run|].
  set (ps := parameters (_model (self st))).
  exists (map_to_list ps).*1, (names_below "features." ps), (names_below "classifier." ps).
  rewrite !get_params_run. fold ps.
  split; [done|]. split; [done|]. split; [done|].
  assert (NoDup (map_to_list ps).*1) as Hnd by apply NoDup_fst_map_to_list.
  split; [done|].
  split; [by apply NoDup_filter|]. split; [by apply NoDup_filter|].
  split; [apply full_names_elem|].
  split; [|split].
  - intros k [Hk Hpre]%names_below_elem. split; [by apply full_names_elem|].
    intros [_ Hpre']%names_below_elem.
    destruct k as [|a k]; [by destruct Hpre|]. simpl in Hpre, Hpre'.
    destruct (decide ("f"%char = a)) as [<-|]; [|by destruct Hpre].
    by destruct Hpre'.
  - intros k [Hk _]%names_below_elem. by apply full_names_elem.
  - intros Htwo k Hk%full_names_elem.
    destruct (Htwo k Hk); [left|right]; by apply names_below_elem.
Qed.

Lemma get_params_groups_witness :
  ∃ full features classifier,
    get_params "full" Examples.example_state = (inr full, Examples.example_state) ∧
    get_params "features" Examples.example_state = (inr features, Examples.example_state) ∧
    get_params "classifier" Examples.example_state = (inr classifier, Examples.example_state) ∧
    ∀ k, k ∈ full → k ∈ features ∨ k ∈ classifier.
Proof.
  destruct (get_params_groups Examples.example_state)
    as (_ & full & features & classifier & H1 & H2 & H3 & _ & _ & _ & _ & _ & _ & H).
  exists full, features, classifier. repeat (split; [assumption|]).
  apply H. intros k. simpl.
  destruct (decide (k = "classifier.fc.weight")) as [->|Hw]; [intros _; right; by eexists|].
  destruct (decide (k = "classifier.fc.bias")) as [->|Hb]; [intros _; right; by eexists|].
  rewrite lookup_insert_ne by done. rewrite lookup_singleton_ne by done.
  by intros [? ?].
Defined.

(** An unknown group name. [get_params] raises [NotImplementedError]
    with the name for every name but ['full'], ['features'],
    ['classifier'] and ['partial'], and leaves the state as it is. *)
Lemma get_params_unknown (name : string) (st : State) :
  name ∉ ["full"; "features"; "classifier"; "partial"] →
  get_params name st = (inl (NotImplementedError name), st).
Proof.
  intros Hname. rewrite get_params_run.
  rewrite !bool_decide_false; [done|set_solver..].
Qed.

(** X6. Partial tuning. When the group ['partial'] of [get_params] is
    handed to [activate_params], as [_train] does with the groups of an
    optimizer over it, the parameters below [classifier] and no others are
    left with [requires_grad] set. *)
Theorem partial_tuning_flags (st : State) :
  ∃ names st',
    get_params "partial" st = (inr names, st) ∧
    activate_params [names] st = (inr tt, st') ∧
    ∀ k p, parameters (_model (self st')) !! k = Some p →
           requires_grad p = bool_decide (is_Some (strip_prefix "classifier." k)).
Proof.
  eexists _, _. split; [by rewrite get_params_run|].
  split; [apply activate_params_run|].
  intros k p. simpl. rewrite activate_lookup.
  destruct (parameters (_model (self st)) !! k) as [p0|] eqn:Hk; [|done].
  simpl. intros [= <-]. simpl. rewrite app_nil_r.
  apply bool_decide_ext. rewrite names_below_elem. naive_solver.
Qed.

Section Construction.
Context (env : Env).

Lemma get_parallel_state (st : State) : (get_parallel env st).2 = st.
Proof.
  unfold get_parallel, char_at, bind, get, ret, raise. simpl.
  repeat first [case_bool_decide | case_match]; simplify_eq/=; done.
Qed.

(** X7. When [get_parallel] wraps the network. It never changes the
    state. With at most one GPU it returns the network itself. With
    several GPUs and a dataset object it wraps the network in
    [nn.DataParallel] exactly when the data are images. With several GPUs
    and no dataset it reads the first and the third character of the name:
    a name that is empty, or that starts with [g] and has fewer than three
    characters, raises [IndexError]. *)
Theorem get_parallel_cases (st : State) :
  (get_parallel env st).2 = st
  ∧ (num_gpus env ≤ 1 → get_parallel env st = (inr None, st))
  ∧ (∀ d, num_gpus env > 1 → dataset (self st) = DatasetObj d →
       get_parallel env st
       = (inr (if bool_decide (data_type d = "image") then Some true else None), st))
  ∧ (num_gpus env > 1 → dataset (self st) = DatasetNone →
     name (self st) = ""
     ∨ (String.get 0 (name (self st)) = Some "g"%char ∧ String.get 2 (name (self st)) = None) →
     get_parallel env st = (inl (IndexError "string index out of range"), st)).
Proof.
  split; [apply get_parallel_state|].
  unfold get_parallel, char_at. split; [|split].
  - intros Hn. erewrite bind_run by reflexivity. by rewrite bool_decide_false by lia.
  - intros d Hn Hd. erewrite bind_run by reflexivity. rewrite bool_decide_true by lia.
    rewrite Hd. simpl. by repeat case_bool_decide.
  - intros Hn Hd Hname. erewrite bind_run by reflexivity. rewrite bool_decide_true by lia.
    rewrite Hd. simpl. destruct Hname as [->|[H0 H2]]; [done|].
    rewrite H0. erewrite bind_run by reflexivity. rewrite bool_decide_true by done.
    by rewrite H2.
Qed.

Lemma init_run (a : InitArgs) (fs0 : FileSystem) (rng0 : nat) folder nc lw net :
  resolve_dataset env a = inr (folder, nc, lw) →
  arg_model_class a nc = inr net →
  num_gpus env ≤ 1 →
  let st0 :=
    {| self :=
         {| name := arg_name a; dataset := arg_dataset a; suffix := arg_suffix a;
            pretrain := arg_pretrain a; official := arg_official a;
            randomized_smooth := arg_randomized_smooth a;
            rs_sigma := arg_rs_sigma a; rs_n := arg_rs_n a;
            sgm := arg_sgm a; sgm_gamma := arg_sgm_gamma a;
            param_list :=
              {[ "abstract" :=
                   ["suffix"; "pretrain"; "official"; "randomized_smooth"; "sgm"]
                   ++ (if arg_sgm a then ["sgm_gamma"] else [])
                   ++ (if arg_randomized_smooth a then ["rs_sigma"; "rs_n"] else []) ]};
            num_classes := nc; loss_weights := lw; folder_path := folder;
            criterion := define_criterion lw;
            _model := {| parameters := activate [] (parameters net);
                         training := training net |};
            model := None; batch_size := None |};
       fs := fs0; rng := rng0 |} in
  __init__ env a fs0 rng0
  = match (when (arg_official a) (load (Some "official") None None true) ;;
           when (arg_pretrain a) (load None None None true) ;;
           when (negb (bool_decide (num_gpus env = 0))) cuda ;;
           eval) st0 with
    | (inr _, s) => inr s
    | (inl e, _) => inl e
    end.
Proof.
  intros Hres Hnet Hn st0. unfold __init__. rewrite Hres, Hnet.
  erewrite bind_run by apply activate_params_run.
  erewrite bind_run.
  2:{ unfold get_parallel. erewrite bind_run by reflexivity.
      by rewrite bool_decide_false by lia. }
  erewrite bind_run by reflexivity. reflexivity.
Qed.

(** A dataset given by its name. The constructor raises [TypeError]
    with the string when [dataset] is a non-empty string, before the
    network is built: whatever the other arguments are. *)
Lemma init_dataset_string (a : InitArgs) (fs0 : FileSystem) (rng0 : nat) (s : string) :
  arg_dataset a = DatasetStr s → s ≠ "" →
  __init__ env a fs0 rng0 = inl (TypeError s).
Proof.
  intros Hd Hs. unfold __init__, resolve_dataset. rewrite Hd. simpl.
  by rewrite bool_decide_false.
Qed.

(** X8. [official=True] on the base class. When the arguments resolve,
    the network is built and there is at most one GPU, a construction with
    [official=True] ends in the [NotImplementedError] of
    [load_official_weights], whatever [pretrain] is: [Model] itself has no
    official weights. *)
Theorem init_official_not_implemented (a : InitArgs) (fs0 : FileSystem) (rng0 : nat)
    folder nc lw net :
  resolve_dataset env a = inr (folder, nc, lw) →
  arg_model_class a nc = inr net →
  num_gpus env ≤ 1 →
  arg_official a = true →
  __init__ env a fs0 rng0
  = inl (NotImplementedError (arg_name a +:+ " has no official weights.")).
Proof.
  intros Hres Hnet Hn Hoff. rewrite (init_run a fs0 rng0 _ _ _ _ Hres Hnet Hn).
  rewrite Hoff. reflexivity.
Qed.

(** X9. [pretrain=True] needs its checkpoint. When the arguments
    resolve, the network is built, there is at most one GPU and [official]
    is off, a construction with [pretrain=True] raises [TypeError] if no
    folder is known (no [folder_path] and no dataset), and
    [FileNotFoundError] if the file [folder_path + name + suffix + '.pth']
    does not exist. *)
Theorem init_pretrain_missing (a : InitArgs) (fs0 : FileSystem) (rng0 : nat)
    folder nc lw net :
  resolve_dataset env a = inr (folder, nc, lw) →
  arg_model_class a nc = inr net →
  num_gpus env ≤ 1 →
  arg_official a = false → arg_pretrain a = true →
  match folder with
  | None =>
      __init__ env a fs0 rng0
      = inl (TypeError "unsupported operand type(s) for +: 'NoneType' and 'str'")
  | Some f =>
      path_exists fs0 (f +:+ arg_name a +:+ arg_suffix a +:+ ".pth") = false →
      __init__ env a fs0 rng0
      = inl (FileNotFoundError
               ("Model file not exist: " +:+ f +:+ arg_name a +:+ arg_suffix a +:+ ".pth"))
  end.
Proof.
  intros Hres Hnet Hn Hoff Hpre. rewrite (init_run a fs0 rng0 _ _ _ _ Hres Hnet Hn).
  rewrite Hoff, Hpre. destruct folder as [f|].
  - intros Hex. simpl. unfold load. erewrite bind_run by reflexivity.
    erewrite bind_raise; [reflexivity|].
    erewrite bind_run by (apply default_file_path_run; reflexivity).
    unfold load_file. erewrite bind_run by reflexivity. simpl. by rewrite Hex.
  - reflexivity.
Qed.

Context (cross_entropy : option Tensor → Tensor2 Qc → list Z → exn + Q).

(** X10. What a dataset supplies. After a construction with a dataset
    object, the number of classes is the argument if there was one and
    the dataset's otherwise, the folder is the argument if there was one
    and [data_dir + data_type + '/' + name + '/model/'] otherwise, and with
    [loss_weights] left at ['dataset'] the criterion raises no
    [AttributeError]: it is the cross entropy with the class weights of
    the dataset. *)
Theorem init_with_dataset (a : InitArgs) (fs0 : FileSystem) (rng0 : nat) (st : State)
    (d : Dataset) :
  __init__ env a fs0 rng0 = inr st →
  arg_dataset a = DatasetObj d →
  num_classes (self st) = Some (default (dataset_num_classes d) (arg_num_classes a))
  ∧ folder_path (self st)
    = Some (default (data_dir env +:+ data_type d +:+ "/" +:+ dataset_name d +:+ "/model/")
                    (arg_folder_path a))
  ∧ (arg_loss_weights a = LossWeightsStr "dataset" →
     ∀ s _output _label,
       loss_weights (self s) = loss_weights (self st) →
       criterion (self s) = criterion (self st) →
       loss_fn cross_entropy _output _label s
       = (cross_entropy (dataset_loss_weights d) _output _label, s)).
Proof.
  intros (folder & nc & lw & Hres & Hlw & Hnc & Hfolder & Hcrit & _)%init_inr Hd.
  unfold resolve_dataset in Hres. rewrite Hd in Hres. simpl in Hres.
  injection Hres as <- <- <-.
  split; [done|]. split; [done|].
  intros Ha s out lab Hlws Hcs. unfold loss_fn.
  erewrite bind_run by reflexivity. rewrite Hlws, Hcs, Hcrit, Hlw, Ha.
  destruct (dataset_loss_weights d); reflexivity.
Qed.

End Construction.

Lemma get_parallel_cases_witness :
  get_parallel Examples.example_env Examples.example_state
  = (inr None, Examples.example_state)
  ∧ get_parallel MoreExamples.two_gpus MoreExamples.short_name_state
    = (inl (IndexError "string index out of range"), MoreExamples.short_name_state).
Proof.
  split.
  - apply (get_parallel_cases Examples.example_env Examples.example_state). simpl. lia.
  - apply (get_parallel_cases MoreExamples.two_gpus MoreExamples.short_name_state);
      [simpl; lia|reflexivity|right; split; reflexivity].
Defined.

Lemma init_official_not_implemented_witness :
  __init__ Examples.example_env MoreExamples.official_args Examples.empty_fs 0
  = inl (NotImplementedError "model has no official weights.").
Proof.
  apply (init_official_not_implemented Examples.example_env MoreExamples.official_args
           Examples.empty_fs 0%nat None None (LossWeightsStr "dataset") Examples.example_net);
    [reflexivity|reflexivity|simpl; lia|reflexivity].
Defined.

Lemma init_pretrain_missing_witness :
  __init__ Examples.example_env MoreExamples.pretrain_args Examples.empty_fs 0
  = inl (FileNotFoundError "Model file not exist: /tmp/ckpt/model_adv.pth").
Proof.
  apply (init_pretrain_missing Examples.example_env MoreExamples.pretrain_args
           Examples.empty_fs 0%nat (Some "/tmp/ckpt/") None (LossWeightsStr "dataset")
           Examples.example_net);
    [reflexivity|reflexivity|simpl; lia|reflexivity|reflexivity|reflexivity].
Defined.

Lemma init_with_dataset_witness :
  ∃ st,
    __init__ Examples.example_env MoreExamples.dataset_args Examples.empty_fs 0 = inr st
    ∧ num_classes (self st) = Some 10
    ∧ folder_path (self st) = Some "./data/image/cifar10/model/".
Proof.
  eexists. split; [vm_compute; reflexivity|].
  match goal with
  | |- num_classes (self ?st) = _ ∧ _ =>
      destruct (init_with_dataset Examples.example_env (λ _ _ _, inr 0%Q)
                  MoreExamples.dataset_args Examples.empty_fs 0%nat st
                  MoreExamples.example_dataset)
        as (Hnc & Hfolder & _); [vm_compute; reflexivity|reflexivity|]
  end.
  split; [exact Hnc|exact Hfolder].
Defined.

End ParametersFacts.

(* ===================================================================== *)
(** * Checkpoints, further *)
(* ===================================================================== *)

Module CheckpointMoreFacts.
Import Py Torch Wrapper WrapperMore PyFacts CheckpointFacts LifecycleFacts.
Local Open Scope py_scope.

Lemma strip_prefix_app (pre k : string) : strip_prefix pre (pre +:+ k) = Some k.
Proof. induction pre as [|a pre IH]; [done|]. simpl. by rewrite decide_True. Qed.

Lemma strip_prefix_Some (pre k k' : string) :
  strip_prefix pre k = Some k' ↔ k = pre +:+ k'.
Proof.
  split; [|intros ->; apply strip_prefix_app].
  revert k. induction pre as [|a pre IH]; intros k; simpl; [by intros [= ->]|].
  destruct k as [|b k]; [done|]. destruct (decide (a = b)) as [->|]; [|done].
  intros ->%IH. reflexivity.
Qed.

Local Arguments strip_prefix : simpl never.
Local Arguments String.append : simpl never.

(** The state dictionary of a submodule holds the value of every parameter
    below it, under the name the parameter has within the submodule. *)
Lemma state_dict_lookup (pre : string) (net : Net) (k' : string) :
  state_dict pre net !! k' = data <$> parameters net !! (pre +:+ k').
Proof.
  unfold state_dict. apply option_eq. intros t.
  assert (∀ t, (k', t) ∈ omap (λ kp : string * Param,
                                 (λ k', (k', data kp.2)) <$> strip_prefix pre kp.1)
                               (map_to_list (parameters net))
               ↔ data <$> parameters net !! (pre +:+ k') = Some t) as Helem.
  { intros t0. rewrite list_elem_of_omap. split.
    - intros ([k p] & Hin%elem_of_map_to_list & Hf). simpl in Hf.
      destruct (strip_prefix pre k) as [k''|] eqn:Hpre; [|done].
      simpl in Hf. injection Hf as -> <-.
      apply strip_prefix_Some in Hpre as ->. by rewrite Hin.
    - destruct (parameters net !! (pre +:+ k')) as [p|] eqn:Hp; [|done].
      simpl. intros [= <-]. exists (pre +:+ k', p).
      split; [by apply elem_of_map_to_list|]. simpl. by rewrite strip_prefix_app. }
  rewrite <- Helem. symmetry. apply elem_of_list_to_map'.
  intros t' Ht Ht'. apply Helem in Ht, Ht'. congruence.
Qed.

Lemma load_params_lookup_below (pre : string) (sd : gmap string Tensor)
    (ps : gmap string Param) (k : string) :
  load_params pre sd ps !! k
  = (λ p, match strip_prefix pre k ≫= (sd !!.) with
          | Some t => if decide (shape t = shape (data p)) then copy_ t p else p
          | None => p
          end) <$> ps !! k.
Proof. unfold load_params. rewrite map_lookup_imap. by destruct (ps !! k). Qed.

Lemma drop_while_all {A} (f : A → bool) (l : list A) :
  Forall (λ x, f x = true) l → drop_while f l = [].
Proof. induction 1 as [|x l Hx _ IH]; [done|]. simpl. by rewrite Hx. Qed.

Lemma dirname_no_slash (p : string) :
  slash ∉ String.list_ascii_of_string p → dirname p = "".
Proof.
  intros Hp. unfold dirname.
  rewrite (drop_while_all (λ a, negb (bool_decide (a = slash)))); [reflexivity|].
  apply Forall_forall. intros a Ha. rewrite elem_of_reverse in Ha.
  apply negb_true_iff, bool_decide_eq_false. intros ->. by apply Hp.
Qed.

(** X11. A checkpoint path without a directory part. [save] to a
    [file_path] with no separator in it, such as ['model.pth'], writes
    nothing: the folder it derives is the empty string, which does not
    exist and which [os.makedirs] refuses with [FileNotFoundError]. *)
Theorem save_bare_file_name (p : string) (fa sa : option string) (features : bool)
    (st : State) :
  slash ∉ String.list_ascii_of_string p →
  save (Some p) fa sa features st
  = (inl (FileNotFoundError "[Errno 2] No such file or directory: ''"), st).
Proof.
  intros Hp. unfold save. erewrite bind_run by reflexivity. simpl.
  rewrite dirname_no_slash by done.
  erewrite bind_run by reflexivity.
  erewrite bind_raise; [reflexivity|].
  unfold path_exists. rewrite bool_decide_true by done. simpl.
  unfold makedirs. erewrite bind_run by reflexivity. by rewrite bool_decide_true.
Qed.

Lemma save_bare_file_name_witness :
  save (Some "model.pth") None None true Examples.example_state
  = (inl (FileNotFoundError "[Errno 2] No such file or directory: ''"),
     Examples.example_state).
Proof.
  apply (save_bare_file_name "model.pth" None None true Examples.example_state).
  vm_compute. intros H.
  repeat (apply elem_of_cons in H as [H|H]; [discriminate H|]).
  by apply elem_of_nil in H.
Defined.

Lemma makedirs_frame (p : string) (st st' : State) r :
  makedirs p st = (r, st') →
  self st' = self st ∧ rng st' = rng st ∧ files (fs st') = files (fs st) ∧
  dirs (fs st) ⊆ dirs (fs st').
Proof.
  unfold makedirs, bind, get, raise, modify. simpl.
  repeat case_match; intros [= <- <-]; simpl; set_solver.
Qed.

Lemma torch_save_frame (obj : gmap string Tensor) (p : string) (st st' : State) r :
  torch_save obj p st = (r, st') →
  self st' = self st ∧ rng st' = rng st ∧ dirs (fs st') = dirs (fs st) ∧
  (files (fs st') = files (fs st)
   ∨ r = inr tt ∧ files (fs st') = <[path_key p := StateDictFile obj]> (files (fs st))).
Proof.
  unfold torch_save, bind, get, raise, modify. simpl.
  repeat case_match; intros [= <- <-]; simpl;
    (split; [done|]); (split; [done|]); (split; [done|]); first [by left|by right].
Qed.

(** X12. What [save] touches. However [save] ends, the wrapper and the
    stream of draws are as before, no directory has gone, and every file
    holds what it held, except the one file a successful [save] has
    written: that holds the state dictionary of the network (of its
    classifier when [features] is off). *)
Theorem save_frame (fp fa sa : option string) (features : bool) (st st' : State) r :
  save fp fa sa features st = (r, st') →
  self st' = self st ∧ rng st' = rng st ∧ dirs (fs st) ⊆ dirs (fs st') ∧
  (files (fs st') = files (fs st)
   ∨ r = inr tt ∧
     ∃ path, files (fs st')
             = <[path_key path :=
                   StateDictFile (state_dict (if features then "" else "classifier.")
                                             (_model (self st)))]> (files (fs st))).
Proof.
  unfold save.
  assert (∃ q, match fp with
               | Some p => ret (p, dirname p)
               | None => default_file_path fa sa
               end st = (q, st)) as [q Hq].
  { destruct fp as [p|]; [by eexists|].
    unfold default_file_path, bind, get, ret, raise. simpl.
    case_match; eexists; reflexivity. }
  intros Hrun. unfold bind at 1 in Hrun. rewrite Hq in Hrun. destruct q as [e|[path folder]].
  { injection Hrun as <- <-. set_solver. }
  simpl in Hrun. unfold bind at 1, get at 1 in Hrun. unfold bind at 1 in Hrun.
  destruct (when _ _ st) as [[e|[]] s1] eqn:Hmk.
  - injection Hrun as <- <-.
    unfold when in Hmk. destruct (negb _); [|done].
    apply makedirs_frame in Hmk as (? & ? & ? & ?). auto.
  - assert (self s1 = self st ∧ rng s1 = rng st ∧ files (fs s1) = files (fs st) ∧
            dirs (fs st) ⊆ dirs (fs s1)) as (Hs & Hr & Hf & Hd).
    { unfold when in Hmk. destruct (negb _).
      - by apply makedirs_frame in Hmk.
      - injection Hmk as <-. set_solver. }
    unfold bind at 1, get at 1 in Hrun.
    replace (if features then state_dict "" (_model (self s1))
             else state_dict "classifier." (_model (self s1)))
      with (state_dict (if features then "" else "classifier.") (_model (self st))) in Hrun
      by (rewrite Hs; by destruct features).
    apply torch_save_frame in Hrun as (Hs' & Hr' & Hd' & Hf').
    split; [congruence|]. split; [congruence|]. split; [by rewrite Hd'|].
    destruct Hf' as [Hf'|[-> Hf']]; [left; congruence|].
    right. split; [done|]. exists path. by rewrite Hf', Hf.
Qed.

Lemma save_frame_witness :
  self Examples.saved_state = self Examples.example_state
  ∧ rng Examples.saved_state = rng Examples.example_state.
Proof.
  destruct (save_frame (Some "/tmp/ckpt/model.pth") None None true
              Examples.example_state Examples.saved_state (inr tt))
    as (Hs & Hr & _); [vm_compute; reflexivity|].
  split; [exact Hs|exact Hr].
Defined.

(** Without a folder. When neither the call nor the wrapper names a
    folder and no [file_path] is given, [load] and [save] raise the
    [TypeError] of [None + str] and leave everything as it is. *)
Lemma checkpoint_without_folder (fa sa : option string) (features : bool) (st : State) :
  effective_folder fa (self st) = None →
  load None fa sa features st
  = (inl (TypeError "unsupported operand type(s) for +: 'NoneType' and 'str'"), st)
  ∧ save None fa sa features st
    = (inl (TypeError "unsupported operand type(s) for +: 'NoneType' and 'str'"), st).
Proof.
  intros Hf.
  assert (default_file_path fa sa st
          = (inl (TypeError "unsupported operand type(s) for +: 'NoneType' and 'str'"), st))
    as Hdef.
  { unfold default_file_path. erewrite bind_run by reflexivity.
    unfold effective_folder in Hf. by rewrite Hf. }
  split; unfold load, save; by erewrite bind_raise by apply Hdef.
Qed.

(** X13. What [load] touches. A [load] that returns has changed the
    values of parameters only: the network has the same parameters, each
    with its shape, its [requires_grad] flag and its gradient; the mode,
    the other attributes of the wrapper, the files and the stream of draws
    are as before. *)
Theorem load_frame (fp fa sa : option string) (features : bool) (st st' : State) :
  load fp fa sa features st = (inr tt, st') →
  fs st' = fs st ∧ rng st' = rng st ∧
  same_attributes (self st) (self st') ∧
  training (_model (self st')) = training (_model (self st)) ∧
  same_shapes (parameters (_model (self st))) (parameters (_model (self st'))) ∧
  ∀ k, requires_grad <$> parameters (_model (self st')) !! k
       = requires_grad <$> parameters (_model (self st)) !! k
       ∧ grad <$> parameters (_model (self st')) !! k
         = grad <$> parameters (_model (self st)) !! k.
Proof.
  intros (pre & sd & ->)%load_inr.
  split; [done|]. split; [done|]. split; [done|]. split; [done|].
  simpl. split.
  - intros k. rewrite load_params_lookup_below.
    destruct (parameters (_model (self st)) !! k) as [p|]; [|done]. simpl.
    destruct (strip_prefix pre k ≫= _) as [t|]; [|done].
    destruct (decide _) as [Heq|]; [|done]. simpl. by rewrite Heq.
  - intros k. rewrite load_params_lookup_below.
    destruct (parameters (_model (self st)) !! k) as [p|]; [|done]. simpl.
    destruct (strip_prefix pre k ≫= _) as [t|]; [|done].
    by destruct (decide _).
Qed.

Lemma load_frame_witness :
  ∃ st', load (Some "/tmp/ckpt/model.pth") None None true Examples.saved_state = (inr tt, st')
         ∧ fs st' = fs Examples.saved_state.
Proof.
  eexists. split; [vm_compute; reflexivity|].
  match goal with
  | |- fs ?st' = _ =>
      apply (load_frame (Some "/tmp/ckpt/model.pth") None None true Examples.saved_state st')
  end.
  vm_compute. reflexivity.
Defined.

(** X14. Round trip of the classifier alone. Once [save] with
    [features=False] has returned and the parameters have been replaced by
    any others of the same names and shapes, [load] with [features=False]
    from the same path returns; afterwards every parameter below
    [classifier] has the value it had when it was saved, and every other
    parameter is what it was before the [load]. *)
Theorem save_load_classifier (st st1 : State) (fp fa sa : option string)
    (ps' : gmap string Param) :
  save fp fa sa false st = (inr tt, st1) →
  same_shapes (parameters (_model (self st))) ps' →
  ∃ st3,
    load fp fa sa false (perturb ps' st1) = (inr tt, st3) ∧
    ∀ k, if decide (is_Some (strip_prefix "classifier." k))
         then data <$> parameters (_model (self st3)) !! k
              = data <$> parameters (_model (self st)) !! k
         else parameters (_model (self st3)) !! k = ps' !! k.
Proof.
  intros (path & folder & Hres & Hfolder & Hpath & Hself & _ & Hfile)%save_inr Hshapes.
  set (ps := parameters (_model (self st))) in *.
  set (sd := state_dict "classifier." (_model (self st))) in *.
  assert (strict_ok "classifier." sd ps' = true) as Hok.
  { unfold strict_ok. apply bool_decide_eq_true_2. split.
    - intros k p' Hk. unfold param_ok. simpl.
      destruct (strip_prefix "classifier." k) as [k'|] eqn:Hpre; [|done].
      apply strip_prefix_Some in Hpre as ->.
      unfold sd. rewrite state_dict_lookup. fold ps.
      specialize (Hshapes ("classifier." +:+ k')). rewrite Hk in Hshapes.
      destruct (ps !! ("classifier." +:+ k')) as [p|]; [|done]. simpl in *.
      apply bool_decide_eq_true_2. congruence.
    - intros k' t Hk'. simpl. unfold sd in Hk'. rewrite state_dict_lookup in Hk'. fold ps in Hk'.
      specialize (Hshapes ("classifier." +:+ k')).
      destruct (ps !! ("classifier." +:+ k')) as [p|]; [|done].
      destruct (ps' !! ("classifier." +:+ k')); [eauto|done]. }
  set (st3 := set_self (set_net (set_parameters (load_params "classifier." sd)))
                (perturb ps' st1)).
  assert (load_file path false (perturb ps' st1) = (inr tt, st3)) as Hload.
  { unfold load_file. erewrite bind_run by reflexivity.
    assert (path_exists (fs (perturb ps' st1)) path = true) as ->.
    { unfold path_exists, is_file. rewrite bool_decide_false by done.
      change (fs (perturb ps' st1)) with (fs st1). rewrite Hfile.
      rewrite (bool_decide_true (is_Some _)) by eauto. apply orb_true_r. }
    apply try_except_run.
    assert (torch_load path (perturb ps' st1) = (inr sd, perturb ps' st1)) as Htl.
    { unfold torch_load. erewrite bind_run by reflexivity. simpl. by rewrite Hfile. }
    erewrite bind_run by apply Htl.
    unfold load_state_dict. erewrite bind_run by reflexivity.
    erewrite bind_run by reflexivity. simpl. by rewrite Hok. }
  exists st3. split.
  - unfold load. destruct fp as [p|].
    + destruct Hres as [-> ->].
      rewrite bool_decide_false; [done|]. intros ->. by apply Hfolder.
    + destruct Hres as [Hf ->].
      pose proof (default_file_path_run fa sa (perturb ps' st1) folder) as Hdef.
      unfold effective_folder in Hdef, Hf. simpl in Hdef. rewrite Hself in Hdef.
      specialize (Hdef Hf). by rewrite (bind_run _ _ _ _ _ Hdef).
  - intros k. simpl. rewrite load_params_lookup_below.
    destruct (decide (is_Some (strip_prefix "classifier." k))) as [[k' Hpre]|Hnone].
    + rewrite Hpre. simpl. apply strip_prefix_Some in Hpre as ->.
      unfold sd. rewrite state_dict_lookup. fold ps.
      specialize (Hshapes ("classifier." +:+ k')).
      destruct (ps !! ("classifier." +:+ k')) as [p|],
               (ps' !! ("classifier." +:+ k')) as [p'|]; simpl in *; try done.
      rewrite decide_True by congruence. done.
    + destruct (strip_prefix "classifier." k); [by destruct Hnone|].
      simpl. by destruct (ps' !! k).
Qed.

Lemma save_load_classifier_witness :
  ∃ st3,
    load (Some "/tmp/ckpt/classifier.pth") None None false
      (perturb MoreExamples.other_params MoreExamples.classifier_saved_state) = (inr tt, st3) ∧
    data <$> parameters (_model (self st3)) !! "classifier.fc.bias"
    = Some (mkTensor [3]%nat (Examples.qc <$> [0; 0; 0])) ∧
    data <$> parameters (_model (self st3)) !! "features.conv.weight"
    = Some (mkTensor [2]%nat (Examples.qc <$> [7; 7])).
Proof.
  destruct (save_load_classifier MoreExamples.two_part_state
              MoreExamples.classifier_saved_state
              (Some "/tmp/ckpt/classifier.pth") None None MoreExamples.other_params)
    as (st3 & Hload & Hk).
  - vm_compute. reflexivity.
  - intros k. unfold MoreExamples.other_params. simpl.
    destruct (decide (k = "features.conv.weight")) as [->|Hf]; [reflexivity|].
    destruct (decide (k = "classifier.fc.weight")) as [->|Hw]; [reflexivity|].
    destruct (decide (k = "classifier.fc.bias")) as [->|Hb]; [reflexivity|].
    rewrite !lookup_insert_ne by done. by rewrite !lookup_singleton_ne by done.
  - exists st3. split; [exact Hload|]. split.
    + pose proof (Hk "classifier.fc.bias") as H. rewrite decide_True in H by by eexists.
      rewrite H. reflexivity.
    + pose proof (Hk "features.conv.weight") as H.
      rewrite decide_False in H by (by intros [? ?]). rewrite H. reflexivity.
Defined.

End CheckpointMoreFacts.

(* ===================================================================== *)
(** * Inference, further *)
(* ===================================================================== *)

Module InferenceFacts.
Import Py Torch Wrapper WrapperMore PyFacts TargetFacts LogitsFacts TrainFacts.
Local Open Scope py_scope.

(** The first index of the sorted order has a maximal score, and is the
    arg-max once the highest score is reached by one class only. *)
Lemma argsort_desc_first (row : list Qc) :
  row ≠ [] →
  ∃ i, argsort_desc row !! 0%nat = Some i ∧ (i < length row)%nat ∧
       (∀ j, (j < length row)%nat → (row !!! j <= row !!! i)%Qc) ∧
       (top_scores_differ row → i = argmax row).
Proof.
  intros Hrow.
  pose proof (argsort_desc_sorted row) as Hsorted.
  pose proof (argsort_desc_elem row) as Helem.
  pose proof (argsort_desc_length row) as Hslen.
  destruct (argsort_desc row) as [|a s]; simpl in Hslen; [by destruct row|].
  apply StronglySorted_inv in Hsorted as [_ Ha].
  assert (a < length row)%nat as Halt by (apply Helem; left).
  assert (∀ j, (j < length row)%nat → (row !!! j <= row !!! a)%Qc) as Hmax.
  { intros j Hj. apply Helem in Hj.
    apply elem_of_cons in Hj as [->|Hj]; [apply Qcle_refl|].
    by apply (proj1 (Forall_forall _ _) Ha). }
  exists a. split; [done|]. split; [done|]. split; [done|].
  intros Hdiff. destruct (decide (a = argmax row)) as [|Hne]; [done|]. exfalso.
  destruct (argmax_max row Hrow) as [Hmi _].
  specialize (Hdiff a Halt Hne). specialize (Hmax (argmax row) Hmi).
  by eapply Qcle_not_lt.
Qed.

Section Inference.
Context (forward : Net → Tensor → exn + Tensor2 Qc).
Context (forward_train : Net → Tensor → nat → (exn + Tensor2 Qc) * nat).
Context (randn : nat → Qc).
Context (cross_entropy : option Tensor → Tensor2 Qc → list Z → exn + Q).
Context (percent : Z → Z → Q).

(** X15. Randomized smoothing without samples. With smoothing on and a
    sample count [rs_n] of zero or less, [get_logits] never calls the
    network: it raises the [RuntimeError] of [torch.stack] on an empty
    list, draws no noise and changes nothing. *)
Theorem smoothing_without_samples (_input : Tensor) (st : State)
    (rs : option bool) (sigma : option Qc) (n : option Z) :
  default (randomized_smooth (self st)) rs = true →
  default (rs_n (self st)) n ≤ 0 →
  get_logits forward forward_train randn _input rs sigma n st
  = (inl (RuntimeError "stack expects a non-empty TensorList"), st).
Proof.
  intros Hrs Hn. unfold get_logits. erewrite bind_run by reflexivity.
  rewrite Hrs. replace (Z.to_nat (default (rs_n (self st)) n)) with 0%nat by lia.
  simpl. by erewrite bind_run by reflexivity.
Qed.

Lemma get_class_keeps_self (_input : Tensor) :
  keeps_self (get_class forward forward_train randn _input).
Proof.
  unfold get_class. apply keeps_self_bind; [apply get_logits_keeps_self|].
  intros out. case_bool_decide; [apply keeps_self_raise|apply keeps_self_ret].
Qed.

Lemma get_logits_plain (_input : Tensor) (st : State) :
  randomized_smooth (self st) = false → training (_model (self st)) = false →
  get_logits forward forward_train randn _input None None None st
  = (forward (_model (self st)) _input, st).
Proof.
  intros Hrs Hmode. unfold get_logits. erewrite bind_run by reflexivity. simpl.
  rewrite Hrs. apply call_model_deterministic. by left.
Qed.

(** X16. Inference leaves the wrapper alone. However they end,
    [get_logits], [get_class], [loss] and [accuracy] change no attribute
    of the wrapper and no parameter of its network; and on a network in
    evaluation mode, without randomized smoothing, the first three change
    nothing at all, the position in the stream of draws included. In
    training mode the dropout layers of the classifier draw. *)
Theorem inference_keeps_wrapper :
  (∀ _input rs sigma n, keeps_self (get_logits forward forward_train randn _input rs sigma n))
  ∧ (∀ _input, keeps_self (get_class forward forward_train randn _input))
  ∧ (∀ _input _label amp,
       keeps_self (loss forward forward_train randn cross_entropy _input _label amp))
  ∧ (∀ _output _label topk, keeps_self (accuracy percent _output _label topk))
  ∧ (∀ st _input _label amp,
       randomized_smooth (self st) = false → training (_model (self st)) = false →
       (get_logits forward forward_train randn _input None None None st).2 = st ∧
       (get_class forward forward_train randn _input st).2 = st ∧
       (loss forward forward_train randn cross_entropy _input _label amp st).2 = st).
Proof.
  split; [intros; apply get_logits_keeps_self|].
  split; [intros; apply get_class_keeps_self|].
  split; [intros; apply loss_keeps_self|].
  split; [intros; apply accuracy_keeps_self|].
  intros st _input _label amp Hrs Hmode. split; [by rewrite get_logits_plain|]. split.
  - unfold get_class, bind. rewrite get_logits_plain by done.
    destruct (forward _ _) as [e|out]; [done|]. by case_bool_decide.
  - unfold loss, call, bind at 1.
    replace (if amp then get_logits forward forward_train randn _input None None None
             else get_logits forward forward_train randn _input None None None)
      with (get_logits forward forward_train randn _input None None None)
      by by destruct amp.
    rewrite get_logits_plain by done.
    destruct (forward _ _) as [e|out]; [done|].
    unfold loss_fn, bind, get, lift, ret, raise. simpl.
    by destruct (loss_weights (self st)).
Qed.

(** X17. The class [get_class] returns. For every example it is a class
    of the logits [get_logits] returned inside the call whose score no
    other class exceeds; there is one class per example. *)
Theorem get_class_maximal (_input : Tensor) (st st' : State) (classes : list Z) :
  get_class forward forward_train randn _input st = (inr classes, st') →
  ∃ out,
    get_logits forward forward_train randn _input None None None st = (inr out, st') ∧
    length classes = dim0 out ∧
    Forall2 (λ row c,
               length row = dim1 out →
               ∃ i, c = Z.of_nat i ∧ (i < length row)%nat ∧
                    ∀ j, (j < length row)%nat → (row !!! j <= row !!! i)%Qc)
            (rows out) classes.
Proof.
  unfold get_class. intros Hrun.
  apply bind_inr in Hrun as (out & s1 & Hlogits & Hrun).
  case_bool_decide as Hdim; [done|]. apply ret_inr in Hrun as [-> ->].
  exists out. split; [done|]. split; [unfold dim0; by rewrite length_fmap|].
  apply Forall2_fmap_r, Forall_Forall2_diag, Forall_forall.
  intros row _ Hlen. exists (argmax row). split; [done|].
  apply argmax_max. intros ->. simpl in Hlen. congruence.
Qed.

(** X18. [generate_target] with [idx = 0]. The target of every example
    is then a class with the highest logit score, and the arg-max of the
    logits when that score is reached by one class only. *)
Theorem generate_target_top (_input : Tensor) (st st' : State) (target : list Z) :
  generate_target forward forward_train randn _input 0 false st = (inr target, st') →
  ∃ (size0 : nat) (out : Tensor2 Qc),
    get_logits forward forward_train randn (unsqueeze_example _input) None None None
      (set_self (set_batch_size (Some (Z.of_nat size0))) st) = (inr out, st') ∧
    Forall2 (λ row t,
               length row = dim1 out →
               ∃ i, t = Z.of_nat i ∧ (i < length row)%nat ∧
                    (∀ j, (j < length row)%nat → (row !!! j <= row !!! i)%Qc) ∧
                    (top_scores_differ row → t = Z.of_nat (argmax row)))
            (rows out) target.
Proof.
  unfold generate_target. intros Hrun.
  apply bind_inr in Hrun as (size0 & s1 & Hsize & Hrun).
  destruct (shape (unsqueeze_example _input)) as [|n sh]; [done|].
  apply ret_inr in Hsize as [-> ->].
  apply bind_inr in Hrun as ([] & s1 & ->%modify_inr & Hrun).
  apply bind_inr in Hrun as (out & s1 & Hlogits & Hrun).
  apply bind_inr in Hrun as (tgt & s2 & [Hcol ->]%lift_inr & Hrun).
  apply ret_inr in Hrun as [-> ->].
  exists n, out. split; [done|].
  unfold tensor_column in Hcol. simpl in Hcol.
  case_bool_decide as Hrange; [|done]. injection Hcol as <-.
  rewrite <- list_fmap_compose. apply Forall2_fmap_r, Forall_Forall2_diag, Forall_forall.
  intros row _ Hlen. simpl.
  destruct (argsort_desc_first row) as (i & Hi & Hlt & Hmax & Harg).
  { intros ->. simpl in Hlen. lia. }
  exists i. change (Z.to_nat 0) with 0%nat.
  rewrite (list_lookup_total_correct _ _ (Z.of_nat i)) by by rewrite list_lookup_fmap, Hi.
  split; [done|]. split; [done|]. split; [done|]. intros Hdiff. by rewrite <- Harg.
Qed.

(** X19. The batch size [generate_target] records. However the call
    ends, it has set [self.batch_size] to the first dimension of the
    input, to 1 for a single example of three dimensions, and has changed
    nothing else of the wrapper; an input without dimensions changes
    nothing. *)
Theorem generate_target_batch_size (_input : Tensor) (idx : Z) (same : bool)
    (st st' : State) r :
  generate_target forward forward_train randn _input idx same st = (r, st') →
  self st' = match shape (unsqueeze_example _input) with
             | n :: _ => set_batch_size (Some (Z.of_nat n)) (self st)
             | [] => self st
             end
  ∧ (length (shape _input) = 3%nat → batch_size (self st') = Some 1).
Proof.
  intros Hrun.
  assert (self st' = match shape (unsqueeze_example _input) with
                     | n :: _ => set_batch_size (Some (Z.of_nat n)) (self st)
                     | [] => self st
                     end) as Hself.
  { revert Hrun. unfold generate_target.
    destruct (shape (unsqueeze_example _input)) as [|n sh].
    { unfold bind, raise. by intros [= _ <-]. }
    erewrite bind_run by reflexivity. erewrite bind_run by reflexivity.
    intros Hrun.
    assert (keeps_self
      (_output <- get_logits forward forward_train randn (unsqueeze_example _input) None None None
          ;;
       target <- lift (tensor_column (tensor_argsort_desc _output) idx) ;;
       (if same then mode <- lift (tensor_mode target) ;; ret (repeat_to_batch mode n)
        else ret target))) as Hkeep.
    { apply keeps_self_bind; [apply get_logits_keeps_self|]. intros out.
      apply keeps_self_bind; [apply keeps_self_lift|]. intros target.
      destruct same; [|apply keeps_self_ret].
      apply keeps_self_bind; [apply keeps_self_lift|]. intros ?. apply keeps_self_ret. }
    by rewrite (Hkeep _ _ _ Hrun). }
  split; [done|]. intros H3. rewrite Hself. unfold unsqueeze_example.
  rewrite bool_decide_true by done. reflexivity.
Qed.

(** X20. A rank that is not there. When [idx] is not an index of the
    classes of the logits, neither from the front nor (negative) from the
    end, [generate_target] raises [IndexError] after the forward pass, the
    batch size already recorded: so does the default [idx = 1] on a
    network of one class. *)
Theorem generate_target_rank_out_of_range (_input : Tensor) (idx : Z) (same : bool)
    (st st' : State) (size0 : nat) sh (out : Tensor2 Qc) :
  shape (unsqueeze_example _input) = size0 :: sh →
  get_logits forward forward_train randn (unsqueeze_example _input) None None None
    (set_self (set_batch_size (Some (Z.of_nat size0))) st) = (inr out, st') →
  ¬ (- Z.of_nat (dim1 out) ≤ idx < Z.of_nat (dim1 out)) →
  generate_target forward forward_train randn _input idx same st
  = (inl (IndexError "index is out of bounds for dimension 1"), st').
Proof.
  intros Hshape Hlogits Hidx. unfold generate_target. rewrite Hshape.
  erewrite bind_run by reflexivity. erewrite bind_run by reflexivity.
  erewrite bind_run by apply Hlogits.
  erewrite bind_raise; [reflexivity|].
  unfold tensor_column, lift. simpl.
  rewrite bool_decide_false; [done|]. case_bool_decide; lia.
Qed.

End Inference.

Lemma smoothing_without_samples_witness :
  get_logits Examples.example_forward Examples.example_forward_train Examples.example_randn
      Examples.example_input
    (Some true) None (Some 0) Examples.example_state
  = (inl (RuntimeError "stack expects a non-empty TensorList"), Examples.example_state).
Proof.
  apply (smoothing_without_samples Examples.example_forward Examples.example_forward_train
      Examples.example_randn);
    [reflexivity|simpl; lia].
Defined.

Lemma get_class_maximal_witness :
  ∃ out,
    get_logits Examples.example_forward Examples.example_forward_train Examples.example_randn
        Examples.example_input
      None None None Examples.example_state = (inr out, Examples.example_state) ∧
    length [2; 0; 1; 0] = dim0 out.
Proof.
  destruct (get_class_maximal Examples.example_forward Examples.example_forward_train
      Examples.example_randn
              Examples.example_input Examples.example_state Examples.example_state
              [2; 0; 1; 0]) as (out & Hout & Hlen & _); [vm_compute; reflexivity|].
  exists out. split; [exact Hout|exact Hlen].
Defined.

Lemma generate_target_top_witness :
  ∃ (size0 : nat) (out : Tensor2 Qc),
    get_logits Examples.example_forward Examples.example_forward_train Examples.example_randn
      (unsqueeze_example Examples.example_input) None None None
      (set_self (set_batch_size (Some (Z.of_nat size0))) Examples.example_state)
    = (inr out, set_self (set_batch_size (Some 4)) Examples.example_state) ∧
    Forall2 (λ row t,
               length row = dim1 out →
               ∃ i, t = Z.of_nat i ∧ (i < length row)%nat ∧
                    (∀ j, (j < length row)%nat → (row !!! j <= row !!! i)%Qc) ∧
                    (top_scores_differ row → t = Z.of_nat (argmax row)))
            (rows out) [2; 0; 1; 0].
Proof.
  apply (generate_target_top Examples.example_forward Examples.example_forward_train
      Examples.example_randn
           Examples.example_input Examples.example_state).
  vm_compute. reflexivity.
Defined.

Lemma generate_target_batch_size_witness :
  batch_size (self (generate_target Examples.example_forward Examples.example_forward_train
      Examples.example_randn
                      MoreExamples.single_example 1 false Examples.example_state).2)
  = Some 1.
Proof.
  eapply (generate_target_batch_size Examples.example_forward Examples.example_forward_train
      Examples.example_randn
            MoreExamples.single_example 1 false Examples.example_state);
    [apply surjective_pairing|reflexivity].
Defined.

Lemma generate_target_rank_out_of_range_witness :
  generate_target Examples.example_forward Examples.example_forward_train Examples.example_randn
      Examples.example_input
    3 false Examples.example_state
  = (inl (IndexError "index is out of bounds for dimension 1"),
     set_self (set_batch_size (Some 4)) Examples.example_state).
Proof.
  apply (generate_target_rank_out_of_range Examples.example_forward Examples.example_forward_train
      Examples.example_randn
           Examples.example_input 3 false Examples.example_state
           (set_self (set_batch_size (Some 4)) Examples.example_state)
           4%nat [1; 1; 2]%nat Examples.example_logits);
    [reflexivity|vm_compute; reflexivity|simpl; lia].
Defined.

End InferenceFacts.

(* ===================================================================== *)
(** * Top-k accuracy, further *)
(* ===================================================================== *)

Module AccuracyMoreFacts.
Import Py Torch Wrapper WrapperMore PyFacts AccuracyFacts TargetFacts.
Local Open Scope py_scope.

Lemma filter_length_le_1 {A} (P : A → Prop) `{∀ x, Decision (P x)} (l : list A) :
  NoDup l → (∀ x y, x ∈ l → y ∈ l → P x → P y → x = y) →
  (length (filter P l) ≤ 1)%nat.
Proof.
  intros Hnd Huniq. pose proof (NoDup_filter P l Hnd) as Hndf.
  destruct (filter P l) as [|a [|b t]] eqn:Hf; simpl; [lia..|]. exfalso.
  assert (a ∈ filter P l) as [Pa Ha]%list_elem_of_filter by (rewrite Hf; set_solver).
  assert (b ∈ filter P l) as [Pb Hb]%list_elem_of_filter by (rewrite Hf; set_solver).
  apply NoDup_cons in Hndf as [Hab _]. apply Hab. rewrite (Huniq a b) by done. left.
Qed.

Lemma filter_length_ge_1 {A} (P : A → Prop) `{∀ x, Decision (P x)} (l : list A) (x : A) :
  x ∈ l → P x → (1 ≤ length (filter P l))%nat.
Proof.
  intros Hx HP. assert (x ∈ filter P l) as Hin by by apply list_elem_of_filter.
  destruct (filter P l); [by apply elem_of_nil in Hin|simpl; lia].
Qed.

Lemma ranks_lookup (row : list Qc) (i : nat) :
  (i < length row)%nat →
  (Z.of_nat <$> argsort_desc row) !!! i = Z.of_nat (argsort_desc row !!! i).
Proof.
  intros Hi. apply (@list_lookup_total_fmap nat Z Z.of_nat _ _).
  by rewrite argsort_desc_length.
Qed.

Lemma hits_le (row : list Qc) (label : Z) (m : nat) :
  (m ≤ length row)%nat → (hits row label m ≤ 1)%nat.
Proof.
  intros Hm. unfold hits. apply filter_length_le_1; [apply NoDup_seq|].
  intros i j Hi%elem_of_seq Hj%elem_of_seq Pi%bool_decide_eq_true Pj%bool_decide_eq_true.
  rewrite ranks_lookup in Pi, Pj by lia.
  assert (argsort_desc row !!! i = argsort_desc row !!! j) as Heq by lia.
  assert (NoDup (argsort_desc row)) as Hnd by (rewrite argsort_desc_perm; apply NoDup_seq).
  eapply (NoDup_lookup _ _ _ _ Hnd).
  - apply list_lookup_lookup_total_lt. rewrite argsort_desc_length. lia.
  - rewrite Heq. apply list_lookup_lookup_total_lt. rewrite argsort_desc_length. lia.
Qed.

Lemma hits_full (row : list Qc) (label : Z) :
  0 ≤ label < Z.of_nat (length row) → hits row label (length row) = 1%nat.
Proof.
  intros Hl. pose proof (hits_le row label (length row) (le_n _)) as Hle.
  assert (Z.to_nat label ∈ argsort_desc row) as [i Hi]%list_elem_of_lookup_1
    by (apply argsort_desc_elem; lia).
  pose proof (lookup_lt_Some _ _ _ Hi) as Hlt. rewrite argsort_desc_length in Hlt.
  assert (1 ≤ hits row label (length row))%nat; [|lia].
  unfold hits. apply (filter_length_ge_1 _ _ i); [apply elem_of_seq; lia|].
  apply bool_decide_eq_true. rewrite ranks_lookup by done.
  rewrite (list_lookup_total_correct _ _ _ Hi). lia.
Qed.

Lemma count_true_cons_rows (b : nat → bool) (t : nat → list bool) (l : list nat) :
  count_true ((λ i, b i :: t i) <$> l)
  = Z.of_nat (length (filter (λ i, b i = true) l)) + count_true (t <$> l).
Proof.
  unfold count_true. induction l as [|i l IH]; [done|].
  rewrite !fmap_cons, !concat_cons. simpl.
  rewrite !filter_cons, !filter_app.
  destruct (b i); simpl; repeat case_decide; try done; simpl; rewrite !length_app; lia.
Qed.

Lemma count_true_nil_rows {A} (l : list A) : count_true ((λ _, []) <$> l) = 0.
Proof. unfold count_true. induction l as [|i l IH]; [done|]. by rewrite fmap_cons, concat_cons. Qed.

(** The number of [True] entries in the first [m] rows of [correct],
    counted example by example. *)
Lemma count_table (rs : list (list Qc)) (labels : list Z) (m : nat) :
  count_true ((λ i, zip_with (λ p l, bool_decide (p = l))
                      ((λ r, (Z.of_nat <$> argsort_desc r) !!! i) <$> rs) labels)
              <$> seq 0 m)
  = Z.of_nat (sum_list (zip_with (λ r l, hits r l m) rs labels)).
Proof.
  revert labels. induction rs as [|r rs IH]; intros labels.
  { simpl. apply count_true_nil_rows. }
  destruct labels as [|l labels].
  { simpl. apply count_true_nil_rows. }
  rewrite (list_fmap_ext _
             (λ i, bool_decide ((Z.of_nat <$> argsort_desc r) !!! i = l)
                   :: zip_with (λ p l, bool_decide (p = l))
                        ((λ r, (Z.of_nat <$> argsort_desc r) !!! i) <$> rs) labels)
             (seq 0 m)) by (intros; reflexivity).
  rewrite (count_true_cons_rows
             (λ i, bool_decide ((Z.of_nat <$> argsort_desc r) !!! i = l))
             (λ i, zip_with (λ p l, bool_decide (p = l))
                     ((λ r, (Z.of_nat <$> argsort_desc r) !!! i) <$> rs) labels)).
  rewrite IH. simpl. unfold hits. lia.
Qed.

Lemma sum_hits_le (rs : list (list Qc)) (labels : list Z) (m : nat) :
  Forall (λ r, (m ≤ length r)%nat) rs →
  (sum_list (zip_with (λ r l, hits r l m) rs labels) ≤ length labels)%nat.
Proof.
  intros Hrs. revert labels. induction Hrs as [|r rs Hr _ IH]; intros labels; [simpl; lia|].
  destruct labels as [|l labels]; simpl; [lia|].
  pose proof (hits_le r l m Hr). specialize (IH labels). lia.
Qed.

Lemma sum_hits_full (rs : list (list Qc)) (labels : list Z) (m : nat) :
  Forall (λ r, length r = m) rs → Forall (λ l, 0 ≤ l < Z.of_nat m) labels →
  length labels = length rs →
  sum_list (zip_with (λ r l, hits r l m) rs labels) = length labels.
Proof.
  intros Hrs. revert labels.
  induction Hrs as [|r rs Hr _ IH]; intros labels Hl Hlen;
    destruct labels as [|l labels]; simpl in *; try done.
  apply Forall_cons in Hl as [Hl Hls].
  rewrite IH by (done || lia). subst m. rewrite hits_full by done. lia.
Qed.

Lemma expand_labels_same (labels : list Z) (n : nat) :
  length labels = n → expand_labels labels n = inr labels.
Proof. intros Hn. unfold expand_labels. by rewrite bool_decide_true. Qed.

Section Accuracy.
Context (percent : Z → Z → Q).

(** X21. The values of an accuracy. With one label per example and
    logits whose rows all have the width of the tensor, every value
    [accuracy] returns is 100, for a [k] above [num_classes], or the
    product [correct_k * (100.0 / batch_size)] as single precision gives
    it, for a count [correct_k] of examples between 0 and the size of the
    batch: an example counts at most once, since the ranks of a row name
    pairwise different classes. So, when the rounding keeps the order of
    the counts, every value lies between the products for no example and
    for all of them. *)
Theorem accuracy_bounds out lab topk st res st' :
  accuracy percent out lab topk st = (inr res, st') →
  length lab = dim0 out →
  Forall (λ row, length row = dim1 out) (rows out) →
  let batch_size := Z.of_nat (length lab) in
  Forall (λ r, r = (100 # 1)%Q ∨
               ∃ correct_k, 0 ≤ correct_k ≤ batch_size ∧ r = percent correct_k batch_size)
         res
  ∧ (monotone_percent percent →
     Forall (λ r, r = (100 # 1)%Q ∨
                  (percent 0 batch_size <= r)%Q ∧ (r <= percent batch_size batch_size)%Q)
            res).
Proof.
  intros (m & nc & labels & -> & Hm & Hnc & Hlab & Hrange & Hall)%accuracy_inr Hlen Hrows.
  rewrite expand_labels_same in Hlab by done. injection Hlab as <-.
  assert (Forall (λ r, r = (100 # 1)%Q ∨
                       ∃ c, 0 ≤ c ≤ Z.of_nat (length lab) ∧ Z.of_nat (length lab) ≠ 0 ∧
                            r = percent c (Z.of_nat (length lab))) res) as Hres.
  { apply Forall_forall. intros r [i Hi]%list_elem_of_lookup_1.
    destruct (Forall2_lookup_r _ _ _ _ _ Hall Hi) as (k & Hk & Hentry).
    unfold accuracy_entry in Hentry. case_bool_decide; [by left|].
    destruct Hentry as (_ & Hb & ->). right.
    set (table := correct_row out lab <$> seq 0 (Z.to_nat (m `min` nc))) in *.
    exists (count_true (slice_to k table)). split; [|done].
    split; [apply count_true_nonneg|].
    destruct (slice_to_take k table) as (n & -> & _).
    etrans; [apply count_true_take|]. unfold table, correct_row, rank_row.
    rewrite count_table. apply inj_le, sum_hits_le.
    eapply Forall_impl; [exact Hrows|]. simpl. intros row ->. lia. }
  simpl. split.
  - eapply Forall_impl; [exact Hres|]. simpl.
    intros r [->|(c & Hc & _ & ->)]; [by left|]. right. by exists c.
  - intros Hmono. eapply Forall_impl; [exact Hres|]. simpl.
    intros r [->|(c & [Hc0 Hc1] & Hb & ->)]; [by left|]. right.
    split; apply Hmono; lia.
Qed.

(** Top-[num_classes] accuracy. With one valid label per example and
    logits as wide as there are classes, the value [accuracy] returns for
    [k = num_classes], where it returns one, is the product for a batch
    that is right in every example: the ranks of a row name every class,
    so every label is among them. *)
Lemma accuracy_top_all out lab topk st res st' nc :
  accuracy percent out lab topk st = (inr res, st') →
  num_classes (self st) = Some nc →
  Z.of_nat (dim1 out) = nc →
  length lab = dim0 out →
  Forall (λ row, length row = dim1 out) (rows out) →
  Forall (λ l, 0 ≤ l < nc) lab →
  ∀ i r, topk !! i = Some nc → res !! i = Some r →
         r = percent (Z.of_nat (length lab)) (Z.of_nat (length lab)).
Proof.
  intros (m & nc' & labels & -> & Hm & Hnc' & Hlab & Hrange & Hall)%accuracy_inr
         Hnc Hdim Hlen Hrows Hvalid i r Hk Hi.
  assert (nc' = nc) as -> by congruence.
  rewrite expand_labels_same in Hlab by done. injection Hlab as <-.
  assert (nc ≤ m) as Hle by (eapply max_of_ge; [done|by eapply list_elem_of_lookup_2]).
  rewrite Z.min_r in Hall by done.
  pose proof (Forall2_lookup_lr _ _ _ _ _ _ Hall Hk Hi) as Hentry.
  unfold accuracy_entry in Hentry. rewrite bool_decide_false in Hentry by lia.
  destruct Hentry as (_ & Hb & ->).
  set (table := correct_row out lab <$> seq 0 (Z.to_nat nc)) in *.
  f_equal.
  destruct (slice_to_take nc table) as (n & -> & Hn). rewrite Hn by lia.
  rewrite take_ge by (unfold table; rewrite length_fmap, length_seq; lia).
  unfold table, correct_row, rank_row. rewrite count_table. f_equal.
  apply sum_hits_full; [| |done].
  - eapply Forall_impl; [exact Hrows|]. simpl. intros row ->. lia.
  - eapply Forall_impl; [exact Hvalid|]. simpl. intros l Hl. lia.
Qed.

Lemma accuracy_res_zero nc (correct : Tensor2 bool) (topk : list Z) (st : State) (k : Z) :
  dim1 correct = 0%nat → k ∈ topk → k ≤ nc →
  accuracy_res percent nc 0 correct topk st
  = (inl (ZeroDivisionError "float division by zero"), st).
Proof.
  intros Hcols Hk Hle. induction topk as [|k0 topk IH]; [by apply elem_of_nil in Hk|].
  simpl. case_bool_decide as Hk0.
  - erewrite bind_run by reflexivity. erewrite bind_raise; [reflexivity|].
    apply IH. apply elem_of_cons in Hk as [->|Hk]; [lia|done].
  - unfold view_flat. rewrite bool_decide_false by lia.
    by erewrite bind_raise by (by erewrite bind_run by reflexivity).
Qed.

(** X23. An empty batch. On logits without rows and no labels,
    [accuracy] raises [ZeroDivisionError] as soon as one of the requested
    [k] is not above [num_classes]: the scale [100.0 / batch_size] divides
    by zero. *)
Theorem accuracy_empty_batch out topk st m nc k :
  rows out = [] →
  max_of topk = inr m → num_classes (self st) = Some nc →
  0 ≤ Z.min m nc ≤ Z.of_nat (dim1 out) →
  k ∈ topk → k ≤ nc →
  accuracy percent out [] topk st
  = (inl (ZeroDivisionError "float division by zero"), st).
Proof.
  intros Hrows Hm Hnc Hrange Hk Hle. unfold accuracy.
  erewrite bind_run by reflexivity. rewrite Hm. erewrite bind_run by reflexivity.
  rewrite Hnc. erewrite bind_run by reflexivity.
  unfold tensor_topk. rewrite bool_decide_true by done.
  erewrite bind_run by reflexivity. rewrite Hrows.
  erewrite bind_run by reflexivity.
  by eapply accuracy_res_zero.
Qed.

(** Arguments [accuracy] refuses. An empty [topk] raises the
    [ValueError] of [max]; a wrapper without [num_classes] raises the
    [TypeError] of [min(int, None)]; and when [min(max(topk),
    num_classes)] is more than the logits have columns, [topk] of
    [torch] raises [RuntimeError]: so with the default [topk=(1, 5)] on
    logits of fewer than five columns when [num_classes] is five or more.
    The state is as before in every case. *)
Lemma accuracy_argument_errors out lab st :
  accuracy percent out lab [] st = (inl (ValueError "max() arg is an empty sequence"), st)
  ∧ (∀ topk, topk ≠ [] → num_classes (self st) = None →
       accuracy percent out lab topk st
       = (inl (TypeError "'<' not supported between instances of 'NoneType' and 'int'"), st))
  ∧ (∀ topk m nc,
       max_of topk = inr m → num_classes (self st) = Some nc →
       ¬ (0 ≤ Z.min m nc ≤ Z.of_nat (dim1 out)) →
       accuracy percent out lab topk st
       = (inl (RuntimeError "selected index k out of range"), st)).
Proof.
  split; [|split].
  - unfold accuracy. erewrite bind_run by reflexivity. by erewrite bind_raise by reflexivity.
  - intros topk Htopk Hnc. unfold accuracy. erewrite bind_run by reflexivity.
    destruct topk as [|k topk]; [done|]. erewrite bind_run by reflexivity.
    rewrite Hnc. by erewrite bind_raise by reflexivity.
  - intros topk m nc Hm Hnc Hrange. unfold accuracy. erewrite bind_run by reflexivity.
    rewrite Hm. erewrite bind_run by reflexivity. rewrite Hnc.
    erewrite bind_run by reflexivity.
    unfold tensor_topk. rewrite bool_decide_false by done.
    by erewrite bind_raise by reflexivity.
Qed.

End Accuracy.

(** The theorem on four examples over three classes: one of the four is
    right at top-1, and the top-5 exceeds the classes. *)
Lemma accuracy_bounds_witness :
  Forall (λ r, r = (100 # 1)%Q ∨
               ∃ correct_k, 0 ≤ correct_k ≤ 4 ∧ r = Examples.example_percent correct_k 4)
         [(100 # 4)%Q; (100 # 1)%Q]
  ∧ (monotone_percent Examples.example_percent →
     Forall (λ r, r = (100 # 1)%Q ∨
                  (Examples.example_percent 0 4 <= r)%Q ∧
                  (r <= Examples.example_percent 4 4)%Q)
            [(100 # 4)%Q; (100 # 1)%Q]).
Proof.
  apply (accuracy_bounds Examples.example_percent Examples.distinct_logits
           Examples.example_labels [1; 5] Examples.example_state _ Examples.example_state);
    [vm_compute; reflexivity|reflexivity|repeat constructor].
Defined.

Lemma accuracy_empty_batch_witness :
  accuracy Examples.example_percent {| dim1 := 3; rows := [] |} [] [1; 5]
    Examples.example_state
  = (inl (ZeroDivisionError "float division by zero"), Examples.example_state).
Proof.
  apply (accuracy_empty_batch Examples.example_percent {| dim1 := 3; rows := [] |} [1; 5]
           Examples.example_state 5 3 1);
    [reflexivity|reflexivity|reflexivity|simpl; lia|left|lia].
Defined.

End AccuracyMoreFacts.

(* ===================================================================== *)
(** * Training and validation, further *)
(* ===================================================================== *)

Module TrainMoreFacts.
Import Py Torch Wrapper WrapperMore PyFacts CheckpointFacts LogitsFacts LifecycleFacts.
Import TrainFacts ParametersFacts.
Local Open Scope py_scope.

Lemma keeps_self_foldM {A B} (body : B → A → M State B) :
  (∀ acc x, keeps_self (body acc x)) → ∀ l acc, keeps_self (foldM body l acc).
Proof.
  intros Hbody l. induction l as [|x l IH]; intros acc; simpl; [apply keeps_self_ret|].
  apply keeps_self_bind; [apply Hbody|]. intros acc'. apply IH.
Qed.

Section Loop.
Context (forward : Net → Tensor → exn + Tensor2 Qc).
Context (forward_train : Net → Tensor → nat → (exn + Tensor2 Qc) * nat).
Context (randn : nat → Qc).
Context (cross_entropy : option Tensor → Tensor2 Qc → list Z → exn + Q).
Context (percent : Z → Z → Q).
Context (Batch : Type).
Context (dataset_loader : Dataset → string → exn + list Batch).
Context (dataset_get_data : Dataset → Batch → string → M State (Tensor * list Z)).
Context (unpack : Batch → exn + (Tensor * list Z)).
Context (backward_step : bool → Q → M State unit).
Context (optimizer_zero_grad : M State unit).
Context (lr_scheduler_step : M State unit).

Local Abbreviation train_epoch' :=
  (train_epoch forward forward_train randn percent Batch backward_step
     optimizer_zero_grad lr_scheduler_step).
Local Abbreviation _train' :=
  (_train forward forward_train randn cross_entropy percent Batch dataset_loader
     dataset_get_data unpack backward_step optimizer_zero_grad lr_scheduler_step).
Local Abbreviation _validate' :=
  (_validate forward forward_train randn cross_entropy percent Batch dataset_loader
     dataset_get_data unpack).
Local Abbreviation get_data_of a :=
  (default (get_data Batch dataset_get_data unpack) (get_data_arg Batch a)).
Local Abbreviation loss_fn_of a :=
  (default (loss forward forward_train randn cross_entropy) (loss_fn_arg Batch a)).
Local Abbreviation validate_func_of a :=
  (default (λ loader gd lf, _validate' true loader (Some gd) (Some lf))
           (validate_func Batch a)).
Local Abbreviation save_fn_of a :=
  (default (λ fp fo su, save fp fo su true) (save_fn Batch a)).

(** X24. The validation before the first epoch. Once the training
    loader is there, [_train] starts with a validation: an exception it
    raises ends [_train] at once, in the state the validation left; and
    with [epoch <= 0] a [_train] whose validation returns does nothing but
    drop the gradients: no epoch runs, nothing is validated again and
    nothing is saved. *)
Theorem train_baseline (a : TrainArgs Batch) (st : State) (l : list Batch) :
  loader_train Batch a = Some l
  ∨ (loader_train Batch a = None ∧
     ∃ d, dataset (self st) = DatasetObj d ∧ dataset_loader d "train" = inr l) →
  (∀ e s0,
     validate_func_of a (loader_valid Batch a) (get_data_of a) (loss_fn_of a) st = (inl e, s0) →
     _train' a st = (inl e, s0))
  ∧ (∀ r0 s0,
       validate_func_of a (loader_valid Batch a) (get_data_of a) (loss_fn_of a) st
       = (inr r0, s0) →
       epoch Batch a ≤ 0 →
       _train' a st = (inr [], (zero_grad s0).2)).
Proof.
  intros Hloader.
  assert (match loader_train Batch a with
          | Some l => ret l
          | None => self_dataset_loader Batch dataset_loader "train"
          end st = (inr l, st)) as Hl.
  { destruct Hloader as [->|(-> & d & Hd & Hdl)]; [done|].
    unfold self_dataset_loader. erewrite bind_run by reflexivity. by rewrite Hd, Hdl. }
  split.
  - intros e s0 Hv. unfold _train. erewrite bind_run by exact Hl.
    by erewrite bind_raise by exact Hv.
  - intros r0 s0 Hv Hep. unfold _train. erewrite bind_run by exact Hl.
    erewrite bind_run by exact Hv.
    unfold range. replace (Z.to_nat (epoch Batch a)) with 0%nat by lia. simpl.
    erewrite bind_run by reflexivity. by erewrite bind_run by reflexivity.
Qed.

(** X25. Loaders that are not there. Without a dataset, [_train] called
    without [loader_train] raises [AttributeError] before anything else
    happens, and [_validate] called without a loader raises it after it
    has put the network in evaluation mode. *)
Theorem missing_loaders (a : TrainArgs Batch) (st : State) :
  dataset (self st) = DatasetNone →
  (loader_train Batch a = None →
   _train' a st
   = (inl (AttributeError "'NoneType' object has no attribute 'loader'"), st))
  ∧ (∀ full gd lf,
       _validate' full None gd lf st
       = (inl (AttributeError "'NoneType' object has no attribute 'loader'"), (eval st).2)).
Proof.
  intros Hd. split.
  - intros Hl. unfold _train. rewrite Hl. erewrite bind_raise; [reflexivity|].
    unfold self_dataset_loader. erewrite bind_run by reflexivity. by rewrite Hd.
  - intros full gd lf. unfold _validate. erewrite bind_run by apply eval_run.
    erewrite bind_raise; [reflexivity|].
    unfold self_dataset_loader. erewrite bind_run by reflexivity. simpl. by rewrite Hd.
Qed.

(** X26. The gradient flags within an epoch. In an epoch that returns
    from the state [st], the callback [epoch_func], when there is one, is
    run with the gradient flag of every parameter off, and the groups of
    the optimizer are activated after it. From the state the callback
    returned in (or from [st] without a callback), [train()] and
    [activate_params(params)] lead to the state [sb]: there the network is
    in training mode and [requires_grad] is set on exactly the parameters
    in the groups of the optimizer. [optimizer.zero_grad()] and the loop
    over the batches start in [sb], and what follows the loop, from
    [eval()] to the validation, leads to the state the epoch ends in. *)
Theorem train_epoch_flags (a : TrainArgs Batch) loader gd lf vf sf loc e st loc' st' :
  train_epoch' a loader gd lf vf sf loc e st = (inr loc', st') →
  ∃ s0 sz ms sm,
    match epoch_func Batch a with
    | Some f =>
        map_Forall (λ _ p, requires_grad p = false)
                   (parameters (_model (self (activate_params [] st).2))) ∧
        f (activate_params [] st).2 = (inr tt, s0)
    | None => s0 = st
    end ∧
    let s1 := match epoch_func Batch a with
              | Some _ => (activate_params (optimizer Batch a) s0).2
              | None => st
              end in
    let sb := (activate_params (optimizer Batch a) (train true s1).2).2 in
    training (_model (self sb)) = true ∧
    (∀ k p, parameters (_model (self sb)) !! k = Some p →
            requires_grad p = bool_decide (k ∈ concat (optimizer Batch a))) ∧
    optimizer_zero_grad sb = (inr tt, sz) ∧
    foldM (train_batch forward forward_train randn percent Batch backward_step
             optimizer_zero_grad a gd lf)
          loader meters_reset sz = (inr ms, sm) ∧
    (eval ;;
     activate_params [] ;;
     when (lr_scheduler Batch a) lr_scheduler_step ;;
     validate_and_save Batch a gd lf vf sf e
       {| best_acc := best_acc loc; meters := ms; trace := trace loc |}) sm
    = (inr loc', st').
Proof.
  unfold train_epoch. intros Hrun.
  apply bind_inr in Hrun as ([] & s1 & Hfunc & Hrun).
  apply bind_inr in Hrun as ([] & s2 & Htrain & Hrun).
  apply bind_inr in Hrun as ([] & s3 & Hact & Hrun).
  apply bind_inr in Hrun as ([] & s4 & Hzero & Hrun).
  apply bind_inr in Hrun as (ms & s5 & Hloop & Hrest).
  assert (s2 = (train true s1).2) as -> by by rewrite Htrain.
  assert (s3 = (activate_params (optimizer Batch a) (train true s1).2).2) as ->
    by by rewrite Hact.
  assert (∃ s0, match epoch_func Batch a with
                | Some f =>
                    map_Forall (λ _ p, requires_grad p = false)
                               (parameters (_model (self (activate_params [] st).2))) ∧
                    f (activate_params [] st).2 = (inr tt, s0)
                | None => s0 = st
                end ∧
                s1 = match epoch_func Batch a with
                     | Some _ => (activate_params (optimizer Batch a) s0).2
                     | None => st
                     end) as (s0 & Hs0 & ->).
  { destruct (epoch_func Batch a) as [f|].
    - apply bind_inr in Hfunc as ([] & sa & Ha & Hfunc).
      apply bind_inr in Hfunc as ([] & sfun & Hf & Hb).
      exists sfun. rewrite Ha. simpl. split; [|by rewrite Hb]. split; [|done].
      rewrite activate_params_run in Ha. injection Ha as <-. apply activate_nil_off.
    - exists st. apply ret_inr in Hfunc as [_ ->]. done. }
  exists s0, s4, ms, s5. split; [exact Hs0|]. cbv zeta.
  split; [|split; [|split; [exact Hzero|split; [exact Hloop|exact Hrest]]]].
  - by rewrite activate_params_run, train_run.
  - intros k p. rewrite activate_params_run. simpl. rewrite activate_lookup.
    destruct (parameters _ !! k); simpl; [|done]. by intros [= <-].
Qed.

Lemma get_data_keeps_self :
  (∀ d data mode, keeps_self (dataset_get_data d data mode)) →
  ∀ data mode, keeps_self (get_data Batch dataset_get_data unpack data mode).
Proof.
  intros Hds data mode. unfold get_data.
  apply keeps_self_bind; [apply keeps_self_get|]. intros s.
  destruct (dataset_truthy (dataset (self s))); [|apply keeps_self_lift].
  destruct (dataset (self s)); [apply keeps_self_raise..|apply Hds].
Qed.

(** X27. Validation changes no parameter. When the batch unpacking of
    the dataset leaves the wrapper alone, [_validate] with the wrapper's
    own [get_data] and [loss] does nothing to the wrapper but put the
    network in evaluation mode, however it ends: the parameters, their
    gradient flags and their gradients are as before. *)
Theorem validate_keeps_parameters (full : bool) (loader : option (list Batch))
    (st st' : State) r :
  (∀ d data mode, keeps_self (dataset_get_data d data mode)) →
  _validate' full loader None None st = (r, st') →
  self st' = self (eval st).2
  ∧ parameters (_model (self st')) = parameters (_model (self st)).
Proof.
  intros Hds Hrun.
  assert (self st' = self (eval st).2) as Hself.
  { revert Hrun. unfold _validate. erewrite bind_run by apply eval_run.
    rewrite eval_run. simpl snd.
    match goal with |- bind ?m ?k ?s = _ → _ => assert (keeps_self (bind m k)) as Hkeep end.
    { apply keeps_self_bind.
      { destruct loader; [apply keeps_self_ret|]. unfold self_dataset_loader.
        apply keeps_self_bind; [apply keeps_self_get|]. intros s.
        destruct (dataset (self s)); [apply keeps_self_raise..|apply keeps_self_lift]. }
      intros l. apply keeps_self_bind; [|intros ?; apply keeps_self_ret].
      apply keeps_self_foldM. intros ms data. simpl.
      apply keeps_self_bind; [by apply get_data_keeps_self|]. intros il.
      apply keeps_self_bind; [apply loss_keeps_self|]. intros l0.
      apply keeps_self_bind; [apply get_logits_keeps_self|]. intros out.
      apply keeps_self_bind; [|intros ?; apply keeps_self_ret].
      unfold accuracy_1_5. apply keeps_self_bind; [apply accuracy_keeps_self|].
      intros res. destruct res as [|? [|? [|]]];
        first [apply keeps_self_raise|apply keeps_self_ret]. }
    intros Hrun. exact (Hkeep _ _ _ Hrun). }
  split; [done|]. rewrite Hself, eval_run. reflexivity.
Qed.

End Loop.

Lemma train_baseline_witness :
  (_train Examples.example_forward Examples.example_forward_train Examples.example_randn (λ _ _ _,
      inr 0%Q) Examples.example_percent
     (Tensor * list Z) (λ _ _, inr []) (λ _ data _, ret data) inr (λ _ _, ret tt)
     (ret tt) (ret tt) Examples.no_epoch_args Examples.example_state).1
  = inr [].
Proof.
  destruct (train_baseline Examples.example_forward Examples.example_forward_train
      Examples.example_randn
              (λ _ _ _, inr 0%Q) Examples.example_percent (Tensor * list Z) (λ _ _, inr [])
              (λ _ data _, ret data) inr (λ _ _, ret tt) (ret tt) (ret tt)
              Examples.no_epoch_args Examples.example_state [Examples.example_batch])
    as [_ H]; [left; reflexivity|].
  set (run := _validate Examples.example_forward Examples.example_forward_train
      Examples.example_randn
                (λ _ _ _, inr 0%Q) Examples.example_percent (Tensor * list Z) (λ _ _, inr [])
                (λ _ data _, ret data) inr true (Some [Examples.example_batch])
                (Some (get_data (Tensor * list Z) (λ _ data _, ret data) inr))
                (Some (loss Examples.example_forward Examples.example_forward_train
                    Examples.example_randn
                         (λ _ _ _, inr 0%Q)))
                Examples.example_state).
  assert (run = (inr (MoreExamples.returned (0%Q, 0%Q, 0%Q) run), run.2)) as Hv
    by (vm_compute; reflexivity).
  rewrite (H _ _ Hv); [reflexivity|simpl; lia].
Defined.

Lemma missing_loaders_witness :
  _train Examples.example_forward Examples.example_forward_train Examples.example_randn (λ _ _ _,
      inr 0%Q) Examples.example_percent
    (Tensor * list Z) (λ _ _, inr []) (λ _ data _, ret data) inr (λ _ _, ret tt)
    (ret tt) (ret tt) MoreExamples.no_loader_args Examples.example_state
  = (inl (AttributeError "'NoneType' object has no attribute 'loader'"),
     Examples.example_state).
Proof.
  apply (missing_loaders Examples.example_forward Examples.example_forward_train
      Examples.example_randn
           (λ _ _ _, inr 0%Q) Examples.example_percent (Tensor * list Z) (λ _ _, inr [])
           (λ _ data _, ret data) inr (λ _ _, ret tt) (ret tt) (ret tt)
           MoreExamples.no_loader_args Examples.example_state); reflexivity.
Defined.

(** The theorem on the first epoch of the example run, with a callback
    that does nothing. *)
Lemma train_epoch_flags_witness :
  let a := MoreExamples.epoch_func_args in
  let gd := get_data (Tensor * list Z) (λ _ data _, ret data) inr in
  let lf := loss Examples.example_forward Examples.example_forward_train
              Examples.example_randn (λ _ _ _, inr 0%Q) in
  let vf := λ loader gd lf,
              _validate Examples.example_forward Examples.example_forward_train
                Examples.example_randn (λ _ _ _, inr 0%Q) Examples.example_percent
                (Tensor * list Z) (λ _ _, inr []) (λ _ data _, ret data) inr
                true loader (Some gd) (Some lf) in
  let sf := λ fp fo su, save fp fo su true in
  let loc := {| best_acc := 0%Q; meters := meters_reset; trace := [] |} in
  let st := Examples.example_state in
  let run := train_epoch Examples.example_forward Examples.example_forward_train
               Examples.example_randn Examples.example_percent (Tensor * list Z)
               (λ _ _, ret tt) (ret tt) (ret tt) a [Examples.example_batch]
               gd lf vf sf loc 0 st in
  ∃ s0 sz ms sm,
    match epoch_func _ a with
    | Some f =>
        map_Forall (λ _ p, requires_grad p = false)
                   (parameters (_model (self (activate_params [] st).2))) ∧
        f (activate_params [] st).2 = (inr tt, s0)
    | None => s0 = st
    end ∧
    let s1 := match epoch_func _ a with
              | Some _ => (activate_params (optimizer _ a) s0).2
              | None => st
              end in
    let sb := (activate_params (optimizer _ a) (train true s1).2).2 in
    training (_model (self sb)) = true ∧
    (∀ k p, parameters (_model (self sb)) !! k = Some p →
            requires_grad p = bool_decide (k ∈ concat (optimizer _ a))) ∧
    ret tt sb = (inr tt, sz) ∧
    foldM (train_batch Examples.example_forward Examples.example_forward_train
             Examples.example_randn Examples.example_percent (Tensor * list Z)
             (λ _ _, ret tt) (ret tt) a gd lf)
          [Examples.example_batch] meters_reset sz = (inr ms, sm) ∧
    (eval ;;
     activate_params [] ;;
     when (lr_scheduler _ a) (ret tt) ;;
     validate_and_save _ a gd lf vf sf 0
       {| best_acc := best_acc loc; meters := ms; trace := trace loc |}) sm
    = (inr (MoreExamples.returned loc run), run.2).
Proof.
  intros a gd lf vf sf loc st run.
  assert (run = (inr (MoreExamples.returned loc run), run.2)) as Hrun
    by (vm_compute; reflexivity).
  unfold run at 1 in Hrun.
  exact (train_epoch_flags Examples.example_forward Examples.example_forward_train
           Examples.example_randn Examples.example_percent (Tensor * list Z)
           (λ _ _, ret tt) (ret tt) (ret tt) a [Examples.example_batch]
           gd lf vf sf loc 0 st _ _ Hrun).
Defined.

Lemma validate_keeps_parameters_witness :
  parameters (_model (self (_validate Examples.example_forward Examples.example_forward_train
      Examples.example_randn
                              (λ _ _ _, inr 0%Q) Examples.example_percent (Tensor * list Z) (λ _
                                  _, inr [])
                              (λ _ data _, ret data) inr true
                              (Some [Examples.example_batch]) None None
                              Examples.example_state).2))
  = parameters (_model (self Examples.example_state)).
Proof.
  eapply (validate_keeps_parameters Examples.example_forward Examples.example_forward_train
      Examples.example_randn
            (λ _ _ _, inr 0%Q) Examples.example_percent (Tensor * list Z) (λ _ _, inr [])
            (λ _ data _, ret data) inr true (Some [Examples.example_batch])
            Examples.example_state).
  - intros d data mode. apply keeps_self_ret.
  - apply surjective_pairing.
Defined.

End TrainMoreFacts.

(* ===================================================================== *)
(** * Optimizers, filtering and state dictionaries *)
(* ===================================================================== *)

Module UtilitiesFacts.
Import Py Torch Wrapper WrapperMore PyFacts CheckpointFacts LogitsFacts ParametersFacts.
Local Open Scope py_scope.

Section Optimizer.
Context (optim_getattr : string → exn + string).
Context (optim_construct : string → list string → Q → gmap string kwarg → exn + Optimizer).

Local Abbreviation define_optimizer' := (define_optimizer optim_getattr optim_construct).

Lemma get_params_inr (name : string) (st st' : State) r :
  get_params name st = (r, st') → st' = st.
Proof. rewrite get_params_run. by intros [= _ <-]. Qed.

(** X28. What [define_optimizer] builds. A call that returns has left
    the state alone. The optimizer is the one the constructor of the class
    returned for the parameters named ([get_params] of the group, or the
    parameters given), the learning rate and the keyword arguments, where
    the class is SGD unless [optim_type] is the name of another one -- an
    optimizer class passed for [optim_type] is not used -- and where SGD
    without any keyword argument gets momentum 0.9, weight decay 2e-4 and
    Nesterov momentum, but no default is added once a keyword argument is
    given or for another class. The schedule is a step decay by 0.1 every
    [step_size] epochs, or [None] when [lr_scheduler] is off. *)
Theorem define_optimizer_result (lr : Q) (parameters : parameters_arg)
    (optim_type : optim_type_arg) (lr_scheduler : bool) (step : Z)
    (kwargs : gmap string kwarg) (st st' : State) (opt : Optimizer) (sch : option StepLR) :
  define_optimizer' lr parameters optim_type lr_scheduler step kwargs st
  = (inr (opt, sch), st') →
  st' = st ∧
  sch = (if lr_scheduler then Some {| step_size := step; gamma := 1 # 10 |} else None) ∧
  ∃ names class,
    match parameters with
    | ParametersStr name => get_params name st = (inr names, st)
    | ParametersIter ps => names = ps
    | ParametersOther _ => False
    end ∧
    match optim_type with
    | OptimStr name => optim_getattr name = inr class
    | OptimNone | OptimClass _ => class = "SGD"
    end ∧
    optim_construct class names lr
      (if bool_decide (kwargs = ∅ ∧ class = "SGD") then sgd_defaults else kwargs)
    = inr opt.
Proof.
  unfold define_optimizer. intros Hrun.
  apply bind_inr in Hrun as (names & s1 & Hnames & Hrun).
  assert (s1 = st ∧ match parameters with
                    | ParametersStr name => get_params name st = (inr names, st)
                    | ParametersIter ps => names = ps
                    | ParametersOther _ => False
                    end) as [-> Hp].
  { destruct parameters as [name|ps|t]; [|by apply ret_inr in Hnames as [-> ->]|done].
    pose proof (get_params_inr _ _ _ _ Hnames) as ->. done. }
  apply bind_inr in Hrun as (class & s1 & Hclass & Hrun).
  assert (s1 = st ∧ match optim_type with
                    | OptimStr name => optim_getattr name = inr class
                    | OptimNone | OptimClass _ => class = "SGD"
                    end) as [-> Hc].
  { destruct optim_type as [|name|c];
      [by apply ret_inr in Hclass as [-> ->]|by apply lift_inr in Hclass as [? ->]|
       by apply ret_inr in Hclass as [-> ->]]. }
  apply bind_inr in Hrun as (o & s1 & [Ho ->]%lift_inr & Hrun).
  apply ret_inr in Hrun as [[= -> ->] ->].
  split; [done|]. split; [done|]. exists names, class. split; [done|]. split; [done|].
  rewrite <- Ho. f_equal.
  repeat case_bool_decide; naive_solver.
Qed.

(** What [define_optimizer] refuses, and in which order. A
    [parameters] argument that is neither a string nor iterable raises
    [TypeError]; the name of an unknown group raises the
    [NotImplementedError] of [get_params], even when the optimizer asked
    for does not exist either; and a name [torch.optim] does not have
    raises the exception of [getattr] before any optimizer is built. The
    state is as before in every case. *)
Lemma define_optimizer_errors (lr : Q) (optim_type : optim_type_arg)
    (lr_scheduler : bool) (step : Z) (kwargs : gmap string kwarg) (st : State) :
  (∀ t, define_optimizer' lr (ParametersOther t) optim_type lr_scheduler step kwargs st
        = (inl (TypeError t), st))
  ∧ (∀ name, name ∉ ["full"; "features"; "classifier"; "partial"] →
       define_optimizer' lr (ParametersStr name) optim_type lr_scheduler step kwargs st
       = (inl (NotImplementedError name), st))
  ∧ (∀ ps name e, optim_getattr name = inl e →
       define_optimizer' lr (ParametersIter ps) (OptimStr name) lr_scheduler step kwargs st
       = (inl e, st)).
Proof.
  split; [|split].
  - intros t. unfold define_optimizer. by erewrite bind_raise by reflexivity.
  - intros name Hname. unfold define_optimizer. erewrite bind_raise; [reflexivity|].
    rewrite get_params_run. rewrite !bool_decide_false; [done|set_solver..].
  - intros ps name e He. unfold define_optimizer. erewrite bind_run by reflexivity.
    erewrite bind_raise; [reflexivity|]. unfold lift. by rewrite He.
Qed.

End Optimizer.

Lemma select_sublist {A} (mask : list bool) (l : list A) : select mask l `sublist_of` l.
Proof.
  unfold select. revert l. induction mask as [|b mask IH]; intros l.
  { apply sublist_nil_l. }
  destruct l as [|x l]; [apply sublist_nil_l|].
  change (zip (b :: mask) (x :: l)) with ((b, x) :: zip mask l).
  rewrite filter_cons. destruct b; simpl.
  - by apply sublist_skip.
  - by apply sublist_cons.
Qed.

Lemma select_all {A} (mask : list bool) (l : list A) :
  Forall (λ b, b = true) mask → length mask = length l → select mask l = l.
Proof.
  unfold select. intros Hmask. revert l.
  induction Hmask as [|b mask -> _ IH]; intros l Hlen; destruct l as [|x l]; try done.
  change (zip (true :: mask) (x :: l)) with ((true, x) :: zip mask l).
  rewrite filter_cons. simpl.
  f_equal. apply IH. simpl in Hlen. lia.
Qed.

Lemma concat_chunks {A} (k n : nat) (l : list A) : concat (chunks k n l) = take (n * k) l.
Proof.
  revert l. induction n as [|n IH]; intros l; simpl; [done|].
  by rewrite IH, take_take_drop.
Qed.

Lemma length_chunks {A} (k n : nat) (l : list A) : length (chunks k n l) = n.
Proof. revert l. induction n as [|n IH]; intros l; simpl; [done|]. by rewrite IH. Qed.

Lemma eq_broadcast_same (l : list Z) :
  eq_broadcast l l = inr (replicate (length l) true).
Proof.
  unfold eq_broadcast. rewrite bool_decide_true by done. f_equal.
  induction l as [|x l IH]; [done|]. simpl. rewrite bool_decide_true by done. by f_equal.
Qed.

Section Filter.
Context (forward : Net → Tensor → exn + Tensor2 Qc).
Context (forward_train : Net → Tensor → nat → (exn + Tensor2 Qc) * nat).
Context (randn : nat → Qc).
Context (Batch : Type).
Context (dataset_get_data : Dataset → Batch → string → M State (Tensor * list Z)).
Context (unpack : Batch → exn + (Tensor * list Z)).

(** X29. What [remove_misclassify] keeps. In a call that returns, the
    labels returned are labels of the batch, in their order, each at a
    position where the class [get_class] predicted for the batch is the
    label; the input returned has one example per label returned and
    otherwise the shape of the input of the batch; and when every
    prediction is the label, the batch is returned as it is. *)
Theorem remove_misclassify_kept (data : Batch) (mode : string) (st st' : State)
    (_input' : Tensor) (_label' : list Z) :
  remove_misclassify forward forward_train randn Batch dataset_get_data unpack data mode st
  = (inr (_input', _label'), st') →
  ∃ _input _label s1 classes mask,
    get_data Batch dataset_get_data unpack data mode st = (inr (_input, _label), s1) ∧
    get_class forward forward_train randn _input s1 = (inr classes, st') ∧
    eq_broadcast classes _label = inr mask ∧
    length mask = length _label ∧
    _label' = select mask _label ∧
    _label' `sublist_of` _label ∧
    shape _input' = length _label' :: tail (shape _input) ∧
    (classes = _label → well_shaped _input → _input' = _input ∧ _label' = _label).
Proof.
  unfold remove_misclassify. intros Hrun.
  apply bind_inr in Hrun as ([_input _label] & s1 & Hdata & Hrun). simpl in Hrun.
  apply bind_inr in Hrun as (classes & s2 & Hclass & Hrun).
  apply bind_inr in Hrun as (mask & s3 & [Hmask ->]%lift_inr & Hrun).
  apply bind_inr in Hrun as (inp & s3 & [Hinp ->]%lift_inr & Hrun).
  apply bind_inr in Hrun as (lab & s3 & [Hlab ->]%lift_inr & Hrun).
  apply ret_inr in Hrun as [[= -> ->] ->].
  unfold mask_list in Hlab. case_bool_decide as Hlen; [|done]. injection Hlab as <-.
  unfold mask_tensor in Hinp. destruct (shape _input) as [|n sh] eqn:Hshape; [done|].
  case_bool_decide as Hn; [|done]. injection Hinp as <-.
  exists _input, _label, s1, classes, mask.
  split; [done|]. split; [done|]. split; [done|]. split; [done|]. split; [done|].
  split; [apply select_sublist|].
  assert (∀ {A B} (m : list bool) (l1 : list A) (l2 : list B),
            length l1 = length l2 → length (select m l1) = length (select m l2)) as Hsel.
  { clear. intros A B m. unfold select.
    induction m as [|b m IH]; intros l1 l2 Hl; [done|].
    destruct l1 as [|x l1], l2 as [|y l2]; try done. simpl in Hl.
    change (zip (b :: m) (x :: l1)) with ((b, x) :: zip m l1).
    change (zip (b :: m) (y :: l2)) with ((b, y) :: zip m l2).
    rewrite !filter_cons. destruct b; simpl.
    - f_equal. apply (IH l1 l2). lia.
    - apply (IH l1 l2). lia. }
  split.
  { rewrite Hshape. simpl. f_equal. apply Hsel. rewrite length_chunks. lia. }
  intros -> Hws. rewrite eq_broadcast_same in Hmask. injection Hmask as <-.
  rewrite length_replicate in Hn.
  rewrite !select_all;
    [|apply Forall_replicate; done|by rewrite length_replicate..|apply Forall_replicate; done|].
  2:{ rewrite length_replicate, length_chunks. done. }
  split; [|done]. rewrite length_chunks, concat_chunks.
  unfold well_shaped in Hws. rewrite Hshape in Hws. simpl in Hws.
  rewrite take_ge by lia. destruct _input as [s e]. simpl in *. by subst.
Qed.

End Filter.

Lemma load_params_own (ps : gmap string Param) : load_params "" (data <$> ps) ps = ps.
Proof.
  apply map_eq. intros k. rewrite load_params_lookup, lookup_fmap.
  destruct (ps !! k) as [p|]; [|done]. simpl. rewrite decide_True by done.
  by destruct p.
Qed.

(** X30. State dictionaries in memory. The state dictionary of a
    wrapper loads into any wrapper whose network has parameters of the
    same names and shapes, strictly or not: afterwards these have the
    values of the first network, and the gradient flags, the mode, the
    files and the stream of draws of the second are as they were. Loaded
    into the wrapper it came from, it changes nothing. *)
Theorem state_dict_transfer (st st2 : State) (strict : bool) :
  same_shapes (parameters (_model (self st))) (parameters (_model (self st2))) →
  ∃ sd st3,
    Model_state_dict st = (inr sd, st) ∧
    Model_load_state_dict sd strict st2 = (inr tt, st3) ∧
    data <$> parameters (_model (self st3)) = data <$> parameters (_model (self st)) ∧
    (∀ k, requires_grad <$> parameters (_model (self st3)) !! k
          = requires_grad <$> parameters (_model (self st2)) !! k) ∧
    training (_model (self st3)) = training (_model (self st2)) ∧
    fs st3 = fs st2 ∧ rng st3 = rng st2 ∧
    (st2 = st → st3 = st).
Proof.
  intros Hshapes. destruct (load_state_dict_same_shapes _ _ Hshapes) as [Hok Hdata].
  set (sd := data <$> parameters (_model (self st))) in *.
  exists sd, (set_self (set_net (set_parameters (load_params "" sd))) st2).
  split.
  { unfold Model_state_dict. erewrite bind_run by reflexivity. by rewrite state_dict_full. }
  split.
  { unfold Model_load_state_dict. destruct strict.
    - unfold load_state_dict. erewrite bind_run by reflexivity.
      erewrite bind_run by reflexivity. simpl. by rewrite Hok.
    - erewrite bind_run by reflexivity. erewrite bind_run by reflexivity.
      rewrite bool_decide_true; [done|].
      intros k p Hk. unfold shape_ok. unfold sd. rewrite lookup_fmap.
      specialize (Hshapes k). simpl in Hk. rewrite Hk in Hshapes.
      destruct (parameters (_model (self st)) !! k) as [p0|]; [|done]. simpl in *.
      apply bool_decide_eq_true_2. congruence. }
  split; [exact Hdata|]. split.
  { intros k. simpl. rewrite load_params_lookup.
    destruct (parameters (_model (self st2)) !! k) as [p|]; [|done]. simpl.
    destruct (sd !! k); [|done]. by destruct (decide _). }
  split; [done|]. split; [done|]. split; [done|].
  intros ->. unfold sd. destruct st as [m f r].
  destruct m as [? ? ? ? ? ? ? ? ? ? ? ? ? ? ? net ? ?]. destruct net as [ps tr].
  unfold set_self, set_net, set_parameters. simpl. by rewrite load_params_own.
Qed.

Lemma define_optimizer_result_witness :
  ∃ opt sch,
    define_optimizer MoreExamples.example_getattr MoreExamples.example_construct
      (1 # 10) (ParametersStr "partial") OptimNone true 30 ∅ Examples.example_state
    = (inr (opt, sch), Examples.example_state) ∧
    sch = Some {| step_size := 30; gamma := 1 # 10 |} ∧
    MoreExamples.example_construct "SGD" ["classifier.fc.weight"; "classifier.fc.bias"]
      (1 # 10) sgd_defaults = inr opt.
Proof.
  eexists _, _. split; [vm_compute; reflexivity|].
  match goal with
  | |- ?sch = _ ∧ _ = inr ?opt =>
      destruct (define_optimizer_result MoreExamples.example_getattr
                  MoreExamples.example_construct (1 # 10) (ParametersStr "partial")
                  OptimNone true 30 ∅ Examples.example_state Examples.example_state
                  opt sch) as (_ & Hsch & names & class & Hp & -> & Ho);
        [vm_compute; reflexivity|]
  end.
  split; [exact Hsch|].
  vm_compute in Hp. injection Hp as <-.
  rewrite bool_decide_true in Ho by done. exact Ho.
Defined.

Lemma remove_misclassify_kept_witness :
  ∃ _input' _label',
    remove_misclassify Examples.example_forward Examples.example_forward_train
        Examples.example_randn (Tensor * list Z)
      (λ _ data _, ret data) inr Examples.example_batch "valid" Examples.example_state
    = (inr (_input', _label'), Examples.example_state) ∧
    _label' = [2; 0] ∧
    _label' `sublist_of` Examples.example_labels ∧
    shape _input' = [2; 1; 1; 2]%nat.
Proof.
  eexists _, _. split; [vm_compute; reflexivity|]. split; [reflexivity|].
  match goal with
  | |- ?l' `sublist_of` _ ∧ shape ?i' = _ =>
      destruct (remove_misclassify_kept Examples.example_forward Examples.example_forward_train
          Examples.example_randn
                  (Tensor * list Z) (λ _ data _, ret data) inr Examples.example_batch
                  "valid" Examples.example_state Examples.example_state i' l')
        as (_input & _label & s1 & classes & mask & Hdata & _ & _ & _ & _ & Hsub & Hshape & _);
        [vm_compute; reflexivity|]
  end.
  unfold get_data, bind, get, lift in Hdata. simpl in Hdata. injection Hdata as <- <- <-.
  split; [exact Hsub|exact Hshape].
Defined.

Lemma state_dict_transfer_witness :
  ∃ sd st3,
    Model_state_dict MoreExamples.two_part_state = (inr sd, MoreExamples.two_part_state) ∧
    Model_load_state_dict sd true
      (perturb MoreExamples.other_params MoreExamples.two_part_state) = (inr tt, st3) ∧
    data <$> parameters (_model (self st3))
    = data <$> parameters (_model (self MoreExamples.two_part_state)).
Proof.
  destruct (state_dict_transfer MoreExamples.two_part_state
              (perturb MoreExamples.other_params MoreExamples.two_part_state) true)
    as (sd & st3 & Hsd & Hload & Hdata & _).
  - intros k. unfold MoreExamples.other_params. simpl.
    destruct (decide (k = "features.conv.weight")) as [->|Hf]; [reflexivity|].
    destruct (decide (k = "classifier.fc.weight")) as [->|Hw]; [reflexivity|].
    destruct (decide (k = "classifier.fc.bias")) as [->|Hb]; [reflexivity|].
    rewrite !lookup_insert_ne by done. by rewrite !lookup_singleton_ne by done.
  - exists sd, st3. split; [exact Hsd|]. split; [exact Hload|exact Hdata].
Defined.

End UtilitiesFacts.
